(** * HappyFunTimes, server/gameinfo.js: manifest validation

    A shallow embedding of [src/server/gameinfo.js].  The module reads the
    [happyFunTimes] section of a game's package.json, fills in defaults,
    validates the required fields, picks the settings of the best matching
    API version and rewrites a few path valued fields.

    JavaScript objects are finite maps from property names to values; the
    one object the code mutates ([hftInfo]) is threaded through a small
    state monad together with the console.  The libraries the file calls
    ([path], [semver]) are modelled in modules of their own.  Reading the
    file from disk ([readGameInfo]) takes the file system and [JSON.parse]
    as parameters; the asset checks ([checkRequiredFiles], whose call is
    commented out in the source) come with a matcher for the regular
    expressions they use. *)

From Stdlib Require Import PrimFloat Ascii.
From stdpp Require Import gmap strings list fin_maps.

Set Warnings "-register-all".
Local Open Scope string_scope.

(** ** Strings *)

Module Str.

(** [s.charAt(0) === c] *)
Definition starts_with_char (c : ascii) (s : string) : bool :=
  match s with
  | String a _ => bool_decide (a = c)
  | EmptyString => false
  end.

(** [s[s.length - 1] === c] *)
Fixpoint ends_with_char (c : ascii) (s : string) : bool :=
  match s with
  | EmptyString => false
  | String a EmptyString => bool_decide (a = c)
  | String _ s' => ends_with_char c s'
  end.

(** [s.split(sep)] for a one character separator: never the empty list,
    [''.split('/')] is [['']]. *)
Fixpoint split (sep : ascii) (s : string) : list string :=
  match s with
  | EmptyString => [EmptyString]
  | String a s' =>
      if bool_decide (a = sep) then EmptyString :: split sep s'
      else match split sep s' with
           | hd :: tl => String a hd :: tl
           | [] => [String a EmptyString]
           end
  end.

(** [parts.join(sep)] *)
Definition join (sep : string) (parts : list string) : string :=
  String.concat sep parts.

(** [s.substring(0, n)]: the first [n] characters, all of [s] when it is
    shorter. *)
Definition substring0 (n : nat) (s : string) : string :=
  String.substring 0 n s.

(** [s.substr(0, s.length - 1)] *)
Fixpoint drop_last (s : string) : string :=
  match s with
  | EmptyString => EmptyString
  | String _ EmptyString => EmptyString
  | String a s' => String a (drop_last s')
  end.

Fixpoint forallb (p : ascii → bool) (s : string) : bool :=
  match s with
  | EmptyString => true
  | String a s' => p a && forallb p s'
  end.

Definition in_range (lo hi c : ascii) : bool :=
  ((N_of_ascii lo <=? N_of_ascii c) && (N_of_ascii c <=? N_of_ascii hi))%N.

Definition is_digit (c : ascii) : bool := in_range "0" "9" c.
Definition is_letter (c : ascii) : bool :=
  in_range "a" "z" c || in_range "A" "Z" c.

End Str.

(** ** Node's [path] module, POSIX flavour (lib/path.js of Node 0.10) *)

Module Path.

(** [normalizeArray(parts, allowAboveRoot)]: walks the parts from the
    last to the first, dropping ['.'], counting ['..'] in [up] and
    dropping one part for each; what is left of [up] is put back in
    front when the path may climb above its root. *)
Definition normalizeArray (parts : list string) (allowAboveRoot : bool)
  : list string :=
  let '(kept, up) :=
    fold_right
      (λ last '(kept, up),
         if bool_decide (last = ".") then (kept, up)
         else if bool_decide (last = "..") then (kept, S up)
         else match up with
              | S up' => (kept, up')
              | O => (last :: kept, O)
              end)
      ([], 0) parts in
  if allowAboveRoot then replicate up ".." ++ kept else kept.

Definition isAbsolute (path : string) : bool :=
  Str.starts_with_char "/" path.

Definition normalize (path : string) : string :=
  let isAbs := isAbsolute path in
  let trailingSlash := Str.ends_with_char "/" path in
  let path :=
    Str.join "/"
      (normalizeArray
         (List.filter (λ p, negb (String.eqb p "")) (Str.split "/" path))
         (negb isAbs)) in
  let path := if String.eqb path "" && negb isAbs then "." else path in
  let path :=
    if negb (String.eqb path "") && trailingSlash then path +:+ "/"
    else path in
  (if isAbs then "/" else "") +:+ path.

(** [path.join(a, b, ...)] on string arguments. *)
Definition join (segments : list string) : string :=
  normalize
    (fold_left
       (λ path segment,
          if String.eqb segment "" then path
          else if String.eqb path "" then segment
          else path +:+ "/" +:+ segment)
       segments "").

(** Trailing slashes off: the slashes [splitPathRe] lets follow the base
    name. *)
Fixpoint strip_trailing_slashes (s : string) : string :=
  match s with
  | EmptyString => EmptyString
  | String a s' =>
      let r := strip_trailing_slashes s' in
      if bool_decide (a = "/"%char) && String.eqb r "" then EmptyString
      else String a r
  end.

(** [splitPath(filename)], the root and the directory that [splitPathRe]
    (root, lazy directory, base name with extension, trailing slashes)
    captures: the root is the leading slash if there is one; the base
    name is the last run without a slash before the trailing slashes,
    and the directory is what stands before it, its last slash
    included. *)
Definition splitPath (filename : string) : string * string :=
  let root := if isAbsolute filename then "/" else "" in
  let rest := match filename with
              | String a s' => if bool_decide (a = "/"%char) then s' else filename
              | EmptyString => EmptyString
              end in
  let parts := Str.split "/" (strip_trailing_slashes rest) in
  let dir := match removelast parts with
             | [] => ""
             | init => Str.join "/" init +:+ "/"
             end in
  (root, dir).

Definition dirname (path : string) : string :=
  let '(root, dir) := splitPath path in
  if String.eqb root "" && String.eqb dir "" then "."
  else root +:+ Str.drop_last dir.

End Path.

(** ** The [semver] package

    Parsing, precedence, caret ranges and [maxSatisfying], after the
    package's documented behaviour.  Of the range grammar only the caret
    form that gameinfo.js builds is modelled.

    [semver.valid] is strict: the string has to match the FULL pattern as
    it stands, within 256 characters and with no component above
    2^53 - 1.  A version that is tested against a range goes through the
    [SemVer] constructor, which trims it first.  What the releases do with
    a version that is none differs (the older ones throw out of
    [satisfies], the newer ones pass over it): here it satisfies nothing,
    and the statements about the choice of a version assume that every
    key of [apiVersionSettings] is a version, so that they rest on
    neither. *)

Module Semver.

Inductive identifier : Type :=
| Numeric (n : N)
| Alphanumeric (s : string).

Record SemVer : Type := mkSemVer {
  major : N;
  minor : N;
  patch : N;
  prerelease : list identifier
}.

(** [[0-9A-Za-z-]] *)
Definition ident_char (c : ascii) : bool :=
  Str.is_digit c || Str.is_letter c || bool_decide (c = "-"%char).

(** NUMERICIDENTIFIER, [0|[1-9]\d*]. *)
Definition is_numeric_identifier (s : string) : bool :=
  match s with
  | EmptyString => false
  | String "0" EmptyString => true
  | String a s' =>
      negb (bool_decide (a = "0"%char)) && Str.is_digit a
      && Str.forallb Str.is_digit s'
  end.

(** The number a run of digits writes. *)
Fixpoint digits_value (acc : N) (s : string) : N :=
  match s with
  | EmptyString => acc
  | String a s' =>
      digits_value (acc * 10 + (N_of_ascii a - N_of_ascii "0"))%N s'
  end.

Definition parse_numeric (s : string) : option N :=
  if is_numeric_identifier s then Some (digits_value 0 s) else None.

(** MAX_SAFE_INTEGER and MAX_LENGTH. *)
Definition MAX_SAFE_INTEGER : N := 9007199254740991.
Definition MAX_LENGTH : nat := 256.

(** A component of MAINVERSION: the constructor throws on one above
    MAX_SAFE_INTEGER. *)
Definition parse_component (s : string) : option N :=
  match parse_numeric s with
  | Some n => if (n <=? MAX_SAFE_INTEGER)%N then Some n else None
  | None => None
  end.

(** PRERELEASEIDENTIFIER: a numeric identifier, or NONNUMERICIDENTIFIER
    [\d*[a-zA-Z-][a-zA-Z0-9-]*]. *)
Definition parse_prerelease_identifier (s : string) : option identifier :=
  match parse_numeric s with
  | Some n => Some (Numeric n)
  | None =>
      if Str.forallb ident_char s && negb (Str.forallb Str.is_digit s)
      then Some (Alphanumeric s) else None
  end.

(** BUILDIDENTIFIER, [[0-9A-Za-z-]+]. *)
Definition is_build_identifier (s : string) : bool :=
  negb (String.eqb s "") && Str.forallb ident_char s.

(** Cuts [s] at the first [c]: what is before, and what is after when
    there is a [c]. *)
Fixpoint cut (c : ascii) (s : string) : string * option string :=
  match s with
  | EmptyString => (EmptyString, None)
  | String a s' =>
      if bool_decide (a = c) then (EmptyString, Some s')
      else let '(before, after) := cut c s' in (String a before, after)
  end.

(** The strict FULL pattern,
    [^v?MAIN(?:-PRERELEASE)?(?:\+BUILD)?$], and the components it
    captures. *)
Definition match_FULL (version : string) : option SemVer :=
  let version := match version with
                 | String "v" s' => s'
                 | _ => version
                 end in
  let '(main_pre, build) := cut "+" version in
  let '(main, pre) := cut "-" main_pre in
  let build_ok := match build with
                  | None => true
                  | Some b => List.forallb is_build_identifier (Str.split "." b)
                  end in
  if negb build_ok then None else
  match parse_component <$> Str.split "." main with
  | [Some ma; Some mi; Some pa] =>
      match pre with
      | None => Some (mkSemVer ma mi pa [])
      | Some p =>
          mkSemVer ma mi pa
            <$> mapM parse_prerelease_identifier (Str.split "." p)
      end
  | _ => None
  end.

(** [semver.parse(version)] on a string: nothing for a string over
    MAX_LENGTH or one that does not match FULL as it stands. *)
Definition parse (version : string) : option SemVer :=
  if bool_decide (MAX_LENGTH < String.length version)%nat then None
  else match_FULL version.

(** [semver.valid(v)] as a test. *)
Definition valid (version : string) : bool :=
  bool_decide (is_Some (parse version)).

(** What [String.prototype.trim] takes off, among the code units below
    256: tab, line feed, vertical tab, form feed, carriage return, space
    and no-break space. *)
Definition is_blank (c : ascii) : bool :=
  let n := N_of_ascii c in
  ((9 <=? n) && (n <=? 13) || (n =? 32) || (n =? 160))%N.

Fixpoint trim_start (s : string) : string :=
  match s with
  | String c s' => if is_blank c then trim_start s' else s
  | EmptyString => EmptyString
  end.

Fixpoint trim_end (s : string) : string :=
  match s with
  | String c s' =>
      match trim_end s' with
      | EmptyString => if is_blank c then EmptyString
                       else String c EmptyString
      | rest => String c rest
      end
  | EmptyString => EmptyString
  end.

(** [version.trim()] *)
Definition trim (version : string) : string :=
  trim_end (trim_start version).

(** [new SemVer(version)] on a string: the length is checked, then the
    trimmed string is matched against FULL.  [None] when it throws. *)
Definition new_SemVer (version : string) : option SemVer :=
  if bool_decide (MAX_LENGTH < String.length version)%nat then None
  else match_FULL (trim version).

(** The number the unary plus makes of a run of digits: the nearest
    double, ties to even.  Below 2^53 it is the number itself. *)
Definition to_double (n : N) : N :=
  if (n <? 2 ^ 53)%N then n
  else
    let e := (N.log2 n - 52)%N in
    let q := N.shiftr n e in
    let r := N.land n (N.ones e) in
    let half := N.shiftl 1 (e - 1) in
    let q' := if (r <? half)%N then q
              else if (half <? r)%N then (q + 1)%N
              else if N.even q then q else (q + 1)%N in
    N.shiftl q' e.

(** [compareIdentifiers]: numbers by value (as doubles) and below every
    word, words in code unit order. *)
Definition compareIdentifiers (a b : identifier) : comparison :=
  match a, b with
  | Numeric x, Numeric y => (to_double x ?= to_double y)%N
  | Numeric _, Alphanumeric _ => Lt
  | Alphanumeric _, Numeric _ => Gt
  | Alphanumeric x, Alphanumeric y => String.compare x y
  end.

Definition compareMain (a b : SemVer) : comparison :=
  match (major a ?= major b)%N with
  | Eq => match (minor a ?= minor b)%N with
          | Eq => (patch a ?= patch b)%N
          | c => c
          end
  | c => c
  end.

#[global] Instance identifier_eq_dec : EqDecision identifier.
Proof. solve_decision. Defined.

(** The loop of [comparePre]: identifiers that are the same are passed
    over, and the first two that are not decide, also when they compare
    equal (two numbers that round to the same double). *)
Fixpoint comparePreList (a b : list identifier) : comparison :=
  match a, b with
  | [], [] => Eq
  | _ :: _, [] => Gt
  | [], _ :: _ => Lt
  | x :: a', y :: b' =>
      if decide (x = y) then comparePreList a' b'
      else compareIdentifiers x y
  end.

(** [comparePre]: a release is above its prereleases. *)
Definition comparePre (a b : SemVer) : comparison :=
  match prerelease a, prerelease b with
  | _ :: _, [] => Lt
  | [], _ :: _ => Gt
  | pa, pb => comparePreList pa pb
  end.

Definition compare (a b : SemVer) : comparison :=
  match compareMain a b with
  | Eq => comparePre a b
  | c => c
  end.

(** [>=lower <upper], the comparator set a caret range stands for. *)
Record Range : Type := mkRange {
  lower : SemVer;
  upper : SemVer
}.

(** [replaceCaret]: up to the next change of the leftmost non-zero
    component. *)
Definition caret (v : SemVer) : Range :=
  mkRange v
    (if negb (major v =? 0)%N then mkSemVer (major v + 1) 0 0 []
     else if negb (minor v =? 0)%N then mkSemVer 0 (minor v + 1) 0 []
     else mkSemVer 0 0 (patch v + 1) []).

(** The comparators of a range are versions: the constructor of the
    range throws when the upper one has a component above
    MAX_SAFE_INTEGER. *)
Definition in_bounds (r : Range) : bool :=
  ((major (upper r) <=? MAX_SAFE_INTEGER)
   && (minor (upper r) <=? MAX_SAFE_INTEGER)
   && (patch (upper r) <=? MAX_SAFE_INTEGER))%N.

(** [new Range(range)] for a range of the form ['^' + version], where
    [version] is one that [semver.valid] takes.  [None] when it
    throws. *)
Definition parseRange (range : string) : option Range :=
  match range with
  | String "^" version =>
      match parse version with
      | Some v => if in_bounds (caret v) then Some (caret v) else None
      | None => None
      end
  | _ => None
  end.

(** [testSet]: both comparators hold, and a version with a prerelease
    tag passes only when a comparator with a tag has its
    [major.minor.patch]. *)
Definition test (r : Range) (v : SemVer) : bool :=
  negb (bool_decide (compare v (lower r) = Lt))
  && bool_decide (compare v (upper r) = Lt)
  && match prerelease v with
     | [] => true
     | _ :: _ =>
         negb (bool_decide (prerelease (lower r) = []))
         && bool_decide (compareMain v (lower r) = Eq)
     end.

(** [semver.satisfies(version, range)]: false when the range is none;
    the version goes through the constructor. *)
Definition satisfies (version range : string) : bool :=
  match parseRange range, new_SemVer version with
  | Some r, Some v => test r v
  | _, _ => false
  end.

(** [a] is strictly higher than [b]: it stands before [b] for
    [rcompare], and [b] compares lower than it. *)
Definition higher (a b : string) : bool :=
  match new_SemVer a, new_SemVer b with
  | Some x, Some y => bool_decide (compare x y = Gt)
  | _, _ => false
  end.

(** [semver.maxSatisfying(versions, range)]: of the versions that
    satisfy the range, one that none of them is higher than, or [null].
    The walk keeps a version when it is higher than the one kept so far,
    so of several equally high ones the earliest is taken. *)
Definition maxSatisfying (versions : list string) (range : string)
  : option string :=
  fold_left
    (λ best v,
       match best with
       | None => Some v
       | Some b => if higher v b then Some v else Some b
       end)
    (List.filter (λ v, satisfies v range) versions) None.

End Semver.

(** ** JavaScript values *)

(** What [JSON.parse] produces, [undefined], and the members every plain
    object inherits from [Object.prototype] ([VBuiltin]).  Numbers are IEEE
    doubles. *)
Inductive value : Type :=
| VUndefined
| VNull
| VBool (b : bool)
| VNum (n : float)
| VStr (s : string)
| VArr (l : list value)
| VObj (o : gmap string value)
| VBuiltin (name : string).

(** The result of [typeof]. *)
Inductive jstype : Type :=
| TUndefined | TObject | TBoolean | TNumber | TString | TFunction.

#[global] Instance jstype_eq_dec : EqDecision jstype.
Proof. solve_decision. Defined.

Definition typeof (v : value) : jstype :=
  match v with
  | VUndefined => TUndefined
  | VNull => TObject
  | VBool _ => TBoolean
  | VNum _ => TNumber
  | VStr _ => TString
  | VArr _ => TObject
  | VObj _ => TObject
  | VBuiltin name => if bool_decide (name = "__proto__") then TObject else TFunction
  end.

(** ToBoolean: what [if (v)] and [!v] look at. *)
Definition truthy (v : value) : bool :=
  match v with
  | VUndefined | VNull => false
  | VBool b => b
  | VNum n => negb (PrimFloat.eqb n 0 || negb (PrimFloat.eqb n n))
  | VStr s => negb (bool_decide (s = ""))
  | VArr _ | VObj _ | VBuiltin _ => true
  end.

(** [v === undefined] *)
Definition is_undefined (v : value) : bool :=
  match v with VUndefined => true | _ => false end.

(** Whether the conversion of [v] to a string ends, be it for [+] with a
    string, for [RegExp.test] or for a computed property name.  An object
    is asked for its [toString]: the inherited one answers, one of its
    own is a parsed value, which cannot be called, and [valueOf] does not
    help (the inherited one returns the object, one of its own cannot be
    called either), so the engine throws a TypeError.  An array joins the
    conversions of its elements, [undefined] and [null] apart. *)
Fixpoint converts (v : value) : bool :=
  match v with
  | VArr l =>
      List.forallb (λ x, match x with
                         | VUndefined | VNull => true
                         | _ => converts x
                         end) l
  | VObj o => bool_decide (o !! "toString" = None)
  | _ => true
  end.

(** The message of that TypeError (V8). *)
Definition cannot_convert : string :=
  "Cannot convert object to primitive value".

(** The names a plain object inherits from [Object.prototype] (Node). *)
Definition Object_prototype : list string :=
  [ "constructor"; "toString"; "toLocaleString"; "valueOf";
    "hasOwnProperty"; "isPrototypeOf"; "propertyIsEnumerable"; "__proto__";
    "__defineGetter__"; "__defineSetter__"; "__lookupGetter__";
    "__lookupSetter__" ].

(** [obj[key]]: the own property when there is one, else what the
    prototype has, else [undefined]. *)
Definition get (obj : gmap string value) (key : string) : value :=
  match obj !! key with
  | Some v => v
  | None => if bool_decide (key ∈ Object_prototype) then VBuiltin key
            else VUndefined
  end.

(** [obj[key] = v] *)
Definition set (key : string) (v : value) (obj : gmap string value)
  : gmap string value :=
  <[key := v]> obj.

(** [Object.keys(obj)].  The keys come in the map's order, not in the
    order of insertion: the two lines that print them (238 and 264) and
    the choice among equally high versions follow the map's order
    here. *)
Definition Object_keys {A} (obj : gmap string A) : list string :=
  (map_to_list obj).*1.

(** ** Settings, package and the state of a call *)

(** What [config.getSettings()] returns (GameInfo~Settings, lines 50-59;
    server/config.js is not among the sources): objects of defaults and
    of settings bundles. *)
Record Settings : Type := mkSettings {
  hftDefaults : gmap string value;
  hftGameTypeDefaults : gmap string (gmap string value);
  apiVersionSettings : gmap string (gmap string value)
}.

(** [JSON.parse(contents)], taken as it comes out: a package.json object.
    Its [happyFunTimes] member is [None] when absent or falsy, else the
    manifest object.  Contents that do not parse make line 216 throw
    before anything else happens; they, a root that is no object and a
    section that is a number, a string or an array are outside this
    type. *)
Record PackageInfo : Type := mkPackageInfo {
  happyFunTimes : option (gmap string value);
  otherMembers : gmap string value
}.

(** The object [parseGameInfo] patches in place, and the console. *)
Record heap : Type := mkHeap {
  hftInfo : gmap string value;
  console : list string
}.

(** What a [throw] carries here. *)
Inductive thrown : Type :=
| ThrownString (s : string)
| TypeError (msg : string).

(** How a piece of the function body ends: it falls through with a value,
    hits [return;], or throws. *)
Inductive completion (A : Type) : Type :=
| Normal (a : A)
| ReturnUndefined
| Throw (e : thrown).
Arguments Normal {A} a.
Arguments ReturnUndefined {A}.
Arguments Throw {A} e.

Definition M (A : Type) : Type := heap → heap * completion A.

#[global] Instance M_ret : MRet M := λ A a h, (h, Normal a).
#[global] Instance M_bind : MBind M := λ A B f m h,
  match m h with
  | (h', Normal a) => f a h'
  | (h', ReturnUndefined) => (h', ReturnUndefined)
  | (h', Throw e) => (h', Throw e)
  end.

Definition read (key : string) : M value :=
  λ h, (h, Normal (get (hftInfo h) key)).
Definition write (key : string) (v : value) : M unit :=
  λ h, (mkHeap (set key v (hftInfo h)) (console h), Normal ()).
Definition modify (f : gmap string value → gmap string value) : M unit :=
  λ h, (mkHeap (f (hftInfo h)) (console h), Normal ()).
Definition the_hftInfo : M (gmap string value) :=
  λ h, (h, Normal (hftInfo h)).
Definition console_log (msg : string) : M unit :=
  λ h, (mkHeap (hftInfo h) (console h ++ [msg]), Normal ()).
Definition return_undefined {A} : M A := λ h, (h, ReturnUndefined).
Definition throw {A} (e : thrown) : M A := λ h, (h, Throw e).
Definition when (b : bool) (m : M unit) : M unit :=
  if b then m else mret ().

(** [try { body } catch (e) { handler(e) }] *)
Definition try_catch {A} (body : M A) (handler : thrown → M A) : M A :=
  λ h, match body h with
       | (h', Throw e) => handler e h'
       | r => r
       end.

(** How a call ends: [return;], [return packageInfo] (the object that was
    patched in place), or a throw. *)
Inductive outcome : Type :=
| Rejected
| Accepted
| Threw (e : thrown).

(** A call, with the state it leaves behind: the parsed package as
    patched, and what went to the console. *)
Record result : Type := mkResult {
  outcome_of : outcome;
  packageInfo_after : PackageInfo;
  console_after : list string
}.

(** What the caller gets back. *)
Definition returned (r : result) : option PackageInfo :=
  match outcome_of r with
  | Accepted => Some (packageInfo_after r)
  | _ => None
  end.

(** The manifest object of a result. *)
Definition hftInfo_after (r : result) : gmap string value :=
  default ∅ (happyFunTimes (packageInfo_after r)).

Definition nl_tab : string :=
  String (ascii_of_nat 10) (String (ascii_of_nat 9) EmptyString).

(** The key looked up when no installed version satisfies the range. *)
Definition unsupportedApiVersion : string := "0.0.0-unsupportedApiVersion".

(** Follows the spec's words: the resolved path lies within the directory,
    that is, it is the directory or stands below it. *)
Definition inside_dir (dir path : string) : bool :=
  String.eqb path dir
  || String.prefix (if Str.ends_with_char "/" dir then dir else dir +:+ "/")
       path.

(** Follows the spec's words: an identifier matching
    [[A-Za-z0-9_-]{1,60}]. *)
Definition spec_id_chars : list ascii :=
  String.list_ascii_of_string
    "ABCDEFGHIJKLMNOPQRSTUVWXYZabcdefghijklmnopqrstuvwxyz0123456789_-".


(** ** The regular expressions of [checkRequiredFiles] *)

Module RegExp.

(** The pattern syntax the file uses.  A character is a code unit below
    256, as everywhere in this development. *)
Inductive pattern : Type :=
| Empty
| Char (c : ascii)        (* a pattern character, escaped or not *)
| AnyChar                 (* the dot *)
| Digit                   (* backslash d *)
| Seq (p q : pattern)
| Alt (p q : pattern)
| Opt (p : pattern).      (* {0,1} *)

(** A literal of the file.  Each one starts with a caret and ends with a
    dollar sign, and none has the [m] flag: [source] is what stands
    between the two anchors, [ignoreCase] the [i] flag. *)
Record regexp : Type := mkRegExp {
  source : pattern;
  ignoreCase : bool
}.

(** A run of pattern characters. *)
Fixpoint text (s : string) : pattern :=
  match s with
  | EmptyString => Empty
  | String c s' => Seq (Char c) (text s')
  end.

(** Canonicalize of the [i] flag, on the characters it can make equal to
    an ASCII pattern character: a code unit from 128 on never becomes an
    ASCII one. *)
Definition upper (c : ascii) : ascii :=
  if Str.in_range "a" "z" c then ascii_of_N (N_of_ascii c - 32) else c.

Definition same_char (i : bool) (c a : ascii) : bool :=
  if i then bool_decide (upper c = upper a) else bool_decide (c = a).

(** The characters the dot leaves out: line feed and carriage return. *)
Definition line_terminator (a : ascii) : bool :=
  bool_decide (a = ascii_of_nat 10) || bool_decide (a = ascii_of_nat 13).

(** A backtracking matcher: [p] matches a prefix of [s] and [k] accepts
    what is left. *)
Fixpoint matches (i : bool) (p : pattern) (s : string) (k : string → bool)
  : bool :=
  match p with
  | Empty => k s
  | Char c =>
      match s with
      | String a s' => same_char i c a && k s'
      | EmptyString => false
      end
  | AnyChar =>
      match s with
      | String a s' => negb (line_terminator a) && k s'
      | EmptyString => false
      end
  | Digit =>
      match s with
      | String a s' => Str.is_digit a && k s'
      | EmptyString => false
      end
  | Seq p q => matches i p s (λ s', matches i q s' k)
  | Alt p q => matches i p s k || matches i q s k
  | Opt p => matches i p s k || k s
  end.

(** [re.test(s)], for a literal anchored at both ends: the pattern has to
    take all of [s]. *)
Definition test (re : regexp) (s : string) : bool :=
  matches (ignoreCase re) (source re) s (λ rest, bool_decide (rest = "")).

End RegExp.

(** ** checkRequiredFiles (gameinfo.js 141-212) *)

(** [s.toLowerCase()], on code units below 256: the ASCII capitals and
    the capitals of Latin-1, which end at 222 and leave out the
    multiplication sign. *)
Definition toLowerCase_char (c : ascii) : ascii :=
  let n := N_of_ascii c in
  if ((65 <=? n) && (n <=? 90)
      || (192 <=? n) && (n <=? 222) && negb (n =? 215))%N
  then ascii_of_N (n + 32) else c.

Fixpoint toLowerCase (s : string) : string :=
  match s with
  | EmptyString => EmptyString
  | String c s' => String (toLowerCase_char c) (toLowerCase s')
  end.

(** [name.replace(/\\/g, '/')] *)
Fixpoint forward_slashes (name : string) : string :=
  match name with
  | EmptyString => EmptyString
  | String c name' =>
      String (if bool_decide (c = "\"%char) then "/"%char else c)
        (forward_slashes name')
  end.

(** An entry of [baseChecks] or of [gameTypeChecks.html]. *)
Record file_check : Type := mkCheck {
  re : RegExp.regexp;
  msg : string
}.

(** [(jpg|png|gif|svg)] *)
Definition image_extension : RegExp.pattern :=
  RegExp.Alt (RegExp.text "jpg")
    (RegExp.Alt (RegExp.text "png")
       (RegExp.Alt (RegExp.text "gif") (RegExp.text "svg"))).

(** A name with one unescaped dot: [stem], any character, [extension]. *)
Definition dotted (stem extension : string) : RegExp.regexp :=
  RegExp.mkRegExp
    (RegExp.Seq (RegExp.text stem)
       (RegExp.Seq RegExp.AnyChar (RegExp.text extension)))
    false.

(** Lines 142-158. *)
Definition baseChecks : list file_check :=
  [ mkCheck
      (RegExp.mkRegExp
         (RegExp.Seq (RegExp.text "icon")
            (RegExp.Seq (RegExp.Char ".") image_extension))
         true)
      "no icon found. Must have 64x64 or 128x128 pixel icon.png/jpg/gif in root folder";
    mkCheck
      (RegExp.mkRegExp
         (RegExp.Seq (RegExp.text "screenshot")
            (RegExp.Seq
               (RegExp.Opt
                  (RegExp.Seq (RegExp.Char "-")
                     (RegExp.Seq RegExp.Digit RegExp.Digit)))
               (RegExp.Seq (RegExp.Char ".") image_extension)))
         true)
      "no screenshots found. Must have 640x480 pixel screenshot.png/jpg/gif or screenshot-00 to screenshot-05 in root folder";
    mkCheck (dotted "controller" "html") "no controller.html";
    mkCheck (dotted "css/controller" "css") "no css/controller.css";
    mkCheck (dotted "scripts/controller" "js") "no scripts/controller.js" ].

(** Lines 161-174: the checks of the game type [html], the first of them
    twice. *)
Definition html_checks : list file_check :=
  [ mkCheck (dotted "game" "html") "no game.html";
    mkCheck (dotted "game" "html") "no game.html";
    mkCheck (dotted "css/game" "css") "no css/game.css";
    mkCheck (dotted "scripts/game" "js") "no scripts/game.js" ].

(** What [gameTypeChecks[key]] gives: the array under [html], a member
    that every object inherits from [Object.prototype], or
    [undefined]. *)
Inductive looked_up : Type :=
| Checks (l : list file_check)
| Member (name : string)
| NoChecks.

Definition gameTypeChecks (key : string) : looked_up :=
  if bool_decide (key = "html") then Checks html_checks
  else if bool_decide (key ∈ Object_prototype) then Member key
  else NoChecks.

(** An element of [checks].  [concat] appends the elements of an array
    and, as one element, anything that is no array: an inherited member,
    which has neither [re] nor [msg]. *)
Inductive entry : Type :=
| Entry (check : file_check)
| NotACheck (name : string).

(** [check.msg] *)
Definition entry_msg (e : entry) : option string :=
  match e with
  | Entry check => Some (msg check)
  | NotACheck _ => None
  end.

Definition newline : string := String (ascii_of_nat 10) EmptyString.

(** [errors.join(sep)]: an element that is [undefined] counts as the
    empty string. *)
Definition join_errors (sep : string) (errors : list (option string))
  : string :=
  Str.join sep (default "" <$> errors).

(** [found], as the set of the indices it holds [true] at, and
    [foundCount]. *)
Record scan_state : Type := mkScan {
  found : gset nat;
  foundCount : nat
}.

(** How a call ends: it returns, it throws the joined messages, or the
    engine throws a TypeError (whose text is the engine's). *)
Inductive files_outcome : Type :=
| FilesFound
| FilesMissing (errors : string)
| FilesTypeError.

(** Lines 190-197: the callback of [checks.forEach] on the checks from
    index [ndx] on.  [None] is the TypeError of [check.re.test] on an
    entry without [re]. *)
Fixpoint forEach_test (fileName : string) (checks : list entry) (ndx : nat)
    (st : scan_state) : option scan_state :=
  match checks with
  | [] => Some st
  | check :: checks' =>
      if bool_decide (ndx ∈ found st) then
        forEach_test fileName checks' (S ndx) st
      else
        match check with
        | NotACheck _ => None
        | Entry check =>
            forEach_test fileName checks' (S ndx)
              (if RegExp.test (re check) fileName
               then mkScan ({[ndx]} ∪ found st) (S (foundCount st))
               else st)
        end
  end.

(** Lines 188-198: the loop over the file names, which stops as soon as
    [foundCount] reaches the number of checks. *)
Fixpoint scan (checks : list entry) (fileNames : list string)
    (st : scan_state) : option scan_state :=
  match fileNames with
  | [] => Some st
  | name :: fileNames' =>
      if bool_decide (foundCount st < length checks)%nat then
        match forEach_test (forward_slashes name) checks 0 st with
        | Some st' => scan checks fileNames' st'
        | None => None
        end
      else Some st
  end.

(** Lines 200-205: the messages of the checks that were not found, from
    index [ndx] on. *)
Fixpoint unfound (checks : list entry) (ndx : nat) (found : gset nat)
  : list (option string) :=
  match checks with
  | [] => []
  | check :: checks' =>
      if bool_decide (ndx ∈ found) then unfound checks' (S ndx) found
      else entry_msg check :: unfound checks' (S ndx) found
  end.

(** Lines 188-209, on the list of checks and the file names. *)
Definition check_files (checks : list entry) (fileNames : list string)
  : files_outcome :=
  match scan checks fileNames (mkScan ∅ 0) with
  | None => FilesTypeError
  | Some st =>
      match unfound checks 0 (found st) with
      | [] => FilesFound
      | errors => FilesMissing (join_errors newline errors)
      end
  end.

(** Lines 181-186: [baseChecks], and the checks of the game type in lower
    case when the lookup gives something truthy. *)
Definition checks_of (gameType : string) : list entry :=
  match gameTypeChecks (toLowerCase gameType) with
  | Checks gameChecks => (Entry <$> baseChecks) ++ (Entry <$> gameChecks)
  | Member name => (Entry <$> baseChecks) ++ [NotACheck name]
  | NoChecks => Entry <$> baseChecks
  end.

(** *** Names for the statements about [checkRequiredFiles] *)

(** Some of [fileNames], with its backslashes turned, passes the check. *)
Definition hit (fileNames : list string) (check : file_check) : bool :=
  existsb (λ name, RegExp.test (re check) (forward_slashes name)) fileNames.

Section RequiredFiles.

(** [readdirtree.sync] of server/readdirtree.js, which is not among the
    sources: whatever names it lists under a directory. *)
Variable readdirtree_sync : string → list string.

(** [checkRequiredFiles(info, basePath)].  A package without the section,
    or whose [gameType] is no string, has nothing to call [toLowerCase]
    on: no value [JSON.parse] produces but a string has that method. *)
Definition checkRequiredFiles (info : PackageInfo) (basePath : string)
  : files_outcome :=
  match happyFunTimes info with
  | None => FilesTypeError
  | Some hftInfo =>
      match get hftInfo "gameType" with
      | VStr gameType =>
          check_files (checks_of gameType) (readdirtree_sync basePath)
      | _ => FilesTypeError
      end
  end.

(** Some name listed under [basePath] passes the check. *)
Definition matched (basePath : string) (check : file_check) : bool :=
  hit (readdirtree_sync basePath) check.

End RequiredFiles.

(** The checks that apply to a game type none of whose spellings is an
    inherited member's name. *)
Definition required_of (gameType : string) : list file_check :=
  if bool_decide (toLowerCase gameType = "html")
  then (baseChecks ++ html_checks)%list else baseChecks.

(** Equal but for the case of ASCII letters. *)
Definition equal_ignoring_case (s t : string) : Prop :=
  RegExp.upper <$> String.list_ascii_of_string s
  = RegExp.upper <$> String.list_ascii_of_string t.


(** ** Sample settings and manifests, for the examples *)

Module Sample.

(** A stand-in for the host's Number::toString.  No example below ever
    converts a number. *)
Definition Number_toString (n : float) : string := "0".

Definition bundle (apiVersion : string) : gmap string value :=
  {[ "apiVersion" := VStr apiVersion ]}.

(** Global defaults [{gameType: "html"}], defaults [{minPlayers: 2}] for
    ["html"], and the API versions 1.0.0, 1.2.0 and 2.0.0. *)
Definition settings : Settings :=
  mkSettings
    {[ "gameType" := VStr "html" ]}
    {[ "html" := {[ "minPlayers" := VNum 2 ]} ]}
    {[ "1.0.0" := bundle "1.0.0"; "1.2.0" := bundle "1.2.0";
       "2.0.0" := bundle "2.0.0" ]}.

(** The same, with a bundle under the fallback key as well. *)
Definition settings_with_fallback : Settings :=
  mkSettings (hftDefaults settings) (hftGameTypeDefaults settings)
    (<[ unsupportedApiVersion := bundle "unsupported" ]>
       (apiVersionSettings settings)).

(** The same as [settings], with a game type whose name is empty. *)
Definition settings_with_empty_gameType : Settings :=
  mkSettings (hftDefaults settings)
    (<[ "" := ∅ ]> (hftGameTypeDefaults settings))
    (apiVersionSettings settings).

Definition filePath : string := "/games/foo/package.json".

(** A manifest that leaves [gameType] and [minPlayers] to the defaults. *)
Definition manifest (apiVersion : string) : gmap string value :=
  {[ "gameId" := VStr "foo"; "apiVersion" := VStr apiVersion;
     "category" := VStr "game" ]}.

Definition package (hftInfo : gmap string value) : PackageInfo :=
  mkPackageInfo (Some hftInfo) {[ "name" := VStr "foo" ]}.

(** An object with a [toString] member of its own, as the text
    [{"toString": 1}] parses. *)
Definition unconvertible : value := VObj {[ "toString" := VNum 1 ]}.

End Sample.

(** ** More samples: a full manifest, game folders and a disk *)

Module MoreSample.

(** A manifest with both URLs and an executable below its directory. *)
Definition full_manifest : gmap string value :=
  <[ "gameUrl" := VStr "game.html" ]>
    (<[ "screenshotUrl" := VStr "screenshot.png" ]>
       (<[ "gameExecutable" := VStr "bin/game.exe" ]>
          (Sample.manifest "1.0.0"))).

(** A game folder that lacks [scripts/game.js]: names in capitals, a
    screenshot numbered 07 and a Windows separator among them. *)
Definition listing (basePath : string) : list string :=
  [ "icon.PNG"; "screenshot-07.jpg"; "controller.html";
    "css\controller.css"; "scripts/controller.js"; "game.html";
    "css/game.css" ].

Definition html_manifest : gmap string value :=
  <[ "gameType" := VStr "HTML" ]> (Sample.manifest "1.0.0").

Definition listing_unix (basePath : string) : list string :=
  [ "css/game.css"; "game.html" ].
Definition listing_windows (basePath : string) : list string :=
  [ "game.html"; "css\game.css"; "game.html" ].

Definition listing_icon_only (basePath : string) : list string :=
  [ "icon.png" ].

(** The check at an index of [baseChecks]. *)
Definition base_check (n : nat) : file_check :=
  default (mkCheck (dotted "" "") "") (baseChecks !! n).

(** A disk with the game [foo], whose manifest is the full one, and the
    game [bad], whose manifest does not parse. *)
Definition statSync (path : string) : option bool :=
  if bool_decide (path ∈ ["/games/foo"; "/games/bad"]) then Some true
  else if bool_decide (path ∈ ["/games/foo/package.json";
                               "/games/bad/package.json"])
       then Some false
       else None.

Definition readFileSync (path : string) : option string :=
  if bool_decide (path = "/games/foo/package.json")
  then Some "the manifest of foo"
  else if bool_decide (path = "/games/bad/package.json")
       then Some "no manifest"
       else None.

Definition JSON_parse (contents : string) : option PackageInfo :=
  if bool_decide (contents = "the manifest of foo")
  then Some (Sample.package full_manifest)
  else None.

End MoreSample.

(** ** Tactics *)

(** Runs the monad's operations. *)
Ltac run_monad :=
  cbv [mbind M_bind mret M_ret read write modify the_hftInfo console_log
       return_undefined throw when try_catch hftInfo console].

(** Closes [key ∉ [k1; ...; kn]] for key names that are written out. *)
Ltac not_listed :=
  let H := fresh in
  intros H; apply (bool_decide_pack _) in H; by vm_compute in H.

Section Runtime.

(** Number::toString of the host, left abstract. *)
Variable Number_toString : float → string.

(** The string a conversion gives when it ends ([converts]). *)
Fixpoint to_string (v : value) : string :=
  match v with
  | VUndefined => "undefined"
  | VNull => "null"
  | VBool true => "true"
  | VBool false => "false"
  | VNum n => Number_toString n
  | VStr s => s
  | VArr l =>
      Str.join ","
        (List.map (λ x, match x with
                        | VUndefined | VNull => ""
                        | _ => to_string x
                        end) l)
  | VObj _ => "[object Object]"
  | VBuiltin name =>
      if bool_decide (name = "__proto__") then "[object Object]"
      else "function " +:+ name +:+ "() { [native code] }"
  end.

(** ToString, as applied by [+] with a string operand and by a computed
    property access: the string, or the TypeError. *)
Definition ToString (v : value) : M string :=
  if converts v then mret (to_string v)
  else throw (TypeError cannot_convert).

(** *** Validators (gameinfo.js 70-139) *)

(** What a validator does: return, or throw.  [Throws msg] is a throw of
    something whose string form is [msg], which is all [validateObject]
    looks at: a message, or a TypeError of the engine, whose string form
    is ["TypeError: "] and its message. *)
Inductive check : Type :=
| Passes
| Throws (msg : string).

(** [/^[a-zA-Z0-9-_]+$/] *)
Definition idRE_char (c : ascii) : bool :=
  Str.is_letter c || Str.is_digit c
  || bool_decide (c = "-"%char) || bool_decide (c = "_"%char).

Definition idRE_test (s : string) : bool :=
  negb (String.eqb s "") && Str.forallb idRE_char s.

(** [id.length > 60].  Only a string or an array can get here with a
    [length]: the string form of an object has brackets and fails
    [idRE], and for the other values [length] is [undefined], which is
    not greater than 60. *)
Definition length_exceeds_60 (id : value) : bool :=
  match id with
  | VStr s => bool_decide (60 < String.length s)
  | VArr l => bool_decide (60 < List.length l)
  | _ => false
  end.

Definition validGameId (id : value) : check :=
  if negb (truthy id) then
    Throws "gameId not defined"
  else if negb (converts id) then
    Throws ("TypeError: " +:+ cannot_convert)
  else if negb (idRE_test (to_string id)) then
    Throws "invalid characters in gameId only A-Z a-z 0-9 _ - allowed"
  else if length_exceeds_60 id then
    Throws "gameId must be less than 60 characters"
  else Passes.

(** [semver.valid] is given whatever the manifest holds; only a string
    can be a version. *)
Definition validSemver (v : value) : check :=
  match v with
  | VStr s => if Semver.valid s then Passes else Throws "not a valid semver"
  | _ => Throws "not a valid semver"
  end.

Definition validString (v : value) : check :=
  if bool_decide (typeof v ≠ TString) then Throws "not a string" else Passes.

Definition validNumber (v : value) : check :=
  if bool_decide (typeof v ≠ TNumber) then Throws "not a number" else Passes.

Definition validGameType (v : value) : check := validString v.

Definition requiredFields : list (string * (value → check)) :=
  [ ("gameId", validGameId);
    ("apiVersion", validSemver);
    ("gameType", validString);
    ("category", validString);
    ("minPlayers", validNumber) ].

(** [validateObject(obj, validators)]: the first validator that throws
    ends the walk, its message prefixed with the field's name. *)
Fixpoint validateObject (obj : gmap string value)
    (validators : list (string * (value → check))) : check :=
  match validators with
  | [] => Passes
  | (fieldName, type) :: validators' =>
      match type (get obj fieldName) with
      | Throws e => Throws (fieldName +:+ ": " +:+ e)
      | Passes => validateObject obj validators'
      end
  end.

(** *** Defaults (gameinfo.js 42-47) *)

(** Modelled from the spec: [misc.copyProperties(src, dst, 1)] of
    server/misc.js, which is not among the sources.  In the spec's words
    it copies each key of the defaults object into the manifest only if
    the manifest does not already define that key, a shallow merge that
    never overrides.  The result is the state of [dst] after the call. *)
Definition copyProperties (src dst : gmap string value)
  : gmap string value :=
  map_fold
    (λ key v dst, match dst !! key with
                  | Some _ => dst
                  | None => <[key := v]> dst
                  end)
    dst src.

(** The enumerable own properties [copyProperties] walks.  A function or
    the prototype object has none.  Settings hold objects only, so no
    array or string, whose indices would count, is ever passed. *)
Definition own_enumerable (v : value) : gmap string value :=
  match v with
  | VObj o => o
  | _ => ∅
  end.

(** [applyDefaultProperties(obj, defaults)], as the state of [obj] after
    the call. *)
Definition applyDefaultProperties (obj : gmap string value)
    (defaults : value) : gmap string value :=
  if negb (truthy defaults) then obj
  else copyProperties (own_enumerable defaults) obj.

(** *** parseGameInfo (gameinfo.js 214-310) *)

Section ParseGameInfo.

Variable settings : Settings.
Variable filePath : string.

(** [settings.hftGameTypeDefaults[key]] *)
Definition hftGameTypeDefaults_at (key : string) : value :=
  get (VObj <$> hftGameTypeDefaults settings) key.

(** Lines 225-226.  The game type is converted to a property name. *)
Definition apply_defaults : M unit :=
  modify (λ o, applyDefaultProperties o (VObj (hftDefaults settings)));;
  gameType ← read "gameType";
  key ← ToString gameType;
  modify (λ o, applyDefaultProperties o (hftGameTypeDefaults_at key)).

(** Lines 228-234. *)
Definition validate : M unit :=
  o ← the_hftInfo;
  match validateObject o requiredFields with
  | Throws e =>
      console_log ("error: " +:+ filePath +:+ " happyFunTimes.");;
      console_log e;;
      return_undefined
  | Passes => mret ()
  end.

(** Lines 236-240. *)
Definition check_gameType : M unit :=
  gameType ← read "gameType";
  key ← ToString gameType;
  when (is_undefined (hftGameTypeDefaults_at key))
    (gameType ← read "gameType";
     text ← ToString gameType;
     console_log ("warning: " +:+ filePath +:+ " unknown gameType "
                  +:+ text);;
     console_log ("valid gameTypes: " +:+ nl_tab
                  +:+ Str.join nl_tab
                        (Object_keys (hftGameTypeDefaults settings)));;
     return_undefined).

(** Lines 252-266. *)
Definition resolve_version : M unit :=
  let availableVersions := Object_keys (apiVersionSettings settings) in
  apiVersion ← read "apiVersion";
  text ← ToString apiVersion;
  let need := "^" +:+ text in
  bestVersion ←
    match Semver.maxSatisfying availableVersions need with
    | Some v => mret v
    | None =>
        console_log ("error: " +:+ filePath +:+
          " requires unsupported api version: you probably need to upgrade happyFunTimes");;
        write "needNewHFT" (VBool true);;
        mret unsupportedApiVersion
    end;
  write "versionSettings"
    (get (VObj <$> apiVersionSettings settings) bestVersion);;
  versionSettings ← read "versionSettings";
  when (is_undefined versionSettings)
    (apiVersion ← read "apiVersion";
     text ← ToString apiVersion;
     console_log ("error: " +:+ filePath +:+ " unknown apiVersion "
                  +:+ text);;
     console_log ("valid apiVersions: " +:+ nl_tab
                  +:+ Str.join nl_tab
                        (Object_keys (apiVersionSettings settings)));;
     return_undefined).

(** Lines 268-271. *)
Definition check_gameType_truthy : M unit :=
  gameType ← read "gameType";
  when (negb (truthy gameType)) return_undefined.

(** Lines 286-290, one round of the [forEach].  The sum converts
    [gameId], then the URL. *)
Definition fix_url (name : string) : M unit :=
  url ← read name;
  when (truthy url)
    (gameId ← read "gameId";
     id ← ToString gameId;
     url ← read name;
     text ← ToString url;
     write name (VStr ("/games/" +:+ id +:+ "/" +:+ text))).

(** [path.join(gameBasePath, gameExecutable)]: a TypeError unless the
    second argument is a string too. *)
Definition path_join (gameBasePath : string) (gameExecutable : value)
  : M string :=
  match gameExecutable with
  | VStr s => mret (Path.join [gameBasePath; s])
  | _ => throw (TypeError "Arguments to path.join must be strings")
  end.

(** Lines 292-301. *)
Definition check_gameExecutable (gameBasePath : string) : M unit :=
  gameExecutable ← read "gameExecutable";
  when (truthy gameExecutable)
    (gameExecutable ← read "gameExecutable";
     localPath ← path_join gameBasePath gameExecutable;
     write "gameExecutable" (VStr localPath);;
     let fullPath := Path.normalize localPath in
     when (negb (String.eqb gameBasePath
                   (Str.substring0 (String.length gameBasePath) fullPath)))
       (throw (ThrownString
                 ("bad path for game executable: " +:+ fullPath)))).

(** Lines 268-303, what follows the choice of the version. *)
Definition finish (gameBasePath : string) : M unit :=
  check_gameType_truthy;;
  fix_url "gameUrl";;
  fix_url "screenshotUrl";;
  check_gameExecutable gameBasePath;;
  write "basePath" (VStr gameBasePath).

(** Lines 223-303, what runs once [hftInfo] is there. *)
Definition parse_body : M unit :=
  let gameBasePath := Path.dirname filePath in
  apply_defaults;;
  validate;;
  check_gameType;;
  resolve_version;;
  finish gameBasePath.

(** Lines 305-308. *)
Definition rethrow (e : thrown) : M unit :=
  console_log ("ERROR: Parsing " +:+ filePath);;
  throw e.

(** Line 309 and the ways out before it: what the caller sees of a run of
    the [try] block on the package's manifest. *)
Definition conclude (packageInfo : PackageInfo)
    (run : heap * completion unit) : result :=
  mkResult
    match run.2 with
    | Normal _ => Accepted
    | ReturnUndefined => Rejected
    | Throw e => Threw e
    end
    (mkPackageInfo (Some (hftInfo run.1)) (otherMembers packageInfo))
    (console run.1).

Definition parseGameInfo (packageInfo : PackageInfo) : result :=
  match happyFunTimes packageInfo with
  | None =>
      mkResult Rejected packageInfo
        ["error: " +:+ filePath +:+ " is missing happyFunTimes section"]
  | Some hftInfo0 =>
      conclude packageInfo
        (try_catch parse_body rethrow (mkHeap hftInfo0 []))
  end.

(** *** Names for what the statements below talk about *)

(** [settings.hftGameTypeDefaults[gameType]], for a game type whose
    conversion ends. *)
Definition gameTypeDefaults (gameType : value) : value :=
  hftGameTypeDefaults_at (to_string gameType).

(** Line 226 can use the game type, as the global defaults leave it, as
    a property name. *)
Definition key_converts (hftInfo0 : gmap string value) : bool :=
  converts
    (get (applyDefaultProperties hftInfo0 (VObj (hftDefaults settings)))
       "gameType").

(** The manifest once lines 225-226 have run: to the end, or up to the
    TypeError of line 226. *)
Definition defaulted (hftInfo0 : gmap string value) : gmap string value :=
  let o := applyDefaultProperties hftInfo0 (VObj (hftDefaults settings)) in
  if converts (get o "gameType")
  then applyDefaultProperties o (gameTypeDefaults (get o "gameType"))
  else o.

(** A round of lines 286-290 runs to its end on the property [name]. *)
Definition url_converts (name : string) (o : gmap string value) : bool :=
  negb (truthy (get o name))
  || converts (get o "gameId") && converts (get o name).

(** Both rounds of lines 286-290 run to their end. *)
Definition urls_convert (o : gmap string value) : bool :=
  url_converts "gameUrl" o && url_converts "screenshotUrl" o.

(** Every key of [apiVersionSettings] is a version, blanks around it
    apart: the [SemVer] constructor takes it.  The statements about the
    choice of a version assume it, which leaves out the keys that one
    release of the package throws on and another passes over. *)
Definition keys_are_versions : Prop :=
  ∀ key, is_Some (apiVersionSettings settings !! key)
         → is_Some (Semver.new_SemVer key).

(** No two keys of [apiVersionSettings] are the same version: of two
    keys one is higher. *)
Definition keys_differ : Prop :=
  ∀ v w, is_Some (apiVersionSettings settings !! v)
         → is_Some (apiVersionSettings settings !! w)
         → v ≠ w
         → Semver.higher v w = true ∨ Semver.higher w v = true.

(** The manifest once one round of lines 286-290 has run to its end. *)
Definition fixed_url (name : string) (o : gmap string value)
  : gmap string value :=
  if truthy (get o name)
  then set name (VStr ("/games/" +:+ to_string (get o "gameId") +:+ "/"
                       +:+ to_string (get o name))) o
  else o.

(** The properties [parseGameInfo] assigns after the defaults. *)
Definition assigned : list string :=
  [ "needNewHFT"; "versionSettings"; "gameUrl"; "screenshotUrl";
    "gameExecutable"; "basePath" ].

(** ['^' + hftInfo.apiVersion] *)
Definition need (o : gmap string value) : string :=
  "^" +:+ to_string (get o "apiVersion").

(** A key of [apiVersionSettings] that satisfies the range. *)
Definition satisfying (o : gmap string value) (version : string) : Prop :=
  is_Some (apiVersionSettings settings !! version)
  ∧ Semver.satisfies version (need o) = true.

(** [bestVersion] as line 261 uses it: the highest satisfying key, else
    the fallback key. *)
Definition bestVersion (o : gmap string value) : string :=
  default unsupportedApiVersion
    (Semver.maxSatisfying (Object_keys (apiVersionSettings settings))
       (need o)).

(** The manifest as lines 255-259 leave it: flagged when no key
    satisfies the range. *)
Definition flagged (o : gmap string value) : gmap string value :=
  match Semver.maxSatisfying (Object_keys (apiVersionSettings settings))
          (need o) with
  | Some _ => o
  | None => set "needNewHFT" (VBool true) o
  end.

(** What line 256 prints, when it prints. *)
Definition upgrade_warning (o : gmap string value) : list string :=
  match Semver.maxSatisfying (Object_keys (apiVersionSettings settings))
          (need o) with
  | Some _ => []
  | None =>
      ["error: " +:+ filePath +:+
         " requires unsupported api version: you probably need to upgrade happyFunTimes"]
  end.

(** The test of lines 292-300 on a manifest: no executable, or a string
    whose normalized join has the directory as a prefix. *)
Definition executable_passes (gameBasePath : string)
    (o : gmap string value) : bool :=
  if truthy (get o "gameExecutable") then
    match get o "gameExecutable" with
    | VStr s =>
        String.prefix gameBasePath
          (Path.normalize (Path.join [gameBasePath; s]))
    | _ => false
    end
  else true.

(** What the executable step throws on a manifest that fails the test. *)
Definition executable_fault (gameBasePath : string)
    (o : gmap string value) : thrown :=
  match get o "gameExecutable" with
  | VStr s =>
      ThrownString
        ("bad path for game executable: "
         +:+ Path.normalize (Path.join [gameBasePath; s]))
  | _ => TypeError "Arguments to path.join must be strings"
  end.

End ParseGameInfo.

(** *** readGameInfo (gameinfo.js 86-98) *)

(** What a call of [readGameInfo] can throw: the error of [fs.statSync]
    or of [fs.readFileSync] on a path, the SyntaxError of [JSON.parse]
    (line 216), or what [parseGameInfo] threw past that line. *)
Inductive read_fault : Type :=
| StatError (path : string)
| ReadError (path : string)
| SyntaxError
| Parsing (e : thrown).

(** How a call ends: it returns [undefined], it returns the package, or
    it throws. *)
Inductive read_outcome : Type :=
| NothingRead
| GameRead (packageInfo : PackageInfo)
| ReadThrew (e : read_fault).

Record read_result : Type := mkRead {
  read_outcome_of : read_outcome;
  read_console : list string
}.

Section ReadGameInfo.

Variable settings : Settings.

(** The file system: [fs.statSync(path).isDirectory()] and
    [fs.readFileSync(path)], [None] when the call throws. *)
Variable statSync : string → option bool.
Variable readFileSync : string → option string.

(** [JSON.parse], [None] when it throws; what it returns is taken as a
    package (see [PackageInfo]). *)
Variable JSON_parse : string → option PackageInfo.

(** [parseGameInfo(contents, filePath)] from its first line on: line 216
    inside the [try] of lines 215-308, then the rest. *)
Definition parseGameInfo_contents (contents filePath : string)
  : read_result :=
  match JSON_parse contents with
  | None => mkRead (ReadThrew SyntaxError) ["ERROR: Parsing " +:+ filePath]
  | Some packageInfo =>
      let r := parseGameInfo settings filePath packageInfo in
      mkRead
        match outcome_of r with
        | Rejected => NothingRead
        | Accepted => GameRead (packageInfo_after r)
        | Threw e => ReadThrew (Parsing e)
        end
        (console_after r)
  end.

(** Lines 94-97: the [catch], after what was printed so far. *)
Definition reading_failed (filePath : string) (e : read_fault)
    (printed : list string) : read_result :=
  mkRead (ReadThrew e) (printed ++ ["ERROR: Reading " +:+ filePath]).

(** [filePath] is assigned inside the [try]: the [catch] prints the path
    as it stands when the fault comes. *)
Definition readGameInfo (filePath : string) : read_result :=
  match statSync filePath with
  | None => reading_failed filePath (StatError filePath) []
  | Some isDirectory =>
      let filePath :=
        if isDirectory then Path.join [filePath; "package.json"]
        else filePath in
      match readFileSync filePath with
      | None => reading_failed filePath (ReadError filePath) []
      | Some contents =>
          let r := parseGameInfo_contents contents filePath in
          match read_outcome_of r with
          | ReadThrew e => reading_failed filePath e (read_console r)
          | _ => r
          end
      end
  end.

(** The path that is read: the manifest inside a directory, else the
    path itself. *)
Definition path_read (filePath : string) : string :=
  match statSync filePath with
  | Some true => Path.join [filePath; "package.json"]
  | _ => filePath
  end.

End ReadGameInfo.


(** ** Properties *)

(** *** Objects *)

Lemma get_own (obj : gmap string value) key v :
  obj !! key = Some v → get obj key = v.
Proof. unfold get. by intros ->. Qed.

Lemma get_plain (obj : gmap string value) key :
  key ∉ Object_prototype → get obj key = default VUndefined (obj !! key).
Proof.
  intros Hk. unfold get. destruct (obj !! key); [done|].
  by rewrite bool_decide_eq_false_2.
Qed.

Lemma get_set_eq (obj : gmap string value) key v :
  get (set key v obj) key = v.
Proof. apply get_own, lookup_insert_eq. Qed.

Lemma get_set_ne (obj : gmap string value) key key' v :
  key ≠ key' → get (set key v obj) key' = get obj key'.
Proof. intros Hne. unfold get, set. by rewrite lookup_insert_ne. Qed.

(** *** The default cascade *)

Lemma copyProperties_union (src dst : gmap string value) :
  copyProperties src dst = dst ∪ src.
Proof.
  unfold copyProperties.
  induction src as [|key v src Hfresh Hfold IH] using map_first_key_ind.
  - by rewrite map_fold_empty, (right_id_L ∅ (∪)).
  - rewrite map_fold_insert_first_key by done. rewrite IH.
    apply map_eq. intros k.
    destruct ((dst ∪ src) !! key) as [w|] eqn:Hw.
    + apply lookup_union_Some_raw in Hw as [Hw|[_ Hw]]; [|congruence].
      rewrite !lookup_union. destruct (decide (k = key)) as [->|Hne].
      * by rewrite Hw, lookup_insert_eq, Hfresh.
      * by rewrite lookup_insert_ne.
    + apply lookup_union_None in Hw as [Hw _].
      by rewrite insert_union_r.
Qed.

Lemma applyDefaultProperties_object (obj defaults : gmap string value) :
  applyDefaultProperties obj (VObj defaults) = obj ∪ defaults.
Proof. apply copyProperties_union. Qed.

Lemma applyDefaultProperties_none (obj : gmap string value) (defaults : value) :
  own_enumerable defaults = ∅ → applyDefaultProperties obj defaults = obj.
Proof.
  intros He. unfold applyDefaultProperties. destruct (truthy defaults); [|done].
  cbn. by rewrite He, copyProperties_union, (right_id_L ∅ (∪)).
Qed.

(** C3.  The default cascade never overrides: after
    [applyDefaultProperties(obj, defaults)] every key reads as the
    manifest had it when the manifest had it, and as the defaults have
    it otherwise; without defaults nothing changes; and [{a:1}] with
    defaults [{a:2, b:3}] becomes [{a:1, b:3}]. *)
Theorem applyDefaultProperties_non_overriding :
  (∀ (obj defaults : gmap string value) (key : string),
     applyDefaultProperties obj (VObj defaults) !! key
     = match obj !! key with
       | Some v => Some v
       | None => defaults !! key
       end)
  ∧ (∀ obj : gmap string value, applyDefaultProperties obj VUndefined = obj)
  ∧ applyDefaultProperties {[ "a" := VNum 1 ]}
      (VObj {[ "a" := VNum 2; "b" := VNum 3 ]})
    = {[ "a" := VNum 1; "b" := VNum 3 ]}.
Proof.
  split; [|split].
  - intros obj defaults key.
    rewrite applyDefaultProperties_object, lookup_union.
    by destruct (obj !! key), (defaults !! key).
  - done.
  - by vm_compute.
Qed.

(** *** Game identifiers *)

Lemma idRE_char_spec (c : ascii) :
  idRE_char c = bool_decide (c ∈ spec_id_chars).
Proof. by destruct c as [[] [] [] [] [] [] [] []]; vm_compute. Qed.

Lemma Str_forallb_spec (p : ascii → bool) (s : string) :
  Str.forallb p s = true
  ↔ ∀ c, c ∈ String.list_ascii_of_string s → p c = true.
Proof.
  induction s as [|a s IH]; cbn.
  - split; [|done]. intros _ c Hc. by apply elem_of_nil in Hc.
  - rewrite andb_true_iff, IH. split.
    + intros [Ha Hs] c [->|Hc]%elem_of_cons; auto.
    + intros H. split; [apply H; left|intros c Hc; apply H; by right].
Qed.

Lemma idRE_test_spec (s : string) :
  idRE_test s = true
  ↔ s ≠ "" ∧ ∀ c, c ∈ String.list_ascii_of_string s → c ∈ spec_id_chars.
Proof.
  unfold idRE_test.
  rewrite andb_true_iff, negb_true_iff, String.eqb_neq, Str_forallb_spec.
  apply and_iff_compat_l. split; intros H c Hc.
  - specialize (H c Hc). rewrite idRE_char_spec in H.
    by apply bool_decide_eq_true in H.
  - rewrite idRE_char_spec. apply bool_decide_eq_true. auto.
Qed.

(** The string form of an object or of an inherited member never passes
    [idRE], so [validGameId] asks only strings, arrays, numbers and
    booleans for their [length]. *)
Lemma idRE_rejects_objects (o : gmap string value) (name : string) :
  idRE_test (to_string (VObj o)) = false
  ∧ idRE_test (to_string (VBuiltin name)) = false.
Proof.
  split; [by vm_compute|].
  cbn [to_string]. by destruct (bool_decide (name = "__proto__")); vm_compute.
Qed.


(** *** The stages of [parseGameInfo], run on a heap *)

Arguments validateObject : simpl never.
Arguments applyDefaultProperties : simpl never.
Arguments gameTypeDefaults : simpl never.
Arguments defaulted : simpl never.
Arguments to_string : simpl never.
Arguments get : simpl never.
Arguments set : simpl never.
Arguments String.append : simpl never.
Arguments Str.join : simpl never.
Arguments Str.substring0 : simpl never.
Arguments String.eqb : simpl never.
Arguments String.length : simpl never.
Arguments Path.dirname : simpl never.
Arguments Path.join : simpl never.
Arguments Path.normalize : simpl never.
Arguments Semver.maxSatisfying : simpl never.
Arguments Object_keys : simpl never.

(** *** What validation tells about a manifest *)

Lemma validateObject_passes (o : gmap string value)
    (validators : list (string * (value → check))) :
  validateObject o validators = Passes
  ↔ ∀ field type, (field, type) ∈ validators → type (get o field) = Passes.
Proof.
  induction validators as [|[f t] vs IH].
  - split; [|done]. intros _ field type Hin. by apply elem_of_nil in Hin.
  - change (validateObject o ((f, t) :: vs))
      with (match t (get o f) with
            | Throws e => Throws (f +:+ ": " +:+ e)
            | Passes => validateObject o vs
            end).
    split.
    + intros Hp field type [[= -> ->]|Hin]%elem_of_cons.
      * by destruct (t (get o f)).
      * destruct (t (get o f)); [|done]. by apply IH.
    + intros Hall. rewrite (Hall f t) by left.
      apply IH. intros field type Hin. apply Hall. by right.
Qed.

Lemma valid_gameType_string (o : gmap string value) :
  validateObject o requiredFields = Passes
  → ∃ gt, get o "gameType" = VStr gt.
Proof.
  intros Hv.
  pose proof (proj1 (validateObject_passes _ _) Hv "gameType" validString)
    as Hs.
  unfold validString in Hs.
  destruct (get o "gameType") eqn:Hg;
    try (exfalso; revert Hs; cbn;
         try destruct (bool_decide (name = "__proto__"));
         intros Hs; specialize (Hs ltac:(apply list_elem_of_In; cbn; auto 10));
         discriminate).
  by eexists.
Qed.

Lemma valid_apiVersion_string (o : gmap string value) :
  validateObject o requiredFields = Passes
  → ∃ version, get o "apiVersion" = VStr version
               ∧ Semver.valid version = true.
Proof.
  intros Hv.
  pose proof (proj1 (validateObject_passes _ _) Hv "apiVersion" validSemver
                ltac:(apply list_elem_of_In; cbn; auto 10)) as Hs.
  unfold validSemver in Hs.
  destruct (get o "apiVersion") as [| | | |version| | |]; try done.
  exists version. split; [done|]. by destruct (Semver.valid version).
Qed.

(** An id that passes was converted on the way. *)
Lemma validGameId_converts (id : value) :
  validGameId id = Passes → converts id = true.
Proof.
  unfold validGameId. destruct (truthy id); [|done].
  by destruct (converts id).
Qed.

Lemma valid_gameId_converts (o : gmap string value) :
  validateObject o requiredFields = Passes
  → converts (get o "gameId") = true.
Proof.
  intros Hv. apply validGameId_converts.
  apply (proj1 (validateObject_passes _ _) Hv "gameId" validGameId).
  apply list_elem_of_In. cbn. auto 10.
Qed.

(** What is falsy is no object: its conversion ends. *)
Lemma falsy_converts (v : value) : truthy v = false → converts v = true.
Proof. by destruct v. Qed.

Section Stages.

Variable settings : Settings.
Variable filePath : string.

Lemma ToString_run (v : value) (h : heap) :
  ToString v h
  = if converts v then (h, Normal (to_string v))
    else (h, Throw (TypeError cannot_convert)).
Proof. unfold ToString. by destruct (converts v). Qed.

Lemma bind_run {A B} (m : M A) (f : A → M B) (h : heap) :
  (m ≫= f) h
  = match m h with
    | (h', Normal a) => f a h'
    | (h', ReturnUndefined) => (h', ReturnUndefined)
    | (h', Throw e) => (h', Throw e)
    end.
Proof. reflexivity. Qed.

Lemma apply_defaults_run (o : gmap string value) (c : list string) :
  apply_defaults settings (mkHeap o c)
  = (mkHeap (defaulted settings o) c,
     if key_converts settings o then Normal ()
     else Throw (TypeError cannot_convert)).
Proof.
  unfold apply_defaults, defaulted, key_converts, gameTypeDefaults.
  rewrite !bind_run. run_monad. rewrite ToString_run.
  by destruct (converts _).
Qed.

Lemma validate_run (o : gmap string value) (c : list string) :
  validate filePath (mkHeap o c)
  = match validateObject o requiredFields with
    | Passes => (mkHeap o c, Normal ())
    | Throws e =>
        (mkHeap o (c ++ ["error: " +:+ filePath +:+ " happyFunTimes."; e]),
         ReturnUndefined)
    end.
Proof.
  unfold validate. run_monad.
  destruct (validateObject o requiredFields); [done|].
  by rewrite <- app_assoc.
Qed.

Lemma check_gameType_run (o : gmap string value) (c : list string) :
  check_gameType settings filePath (mkHeap o c)
  = if converts (get o "gameType") then
      if is_undefined (gameTypeDefaults settings (get o "gameType"))
      then (mkHeap o (c ++ ["warning: " +:+ filePath +:+ " unknown gameType "
                              +:+ to_string (get o "gameType");
                            "valid gameTypes: " +:+ nl_tab
                              +:+ Str.join nl_tab
                                    (Object_keys
                                       (hftGameTypeDefaults settings))]),
            ReturnUndefined)
      else (mkHeap o c, Normal ())
    else (mkHeap o c, Throw (TypeError cannot_convert)).
Proof.
  unfold check_gameType, gameTypeDefaults.
  rewrite !bind_run. run_monad. rewrite ToString_run.
  destruct (converts (get o "gameType")) eqn:Hc; [|done].
  destruct (is_undefined _); [|done].
  rewrite ToString_run, Hc. cbn. by rewrite <- app_assoc.
Qed.

Lemma get_bundle (m : gmap string (gmap string value)) (k : string) :
  k ∉ Object_prototype
  → get (VObj <$> m) k
    = match m !! k with Some b => VObj b | None => VUndefined end.
Proof.
  intros Hk. rewrite get_plain by done. rewrite lookup_fmap.
  by destruct (m !! k).
Qed.

Lemma get_bundle_own (m : gmap string (gmap string value)) k b :
  m !! k = Some b → get (VObj <$> m) k = VObj b.
Proof. intros Hb. apply get_own. by rewrite lookup_fmap, Hb. Qed.

(** The messages of lines 263-264. *)
Let unknown_apiVersion (o : gmap string value) : list string :=
  ["error: " +:+ filePath +:+ " unknown apiVersion "
     +:+ to_string (get o "apiVersion");
   "valid apiVersions: " +:+ nl_tab
     +:+ Str.join nl_tab (Object_keys (apiVersionSettings settings))].

(** The message of line 256. *)
Let unsupported : string :=
  "error: " +:+ filePath +:+
    " requires unsupported api version: you probably need to upgrade happyFunTimes".

Lemma resolve_version_run (o : gmap string value) (c : list string) :
  resolve_version settings filePath (mkHeap o c)
  = if converts (get o "apiVersion") then
      match Semver.maxSatisfying (Object_keys (apiVersionSettings settings))
              (need o) with
      | Some best =>
          let vs := get (VObj <$> apiVersionSettings settings) best in
          let o' := set "versionSettings" vs o in
          if is_undefined vs
          then (mkHeap o' (c ++ unknown_apiVersion o), ReturnUndefined)
          else (mkHeap o' c, Normal ())
      | None =>
          let vs := get (VObj <$> apiVersionSettings settings)
                      unsupportedApiVersion in
          let o' := set "versionSettings" vs
                      (set "needNewHFT" (VBool true) o) in
          if is_undefined vs
          then (mkHeap o' ((c ++ [unsupported]) ++ unknown_apiVersion o),
                ReturnUndefined)
          else (mkHeap o' (c ++ [unsupported]), Normal ())
      end
    else (mkHeap o c, Throw (TypeError cannot_convert)).
Proof.
  unfold resolve_version, need.
  rewrite !bind_run. run_monad. rewrite ToString_run.
  destruct (converts (get o "apiVersion")) eqn:Hc; [|done].
  destruct (Semver.maxSatisfying _ _) as [best|]; cbv zeta.
  - rewrite ?bind_run. run_monad. rewrite get_set_eq.
    destruct (is_undefined _); [|done].
    rewrite ToString_run. cbn [hftInfo].
    rewrite get_set_ne, Hc by done.
    cbn. unfold unknown_apiVersion.
    by rewrite <- app_assoc.
  - rewrite ?bind_run. run_monad. rewrite get_set_eq.
    destruct (is_undefined _); [|done].
    rewrite ToString_run. cbn [hftInfo].
    rewrite !get_set_ne, Hc by done.
    cbn. unfold unknown_apiVersion.
    by rewrite <- !app_assoc.
Qed.

(** On a manifest that validates the version is a string: its
    conversion ends. *)
Lemma resolve_version_valid (o : gmap string value) (c : list string) :
  validateObject o requiredFields = Passes
  → resolve_version settings filePath (mkHeap o c)
    = match Semver.maxSatisfying (Object_keys (apiVersionSettings settings))
              (need o) with
      | Some best =>
          let vs := get (VObj <$> apiVersionSettings settings) best in
          let o' := set "versionSettings" vs o in
          if is_undefined vs
          then (mkHeap o' (c ++ unknown_apiVersion o), ReturnUndefined)
          else (mkHeap o' c, Normal ())
      | None =>
          let vs := get (VObj <$> apiVersionSettings settings)
                      unsupportedApiVersion in
          let o' := set "versionSettings" vs
                      (set "needNewHFT" (VBool true) o) in
          if is_undefined vs
          then (mkHeap o' ((c ++ [unsupported]) ++ unknown_apiVersion o),
                ReturnUndefined)
          else (mkHeap o' (c ++ [unsupported]), Normal ())
      end.
Proof.
  intros Hv. rewrite resolve_version_run.
  by destruct (valid_apiVersion_string _ Hv) as (version & -> & _).
Qed.

Lemma check_gameType_truthy_run (o : gmap string value) (c : list string) :
  check_gameType_truthy (mkHeap o c)
  = (mkHeap o c,
     if truthy (get o "gameType") then Normal () else ReturnUndefined).
Proof.
  unfold check_gameType_truthy. run_monad.
  by destruct (truthy _).
Qed.

Lemma fix_url_run (name : string) (o : gmap string value) (c : list string) :
  fix_url name (mkHeap o c)
  = if url_converts name o then (mkHeap (fixed_url name o) c, Normal ())
    else (mkHeap o c, Throw (TypeError cannot_convert)).
Proof.
  unfold fix_url, fixed_url, url_converts. rewrite !bind_run. run_monad.
  destruct (truthy (get o name)); [|done]. cbn [negb orb].
  rewrite ToString_run.
  destruct (converts (get o "gameId")); [|done]. cbn [andb].
  rewrite ToString_run.
  by destruct (converts (get o name)).
Qed.

Lemma check_gameExecutable_run (base : string) (o : gmap string value)
    (c : list string) :
  check_gameExecutable base (mkHeap o c)
  = if truthy (get o "gameExecutable") then
      match get o "gameExecutable" with
      | VStr s =>
          let localPath := Path.join [base; s] in
          let fullPath := Path.normalize localPath in
          (mkHeap (set "gameExecutable" (VStr localPath) o) c,
           if String.eqb base
                (Str.substring0 (String.length base) fullPath)
           then Normal ()
           else Throw (ThrownString
                         ("bad path for game executable: " +:+ fullPath)))
      | _ =>
          (mkHeap o c,
           Throw (TypeError "Arguments to path.join must be strings"))
      end
    else (mkHeap o c, Normal ()).
Proof.
  unfold check_gameExecutable. run_monad.
  destruct (truthy _); [|done].
  destruct (get o "gameExecutable"); try done.
  cbn. by destruct (String.eqb _ _).
Qed.

End Stages.
Arguments fixed_url : simpl never.

Section Composition.

Variable settings : Settings.
Variable filePath : string.

Lemma fixed_url_lookup (name key : string) (o : gmap string value) :
  key ≠ name → fixed_url name o !! key = o !! key.
Proof.
  intros Hne. unfold fixed_url, set. destruct (truthy _); [|done].
  by rewrite lookup_insert_ne.
Qed.

Lemma fixed_url_get (name key : string) (o : gmap string value) :
  key ≠ name → get (fixed_url name o) key = get o key.
Proof. intros Hne. unfold get. by rewrite fixed_url_lookup. Qed.

(** A round on one URL leaves what the round on the other reads. *)
Lemma url_converts_fixed (name other : string) (o : gmap string value) :
  name ≠ other → name ≠ "gameId"
  → url_converts other (fixed_url name o) = url_converts other o.
Proof.
  intros H1 H2. unfold url_converts. by rewrite !fixed_url_get.
Qed.

(** [finish] on a heap: the manifest it leaves and how it ends. *)
Lemma finish_run (base : string) (o : gmap string value) (c : list string) :
  finish base (mkHeap o c)
  = if truthy (get o "gameType") then
      if url_converts "gameUrl" o then
        if url_converts "screenshotUrl" o then
          let o2 := fixed_url "screenshotUrl" (fixed_url "gameUrl" o) in
          match check_gameExecutable base (mkHeap o2 c) with
          | (h, Normal _) =>
              (mkHeap (set "basePath" (VStr base) (hftInfo h)) (console h),
               Normal ())
          | r => r
          end
        else (mkHeap (fixed_url "gameUrl" o) c,
              Throw (TypeError cannot_convert))
      else (mkHeap o c, Throw (TypeError cannot_convert))
    else (mkHeap o c, ReturnUndefined).
Proof.
  unfold finish. rewrite bind_run, check_gameType_truthy_run.
  destruct (truthy _); [|done].
  rewrite bind_run, fix_url_run.
  destruct (url_converts "gameUrl" o); [|done].
  rewrite bind_run, fix_url_run, url_converts_fixed by done.
  destruct (url_converts "screenshotUrl" o); [|done].
  rewrite bind_run. cbv zeta.
  destruct (check_gameExecutable _ _) as [h [[]| |e]]; done.
Qed.

Lemma check_gameExecutable_frame (base : string) (h : heap) (key : string) :
  key ≠ "gameExecutable"
  → hftInfo (check_gameExecutable base h).1 !! key = hftInfo h !! key.
Proof.
  intros Hne. destruct h as [o c]. rewrite check_gameExecutable_run.
  destruct (truthy _); [|done].
  destruct (get o "gameExecutable"); try done.
  cbn. unfold set. by rewrite lookup_insert_ne.
Qed.

Lemma check_gameExecutable_console (base : string) (h : heap) :
  console (check_gameExecutable base h).1 = console h.
Proof.
  destruct h as [o c]. rewrite check_gameExecutable_run.
  destruct (truthy _); [|done].
  by destruct (get o "gameExecutable").
Qed.

Lemma finish_frame (base : string) (h : heap) (key : string) :
  key ∉ ["gameUrl"; "screenshotUrl"; "gameExecutable"; "basePath"]
  → hftInfo (finish base h).1 !! key = hftInfo h !! key.
Proof.
  intros Hk. destruct h as [o c]. rewrite finish_run.
  assert (key ≠ "gameUrl" ∧ key ≠ "screenshotUrl" ∧ key ≠ "gameExecutable"
          ∧ key ≠ "basePath") as (H1 & H2 & H3 & H4).
  { repeat split; intros ->; apply Hk; set_solver. }
  destruct (truthy _); [|done].
  destruct (url_converts "gameUrl" o); [|done].
  destruct (url_converts "screenshotUrl" o);
    [|cbn; by rewrite fixed_url_lookup].
  cbv zeta.
  pose proof (check_gameExecutable_frame base
    (mkHeap (fixed_url "screenshotUrl" (fixed_url "gameUrl" o)) c) key H3) as Hf.
  destruct (check_gameExecutable _ _) as [h' [[]| |e]]; cbn in *.
  - unfold set. by rewrite lookup_insert_ne, Hf, !fixed_url_lookup.
  - by rewrite Hf, !fixed_url_lookup.
  - by rewrite Hf, !fixed_url_lookup.
Qed.

Lemma finish_console (base : string) (h : heap) :
  console (finish base h).1 = console h.
Proof.
  destruct h as [o c]. rewrite finish_run.
  destruct (truthy _); [|done].
  destruct (url_converts "gameUrl" o); [|done].
  destruct (url_converts "screenshotUrl" o); [|done].
  cbv zeta.
  pose proof (check_gameExecutable_console base
    (mkHeap (fixed_url "screenshotUrl" (fixed_url "gameUrl" o)) c)) as Hc.
  by destruct (check_gameExecutable _ _) as [h' [[]| |e]].
Qed.

Lemma try_catch_rethrow_run (m : M unit) (h : heap) :
  try_catch m (rethrow filePath) h
  = match m h with
    | (h', Throw e) =>
        (mkHeap (hftInfo h') (console h' ++ ["ERROR: Parsing " +:+ filePath]),
         Throw e)
    | r => r
    end.
Proof.
  unfold try_catch, rethrow. run_monad.
  by destruct (m h) as [h' [[]| |e]].
Qed.

(** The [try] block on a manifest: the defaults, then the first check
    that fails, else the choice of the version and what follows it. *)
Lemma parse_body_run (o : gmap string value) (c : list string) :
  parse_body settings filePath (mkHeap o c)
  = let d := defaulted settings o in
    if key_converts settings o then
      match validateObject d requiredFields with
      | Throws e =>
          (mkHeap d (c ++ ["error: " +:+ filePath +:+ " happyFunTimes."; e]),
           ReturnUndefined)
      | Passes =>
          if is_undefined (gameTypeDefaults settings (get d "gameType"))
          then (mkHeap d
                  (c ++ ["warning: " +:+ filePath +:+ " unknown gameType "
                           +:+ to_string (get d "gameType");
                         "valid gameTypes: " +:+ nl_tab
                           +:+ Str.join nl_tab
                                 (Object_keys (hftGameTypeDefaults settings))]),
                ReturnUndefined)
          else
            match resolve_version settings filePath (mkHeap d c) with
            | (h, Normal _) => finish (Path.dirname filePath) h
            | r => r
            end
      end
    else (mkHeap d c, Throw (TypeError cannot_convert)).
Proof.
  unfold parse_body. cbv zeta.
  rewrite bind_run, apply_defaults_run.
  destruct (key_converts settings o); [|done].
  rewrite bind_run, validate_run.
  destruct (validateObject _ _) as [|e] eqn:Hv; [|done].
  rewrite bind_run, check_gameType_run.
  destruct (valid_gameType_string _ Hv) as [gt ->]. cbn [converts].
  destruct (is_undefined _); [done|].
  rewrite bind_run.
  by destruct (resolve_version _ _ _) as [h [[]| |e]].
Qed.

Lemma parseGameInfo_section (pkg : PackageInfo) (o : gmap string value) :
  happyFunTimes pkg = Some o
  → parseGameInfo settings filePath pkg
    = conclude pkg
        (try_catch (parse_body settings filePath) (rethrow filePath)
           (mkHeap o [])).
Proof. unfold parseGameInfo. by intros ->. Qed.

End Composition.

(** *** Precedence of versions and [maxSatisfying] *)

Lemma ascii_compare_N (a b : ascii) :
  Ascii.compare a b = (N_of_ascii a ?= N_of_ascii b)%N.
Proof. reflexivity. Qed.

Lemma string_compare_refl (s : string) : String.compare s s = Eq.
Proof.
  induction s as [|a s IH]; [done|]. cbn.
  by rewrite ascii_compare_N, N.compare_refl.
Qed.

Lemma string_compare_gt_trans (s1 s2 s3 : string) :
  String.compare s1 s2 = Gt → String.compare s2 s3 = Gt
  → String.compare s1 s3 = Gt.
Proof.
  revert s2 s3. induction s1 as [|a s1 IH]; intros [|b s2] [|c s3]; cbn;
    try done.
  rewrite !ascii_compare_N.
  destruct (N.compare_spec (N_of_ascii a) (N_of_ascii b)) as [Hab|Hab|Hab];
    destruct (N.compare_spec (N_of_ascii b) (N_of_ascii c)) as [Hbc|Hbc|Hbc];
    destruct (N.compare_spec (N_of_ascii a) (N_of_ascii c)) as [Hac|Hac|Hac];
    try done; try lia; eauto.
Qed.

Lemma compareIdentifiers_refl (a : Semver.identifier) :
  Semver.compareIdentifiers a a = Eq.
Proof.
  destruct a; cbn; [apply N.compare_refl|apply string_compare_refl].
Qed.

Lemma compareIdentifiers_gt_trans (a b c : Semver.identifier) :
  Semver.compareIdentifiers a b = Gt → Semver.compareIdentifiers b c = Gt
  → Semver.compareIdentifiers a c = Gt.
Proof.
  destruct a, b, c; cbn; try done.
  - rewrite !N.compare_gt_iff. lia.
  - apply string_compare_gt_trans.
Qed.

Lemma comparePreList_refl (a : list Semver.identifier) :
  Semver.comparePreList a a = Eq.
Proof.
  induction a as [|x a IH]; [done|]. cbn.
  by rewrite decide_True.
Qed.

Lemma comparePreList_gt_trans (a b c : list Semver.identifier) :
  Semver.comparePreList a b = Gt → Semver.comparePreList b c = Gt
  → Semver.comparePreList a c = Gt.
Proof.
  revert b c. induction a as [|x a IH]; intros [|y b] [|z c]; cbn; try done.
  destruct (decide (x = y)) as [->|Hxy];
    destruct (decide (y = z)) as [->|Hyz].
  - apply IH.
  - done.
  - by rewrite decide_False.
  - intros Hgt1 Hgt2.
    pose proof (compareIdentifiers_gt_trans _ _ _ Hgt1 Hgt2) as Hgt.
    destruct (decide (x = z)) as [->|]; [|done].
    by rewrite compareIdentifiers_refl in Hgt.
Qed.

Lemma comparePre_gt_trans (a b c : Semver.SemVer) :
  Semver.comparePre a b = Gt → Semver.comparePre b c = Gt
  → Semver.comparePre a c = Gt.
Proof.
  unfold Semver.comparePre.
  destruct (Semver.prerelease a) as [|x pa], (Semver.prerelease b) as [|y pb],
    (Semver.prerelease c) as [|z pc]; try done.
  apply comparePreList_gt_trans.
Qed.

Lemma compareMain_eq (a b : Semver.SemVer) :
  Semver.compareMain a b = Eq
  ↔ Semver.major a = Semver.major b ∧ Semver.minor a = Semver.minor b
    ∧ Semver.patch a = Semver.patch b.
Proof.
  unfold Semver.compareMain.
  destruct (N.compare_spec (Semver.major a) (Semver.major b));
    destruct (N.compare_spec (Semver.minor a) (Semver.minor b));
    destruct (N.compare_spec (Semver.patch a) (Semver.patch b));
    split; try done; intros (? & ? & ?); lia.
Qed.

Lemma compareMain_gt (a b : Semver.SemVer) :
  Semver.compareMain a b = Gt
  ↔ (Semver.major b < Semver.major a
     ∨ Semver.major a = Semver.major b
       ∧ (Semver.minor b < Semver.minor a
          ∨ Semver.minor a = Semver.minor b
            ∧ Semver.patch b < Semver.patch a))%N.
Proof.
  unfold Semver.compareMain.
  destruct (N.compare_spec (Semver.major a) (Semver.major b));
    destruct (N.compare_spec (Semver.minor a) (Semver.minor b));
    destruct (N.compare_spec (Semver.patch a) (Semver.patch b));
    split; try done; try lia.
Qed.

Lemma compare_refl (a : Semver.SemVer) : Semver.compare a a = Eq.
Proof.
  unfold Semver.compare.
  assert (Semver.compareMain a a = Eq) as -> by by apply compareMain_eq.
  unfold Semver.comparePre.
  destruct (Semver.prerelease a) eqn:Hp; [done|].
  apply comparePreList_refl.
Qed.

Lemma compare_gt (a b : Semver.SemVer) :
  Semver.compare a b = Gt
  ↔ Semver.compareMain a b = Gt
    ∨ Semver.compareMain a b = Eq ∧ Semver.comparePre a b = Gt.
Proof.
  unfold Semver.compare. destruct (Semver.compareMain a b); intuition done.
Qed.

Lemma compare_gt_trans (a b c : Semver.SemVer) :
  Semver.compare a b = Gt → Semver.compare b c = Gt → Semver.compare a c = Gt.
Proof.
  rewrite !compare_gt, !compareMain_gt, !compareMain_eq.
  intros [Hab|[Hab Pab]] [Hbc|[Hbc Pbc]].
  - left. lia.
  - left. lia.
  - left. lia.
  - right. split; [lia|]. by apply comparePre_gt_trans with b.
Qed.

Lemma higher_irrefl (a : string) : Semver.higher a a = false.
Proof.
  unfold Semver.higher. destruct (Semver.new_SemVer a); [|done].
  by rewrite compare_refl.
Qed.

Lemma higher_trans (a b c : string) :
  Semver.higher a b = true → Semver.higher b c = true
  → Semver.higher a c = true.
Proof.
  unfold Semver.higher.
  destruct (Semver.new_SemVer a), (Semver.new_SemVer b), (Semver.new_SemVer c); try done.
  rewrite !bool_decide_eq_true. apply compare_gt_trans.
Qed.

(** One step of the walk over the satisfying versions. *)
Lemma maxSatisfying_walk (l seen : list string) (b : string) :
  (∀ v, v ∈ seen → Semver.higher v b = false)
  → ∃ best,
      fold_left
        (λ best v, match best with
                   | None => Some v
                   | Some b => if Semver.higher v b then Some v else Some b
                   end) l (Some b) = Some best
      ∧ (best = b ∨ best ∈ l)
      ∧ ∀ v, v ∈ (seen ++ l)%list → Semver.higher v best = false.
Proof.
  revert seen b. induction l as [|x l IH]; intros seen b Hseen.
  - exists b. rewrite app_nil_r. auto.
  - cbn [fold_left]. destruct (Semver.higher x b) eqn:Hx.
    + destruct (IH (seen ++ [x])%list x) as (best & Hfold & Hin & Hmax).
      { intros v [Hv| ->%list_elem_of_singleton]%elem_of_app.
        - destruct (Semver.higher v x) eqn:Hvx; [|done].
          rewrite <- (Hseen v Hv). symmetry. by apply higher_trans with x.
        - apply higher_irrefl. }
      exists best. split; [done|]. split.
      * right. destruct Hin as [->|Hin]; [left|by right].
      * intros v Hv. apply Hmax. by rewrite <- app_assoc.
    + destruct (IH (seen ++ [x])%list b) as (best & Hfold & Hin & Hmax).
      { intros v [Hv| ->%list_elem_of_singleton]%elem_of_app; auto. }
      exists best. split; [done|]. split.
      * destruct Hin as [->|Hin]; [by left|right; by right].
      * intros v Hv. apply Hmax. by rewrite <- app_assoc.
Qed.

Lemma filter_elem_of (p : string → bool) (l : list string) (v : string) :
  v ∈ List.filter p l ↔ v ∈ l ∧ p v = true.
Proof. rewrite !list_elem_of_In. apply filter_In. Qed.

(** [maxSatisfying] returns one of the versions, one that satisfies the
    range, and none of the satisfying versions is higher. *)
Lemma maxSatisfying_Some (versions : list string) (range best : string) :
  Semver.maxSatisfying versions range = Some best
  → best ∈ versions
    ∧ Semver.satisfies best range = true
    ∧ ∀ v, v ∈ versions → Semver.satisfies v range = true
           → Semver.higher v best = false.
Proof.
  unfold Semver.maxSatisfying.
  destruct (List.filter _ versions) as [|x l] eqn:Hf; [done|].
  cbn [fold_left].
  destruct (maxSatisfying_walk l [x] x) as (b & -> & Hin & Hmax).
  { intros v ->%list_elem_of_singleton. apply higher_irrefl. }
  intros [= <-].
  assert (Hb : b ∈ List.filter (λ v, Semver.satisfies v range) versions).
  { rewrite Hf. destruct Hin as [->|Hin]; [left|by right]. }
  apply filter_elem_of in Hb as [Hb1 Hb2]. split; [done|]. split; [done|].
  intros v Hv Hsat. apply Hmax.
  change ([x] ++ l)%list with (x :: l). rewrite <- Hf.
  by apply filter_elem_of.
Qed.

Lemma maxSatisfying_None (versions : list string) (range : string) :
  Semver.maxSatisfying versions range = None
  ↔ ∀ v, v ∈ versions → Semver.satisfies v range = false.
Proof.
  unfold Semver.maxSatisfying. split.
  - intros Hnone v Hv. destruct (Semver.satisfies v range) eqn:Hsat; [|done].
    assert (Hvf : v ∈ List.filter (λ v, Semver.satisfies v range) versions)
      by by apply filter_elem_of.
    destruct (List.filter _ versions) as [|x l]; [by apply elem_of_nil in Hvf|].
    cbn [fold_left] in Hnone.
    destruct (maxSatisfying_walk l [] x) as (b & Hb & _).
    { intros w Hw. by apply elem_of_nil in Hw. }
    congruence.
  - intros Hall.
    destruct (List.filter _ versions) as [|x l] eqn:Hf; [done|].
    assert (Hx : x ∈ List.filter (λ v, Semver.satisfies v range) versions)
      by (rewrite Hf; left).
    apply filter_elem_of in Hx as [Hx1 Hx2]. rewrite Hall in Hx2; done.
Qed.

Lemma Object_keys_elem_of {A} (m : gmap string A) (k : string) :
  k ∈ Object_keys m ↔ is_Some (m !! k).
Proof.
  unfold Object_keys. rewrite list_elem_of_fmap. split.
  - intros ([k' a] & -> & Hin). apply elem_of_map_to_list in Hin. by exists a.
  - intros [a Ha]. exists (k, a). split; [done|].
    by apply elem_of_map_to_list.
Qed.

(** *** The ways a call ends *)

Section Calls.

Variable settings : Settings.
Variable filePath : string.

#[local] Abbreviation keys := (Object_keys (apiVersionSettings settings)).
#[local] Abbreviation call := (parseGameInfo settings filePath).

Lemma unsupportedApiVersion_plain : unsupportedApiVersion ∉ Object_prototype.
Proof. not_listed. Qed.

(** No installed version satisfies the range exactly when [maxSatisfying]
    finds none. *)
Lemma none_satisfying (o : gmap string value) :
  (∀ v, ¬ satisfying settings o v)
  ↔ Semver.maxSatisfying keys (need o) = None.
Proof.
  rewrite maxSatisfying_None. unfold satisfying. split.
  - intros Hno v Hv%Object_keys_elem_of.
    destruct (Semver.satisfies v (need o)) eqn:Hs; [|done].
    by destruct (Hno v).
  - intros Hno v [Hv%Object_keys_elem_of Hs]. rewrite (Hno v Hv) in Hs. done.
Qed.

Lemma missing_section_call (pkg : PackageInfo) :
  happyFunTimes pkg = None
  → call pkg
    = mkResult Rejected pkg
        ["error: " +:+ filePath +:+ " is missing happyFunTimes section"].
Proof. unfold parseGameInfo. by intros ->. Qed.

(** A manifest that validates with its defaults got through line 226:
    a game type that cannot be converted is no string. *)
Lemma valid_key_converts (o : gmap string value) :
  validateObject (defaulted settings o) requiredFields = Passes
  → key_converts settings o = true.
Proof.
  intros Hv. destruct (valid_gameType_string _ Hv) as [gt Hgt].
  unfold defaulted, key_converts in *. cbv zeta in Hgt.
  destruct (converts _) eqn:Hc; [done|].
  by rewrite Hgt in Hc.
Qed.

(** The game type cannot be made a property name: line 226 throws. *)
Lemma unconvertible_call (pkg : PackageInfo) (o : gmap string value) :
  happyFunTimes pkg = Some o
  → key_converts settings o = false
  → call pkg
    = mkResult (Threw (TypeError cannot_convert))
        (mkPackageInfo (Some (defaulted settings o)) (otherMembers pkg))
        ["ERROR: Parsing " +:+ filePath].
Proof.
  intros Ho Hk.
  rewrite (parseGameInfo_section _ _ _ _ Ho), try_catch_rethrow_run,
    parse_body_run.
  cbv zeta. by rewrite Hk.
Qed.

Lemma invalid_call (pkg : PackageInfo) (o : gmap string value) (e : string) :
  happyFunTimes pkg = Some o
  → key_converts settings o = true
  → validateObject (defaulted settings o) requiredFields = Throws e
  → call pkg
    = mkResult Rejected
        (mkPackageInfo (Some (defaulted settings o)) (otherMembers pkg))
        ["error: " +:+ filePath +:+ " happyFunTimes."; e].
Proof.
  intros Ho Hk He.
  rewrite (parseGameInfo_section _ _ _ _ Ho), try_catch_rethrow_run,
    parse_body_run.
  cbv zeta. by rewrite Hk, He.
Qed.

Lemma unknown_gameType_call (pkg : PackageInfo) (o : gmap string value) :
  happyFunTimes pkg = Some o
  → validateObject (defaulted settings o) requiredFields = Passes
  → is_undefined
      (gameTypeDefaults settings (get (defaulted settings o) "gameType"))
    = true
  → call pkg
    = mkResult Rejected
        (mkPackageInfo (Some (defaulted settings o)) (otherMembers pkg))
        ["warning: " +:+ filePath +:+ " unknown gameType "
           +:+ to_string (get (defaulted settings o) "gameType");
         "valid gameTypes: " +:+ nl_tab
           +:+ Str.join nl_tab (Object_keys (hftGameTypeDefaults settings))].
Proof.
  intros Ho Hv Hg.
  rewrite (parseGameInfo_section _ _ _ _ Ho), try_catch_rethrow_run,
    parse_body_run.
  cbv zeta. by rewrite (valid_key_converts _ Hv), Hv, Hg.
Qed.

(** A manifest that passed both checks: the version is chosen, then the
    rest runs. *)
Lemma checked_call (pkg : PackageInfo) (o : gmap string value) :
  happyFunTimes pkg = Some o
  → validateObject (defaulted settings o) requiredFields = Passes
  → is_undefined
      (gameTypeDefaults settings (get (defaulted settings o) "gameType"))
    = false
  → call pkg
    = conclude pkg
        (try_catch
           (resolve_version settings filePath;;
            finish (Path.dirname filePath))
           (rethrow filePath) (mkHeap (defaulted settings o) [])).
Proof.
  intros Ho Hv Hg.
  rewrite (parseGameInfo_section _ _ _ _ Ho), !try_catch_rethrow_run,
    parse_body_run, bind_run.
  cbv zeta. rewrite (valid_key_converts _ Hv), Hv, Hg.
  by destruct (resolve_version _ _ _) as [h [[]| |e]].
Qed.

Lemma unresolved_call (pkg : PackageInfo) (o : gmap string value) :
  happyFunTimes pkg = Some o
  → validateObject (defaulted settings o) requiredFields = Passes
  → is_undefined
      (gameTypeDefaults settings (get (defaulted settings o) "gameType"))
    = false
  → Semver.maxSatisfying keys (need (defaulted settings o)) = None
  → apiVersionSettings settings !! unsupportedApiVersion = None
  → outcome_of (call pkg) = Rejected
    ∧ hftInfo_after (call pkg)
      = set "versionSettings" VUndefined
          (set "needNewHFT" (VBool true) (defaulted settings o))
    ∧ console_after (call pkg) ≠ [].
Proof.
  intros Ho Hv Hg Hmax Hfb.
  rewrite (checked_call _ _ Ho Hv Hg), try_catch_rethrow_run, bind_run,
    (resolve_version_valid _ _ _ _ Hv), Hmax.
  cbv zeta.
  rewrite (get_bundle _ _ unsupportedApiVersion_plain), Hfb. cbn.
  by repeat split.
Qed.

(** The version was chosen, or the fallback key has a bundle: the call
    goes on with [finish]. *)
Lemma resolved_call (pkg : PackageInfo) (o : gmap string value)
    (best : string) (bundle : gmap string value) :
  happyFunTimes pkg = Some o
  → validateObject (defaulted settings o) requiredFields = Passes
  → is_undefined
      (gameTypeDefaults settings (get (defaulted settings o) "gameType"))
    = false
  → Semver.maxSatisfying keys (need (defaulted settings o)) = Some best
  → apiVersionSettings settings !! best = Some bundle
  → call pkg
    = conclude pkg
        (try_catch (finish (Path.dirname filePath)) (rethrow filePath)
           (mkHeap (set "versionSettings" (VObj bundle)
                      (defaulted settings o)) [])).
Proof.
  intros Ho Hv Hg Hmax Hb.
  rewrite (checked_call _ _ Ho Hv Hg), !try_catch_rethrow_run, bind_run,
    (resolve_version_valid _ _ _ _ Hv), Hmax.
  cbv zeta. by rewrite (get_bundle_own _ _ _ Hb).
Qed.

Lemma fallback_call (pkg : PackageInfo) (o : gmap string value)
    (bundle : gmap string value) :
  happyFunTimes pkg = Some o
  → validateObject (defaulted settings o) requiredFields = Passes
  → is_undefined
      (gameTypeDefaults settings (get (defaulted settings o) "gameType"))
    = false
  → Semver.maxSatisfying keys (need (defaulted settings o)) = None
  → apiVersionSettings settings !! unsupportedApiVersion = Some bundle
  → ∃ c,
      call pkg
      = conclude pkg
          (try_catch (finish (Path.dirname filePath)) (rethrow filePath)
             (mkHeap (set "versionSettings" (VObj bundle)
                        (set "needNewHFT" (VBool true)
                           (defaulted settings o))) c)).
Proof.
  intros Ho Hv Hg Hmax Hb.
  rewrite (checked_call _ _ Ho Hv Hg).
  eexists. rewrite !try_catch_rethrow_run, bind_run,
    (resolve_version_valid _ _ _ _ Hv), Hmax.
  cbv zeta. by rewrite (get_bundle_own _ _ _ Hb).
Qed.

(** Whatever [finish] does, the properties it does not assign stay. *)
Lemma finish_call_frame (pkg : PackageInfo) (h : heap) (key : string) :
  key ∉ ["gameUrl"; "screenshotUrl"; "gameExecutable"; "basePath"]
  → get (hftInfo_after
           (conclude pkg
              (try_catch (finish (Path.dirname filePath)) (rethrow filePath)
                 h))) key
    = get (hftInfo h) key.
Proof.
  intros Hk. rewrite try_catch_rethrow_run.
  pose proof (finish_frame (Path.dirname filePath) h key Hk) as Hf.
  unfold get, hftInfo_after, conclude.
  destruct (finish _ h) as [h' [[]| |e]]; cbn in *; by rewrite Hf.
Qed.

End Calls.

(** *** What the defaults do to a manifest *)

Lemma defaulted_union (settings : Settings) (o : gmap string value) :
  defaulted settings o
  = (o ∪ hftDefaults settings)
    ∪ own_enumerable
        (if converts (get (o ∪ hftDefaults settings) "gameType")
            && truthy (gameTypeDefaults settings
                         (get (o ∪ hftDefaults settings) "gameType"))
         then gameTypeDefaults settings
                (get (o ∪ hftDefaults settings) "gameType")
         else VUndefined).
Proof.
  unfold defaulted. rewrite applyDefaultProperties_object. cbv zeta.
  destruct (converts _); cbn [andb].
  - unfold applyDefaultProperties.
    destruct (truthy _); cbn [negb].
    + apply copyProperties_union.
    + cbn. by rewrite (right_id_L ∅ (∪)).
  - cbn. by rewrite (right_id_L ∅ (∪)).
Qed.

Lemma defaulted_own (settings : Settings) (o : gmap string value) key v :
  o !! key = Some v → defaulted settings o !! key = Some v.
Proof.
  intros Hkey. rewrite defaulted_union.
  by apply lookup_union_Some_l, lookup_union_Some_l.
Qed.

Lemma defaulted_global (settings : Settings) (o : gmap string value) key v :
  o !! key = None → hftDefaults settings !! key = Some v
  → defaulted settings o !! key = Some v.
Proof.
  intros Hkey Hdef. rewrite defaulted_union.
  apply lookup_union_Some_l. by rewrite lookup_union, Hkey, Hdef.
Qed.

Lemma defaulted_perType (settings : Settings) (o perType : gmap string value)
    (gt : string) key v :
  o !! key = None → hftDefaults settings !! key = None
  → get (o ∪ hftDefaults settings) "gameType" = VStr gt
  → hftGameTypeDefaults settings !! gt = Some perType
  → perType !! key = Some v
  → defaulted settings o !! key = Some v.
Proof.
  intros Hkey Hdef Hgt Hper Hv. rewrite defaulted_union, Hgt.
  unfold gameTypeDefaults, hftGameTypeDefaults_at.
  change (to_string (VStr gt)) with gt.
  rewrite (get_bundle_own _ _ _ Hper). cbn.
  by rewrite !lookup_union, Hkey, Hdef, Hv.
Qed.

(** A required field that validates is there, so the defaults leave it
    alone: a manifest that is valid as it stands is valid with them. *)
Lemma valid_fields_stay_valid (settings : Settings) (o : gmap string value) :
  validateObject o requiredFields = Passes
  → validateObject (defaulted settings o) requiredFields = Passes.
Proof.
  rewrite !validateObject_passes. intros Hall field type Hin.
  specialize (Hall field type Hin).
  assert (Hown : o !! field = Some (get o field)).
  { unfold requiredFields in Hin.
    repeat (apply elem_of_cons in Hin as [[= -> ->]|Hin]);
      try (by apply elem_of_nil in Hin);
      rewrite get_plain in Hall |- * by not_listed;
      destruct (o !! _); done. }
  by rewrite (get_own _ _ _ (defaulted_own settings o _ _ Hown)).
Qed.

(** *** The test on the executable *)

Lemma prefix_refl (s : string) : String.prefix s s = true.
Proof.
  induction s as [|a s IH]; [done|]. cbn.
  by destruct (ascii_dec a a).
Qed.

Lemma prefix_app_l (a b s : string) :
  String.prefix (a +:+ b) s = true → String.prefix a s = true.
Proof.
  revert s. induction a as [|x a IH]; intros s.
  - intros _. by destruct s.
  - change (String x a +:+ b) with (String x (a +:+ b)).
    destruct s as [|y s]; [done|].
    change (String.prefix (String x (a +:+ b)) (String y s))
      with (if ascii_dec x y then String.prefix (a +:+ b) s else false).
    change (String.prefix (String x a) (String y s))
      with (if ascii_dec x y then String.prefix a s else false).
    destruct (ascii_dec x y); [apply IH|done].
Qed.

(** The test of line 298 is a test for a prefix. *)
Lemma prefix_test (base fullPath : string) :
  String.eqb base (Str.substring0 (String.length base) fullPath)
  = String.prefix base fullPath.
Proof.
  unfold Str.substring0.
  destruct (String.prefix base fullPath) eqn:Hp.
  - apply String.prefix_correct in Hp. rewrite Hp. apply String.eqb_refl.
  - apply String.eqb_neq. intros Heq.
    assert (String.prefix base fullPath = true)
      by by apply String.prefix_correct.
    congruence.
Qed.

Lemma inside_dir_prefix (dir path : string) :
  inside_dir dir path = true → String.prefix dir path = true.
Proof.
  unfold inside_dir. intros [Heq|Hp]%orb_true_iff.
  - apply String.eqb_eq in Heq as ->. apply prefix_refl.
  - destruct (Str.ends_with_char "/" dir); [done|].
    by apply prefix_app_l in Hp.
Qed.

(** *** What a call leaves alone *)

Lemma resolve_version_frame (settings : Settings) (filePath : string)
    (h : heap) (key : string) :
  key ∉ ["needNewHFT"; "versionSettings"]
  → hftInfo (resolve_version settings filePath h).1 !! key = hftInfo h !! key.
Proof.
  intros Hk. destruct h as [o c]. rewrite resolve_version_run.
  assert (key ≠ "needNewHFT" ∧ key ≠ "versionSettings") as [H1 H2].
  { split; intros ->; apply Hk; set_solver. }
  destruct (converts _); [|done].
  destruct (Semver.maxSatisfying _ _); cbv zeta; destruct (is_undefined _);
    cbn; unfold set; by rewrite ?lookup_insert_ne.
Qed.

(** Past lines 225-226 a call assigns the properties of [assigned] and no
    other. *)
Lemma call_frame (settings : Settings) (filePath : string)
    (pkg : PackageInfo) (o : gmap string value) (key : string) :
  happyFunTimes pkg = Some o
  → key ∉ assigned
  → hftInfo_after (parseGameInfo settings filePath pkg) !! key
    = defaulted settings o !! key.
Proof.
  intros Ho Hk.
  destruct (key_converts settings o) eqn:Hkey;
    [|by rewrite (unconvertible_call _ _ _ _ Ho Hkey)].
  destruct (validateObject (defaulted settings o) requiredFields) as [|e]
    eqn:Hv; [|by rewrite (invalid_call _ _ _ _ _ Ho Hkey Hv)].
  destruct (is_undefined
              (gameTypeDefaults settings
                 (get (defaulted settings o) "gameType"))) eqn:Hg;
    [by rewrite (unknown_gameType_call _ _ _ _ Ho Hv Hg)|].
  rewrite (checked_call _ filePath _ _ Ho Hv Hg), try_catch_rethrow_run,
    bind_run.
  assert (Hr : key ∉ ["needNewHFT"; "versionSettings"]).
  { intros Hin. apply Hk.
    repeat (apply elem_of_cons in Hin as [->|Hin]);
      try (apply (bool_decide_unpack _); by vm_compute).
    by apply elem_of_nil in Hin. }
  assert (Hf : key ∉ ["gameUrl"; "screenshotUrl"; "gameExecutable";
                      "basePath"]).
  { intros Hin. apply Hk.
    repeat (apply elem_of_cons in Hin as [->|Hin]);
      try (apply (bool_decide_unpack _); by vm_compute).
    by apply elem_of_nil in Hin. }
  pose proof (resolve_version_frame settings filePath
                (mkHeap (defaulted settings o) []) key Hr) as Hres.
  destruct (resolve_version _ _ _) as [h [[]| |e]]; cbn in Hres;
    [|done|done].
  pose proof (finish_frame (Path.dirname filePath) h key Hf) as Hfin.
  unfold hftInfo_after, conclude.
  destruct (finish _ h) as [h' [[]| |e]]; cbn in *; congruence.
Qed.

(** ** Further properties of [parseGameInfo] *)

Section MoreCalls.

Variable settings : Settings.
Variable filePath : string.

#[local] Abbreviation base := (Path.dirname filePath).

(** [finish] inside the [try], on a heap, case by case. *)
Lemma finish_cases (o : gmap string value) (c : list string) :
  try_catch (finish base) (rethrow filePath) (mkHeap o c)
  = if truthy (get o "gameType") then
      if url_converts "gameUrl" o then
        if url_converts "screenshotUrl" o then
          let o2 := fixed_url "screenshotUrl" (fixed_url "gameUrl" o) in
          if executable_passes base o then
            (mkHeap
               (set "basePath" (VStr base)
                  (if truthy (get o "gameExecutable")
                   then set "gameExecutable"
                          (VStr (Path.join
                                   [base;
                                    to_string (get o "gameExecutable")]))
                          o2
                   else o2)) c,
             Normal ())
          else
            (mkHeap
               (match get o "gameExecutable" with
                | VStr s =>
                    set "gameExecutable" (VStr (Path.join [base; s])) o2
                | _ => o2
                end)
               (c ++ ["ERROR: Parsing " +:+ filePath]),
             Throw (executable_fault base o))
        else
          (mkHeap (fixed_url "gameUrl" o)
             (c ++ ["ERROR: Parsing " +:+ filePath]),
           Throw (TypeError cannot_convert))
      else
        (mkHeap o (c ++ ["ERROR: Parsing " +:+ filePath]),
         Throw (TypeError cannot_convert))
    else (mkHeap o c, ReturnUndefined).
Proof.
  rewrite try_catch_rethrow_run, finish_run.
  destruct (truthy (get o "gameType")); [|done].
  destruct (url_converts "gameUrl" o); [|done].
  destruct (url_converts "screenshotUrl" o); [|done].
  cbv zeta.
  rewrite check_gameExecutable_run.
  unfold executable_passes, executable_fault.
  rewrite !fixed_url_get by done.
  destruct (truthy (get o "gameExecutable")); [|done].
  destruct (get o "gameExecutable"); try done.
  cbv zeta. rewrite prefix_test.
  by destruct (String.prefix _ _).
Qed.

(** A manifest that passed both checks: the version step, case by case. *)
Lemma version_cases (pkg : PackageInfo) (o : gmap string value) :
  happyFunTimes pkg = Some o
  → validateObject (defaulted settings o) requiredFields = Passes
  → is_undefined
      (gameTypeDefaults settings (get (defaulted settings o) "gameType"))
    = false
  → parseGameInfo settings filePath pkg
    = match apiVersionSettings settings
            !! bestVersion settings (defaulted settings o) with
      | Some bundle =>
          conclude pkg
            (try_catch (finish base) (rethrow filePath)
               (mkHeap
                  (set "versionSettings" (VObj bundle)
                     (flagged settings (defaulted settings o)))
                  (upgrade_warning settings filePath (defaulted settings o))))
      | None =>
          mkResult Rejected
            (mkPackageInfo
               (Some (set "versionSettings" VUndefined
                        (flagged settings (defaulted settings o))))
               (otherMembers pkg))
            (upgrade_warning settings filePath (defaulted settings o)
             ++ ["error: " +:+ filePath +:+ " unknown apiVersion "
                   +:+ to_string (get (defaulted settings o) "apiVersion");
                 "valid apiVersions: " +:+ nl_tab
                   +:+ Str.join nl_tab
                         (Object_keys (apiVersionSettings settings))])%list
      end.
Proof.
  intros Ho Hv Hg.
  rewrite (checked_call _ filePath _ _ Ho Hv Hg).
  unfold bestVersion, flagged, upgrade_warning.
  destruct (Semver.maxSatisfying _ _) as [best|] eqn:Hmax;
    cbn [from_option]; unfold id.
  - destruct (maxSatisfying_Some _ _ _ Hmax)
      as ([bundle Hb]%Object_keys_elem_of & _).
    rewrite Hb, !try_catch_rethrow_run, bind_run,
      (resolve_version_valid _ _ _ _ Hv), Hmax.
    cbv zeta. by rewrite (get_bundle_own _ _ _ Hb).
  - rewrite !try_catch_rethrow_run, bind_run,
      (resolve_version_valid _ _ _ _ Hv), Hmax.
    cbv zeta. rewrite (get_bundle _ _ unsupportedApiVersion_plain).
    by destruct (apiVersionSettings settings !! unsupportedApiVersion).
Qed.

Lemma executable_frame (o o' : gmap string value) :
  get o' "gameExecutable" = get o "gameExecutable"
  → executable_passes base o' = executable_passes base o
    ∧ executable_fault base o' = executable_fault base o.
Proof. unfold executable_passes, executable_fault. by intros ->. Qed.

Lemma flagged_get (o : gmap string value) (key : string) :
  key ≠ "needNewHFT" → get (flagged settings o) key = get o key.
Proof.
  intros Hne. unfold flagged. destruct (Semver.maxSatisfying _ _); [done|].
  by rewrite get_set_ne.
Qed.

Lemma versioned_get (o : gmap string value) (v : value) (key : string) :
  key ≠ "needNewHFT" → key ≠ "versionSettings"
  → get (set "versionSettings" v (flagged settings o)) key = get o key.
Proof. intros H1 H2. by rewrite get_set_ne, flagged_get. Qed.

Lemma versioned_url_converts (o : gmap string value) (v : value)
    (name : string) :
  name ≠ "needNewHFT" → name ≠ "versionSettings"
  → url_converts name (set "versionSettings" v (flagged settings o))
    = url_converts name o.
Proof.
  intros H1 H2. unfold url_converts. by rewrite !versioned_get.
Qed.

(** On a manifest that validates, a round of the URLs ends when the URL
    converts: the id does. *)
Lemma valid_url_converts (o : gmap string value) (name : string) :
  validateObject o requiredFields = Passes
  → url_converts name o = converts (get o name).
Proof.
  intros Hv. unfold url_converts. rewrite (valid_gameId_converts _ Hv).
  cbn [andb]. destruct (truthy (get o name)) eqn:Ht; [done|].
  by rewrite (falsy_converts _ Ht).
Qed.

(** How a call ends, as one walk through the exits of the function. *)
Lemma outcome_cases (pkg : PackageInfo) :
  outcome_of (parseGameInfo settings filePath pkg)
  = match happyFunTimes pkg with
    | None => Rejected
    | Some o =>
        let d := defaulted settings o in
        if key_converts settings o then
          match validateObject d requiredFields with
          | Throws _ => Rejected
          | Passes =>
              if is_undefined (gameTypeDefaults settings (get d "gameType"))
              then Rejected
              else
                match apiVersionSettings settings
                        !! bestVersion settings d with
                | None => Rejected
                | Some _ =>
                    if truthy (get d "gameType") then
                      if urls_convert d then
                        if executable_passes base d then Accepted
                        else Threw (executable_fault base d)
                      else Threw (TypeError cannot_convert)
                    else Rejected
                end
          end
        else Threw (TypeError cannot_convert)
    end.
Proof.
  destruct (happyFunTimes pkg) as [o|] eqn:Ho;
    [|by rewrite (missing_section_call _ _ _ Ho)].
  cbv zeta.
  destruct (key_converts settings o) eqn:Hkey;
    [|by rewrite (unconvertible_call _ _ _ _ Ho Hkey)].
  destruct (validateObject (defaulted settings o) requiredFields) as [|e]
    eqn:Hv; [|by rewrite (invalid_call _ _ _ _ _ Ho Hkey Hv)].
  destruct (is_undefined _) eqn:Hg;
    [by rewrite (unknown_gameType_call _ _ _ _ Ho Hv Hg)|].
  rewrite (version_cases _ _ Ho Hv Hg).
  destruct (apiVersionSettings settings !! _) as [bundle|]; [|done].
  rewrite finish_cases, versioned_get, !versioned_url_converts by done.
  destruct (truthy (get (defaulted settings o) "gameType")); [|done].
  unfold urls_convert.
  destruct (url_converts "gameUrl" _); [|done].
  destruct (url_converts "screenshotUrl" _); [|done].
  cbv zeta. cbn [andb].
  destruct (executable_frame (defaulted settings o)
              (set "versionSettings" (VObj bundle)
                 (flagged settings (defaulted settings o)))) as [-> ->];
    [by apply versioned_get|].
  by destruct (executable_passes _ _).
Qed.

(** The manifest a call returns. *)
Lemma accepted_manifest (pkg : PackageInfo) (o : gmap string value) :
  happyFunTimes pkg = Some o
  → outcome_of (parseGameInfo settings filePath pkg) = Accepted
  → ∃ bundle,
      apiVersionSettings settings !! bestVersion settings (defaulted settings o)
      = Some bundle
      ∧ console_after (parseGameInfo settings filePath pkg)
        = upgrade_warning settings filePath (defaulted settings o)
      ∧ hftInfo_after (parseGameInfo settings filePath pkg)
        = let o1 := set "versionSettings" (VObj bundle)
                      (flagged settings (defaulted settings o)) in
          let o2 := fixed_url "screenshotUrl" (fixed_url "gameUrl" o1) in
          set "basePath" (VStr base)
            (if truthy (get o1 "gameExecutable")
             then set "gameExecutable"
                    (VStr (Path.join [base;
                                      to_string (get o1 "gameExecutable")]))
                    o2
             else o2).
Proof.
  intros Ho. rewrite outcome_cases, Ho. cbv zeta.
  destruct (key_converts settings o); [|done].
  destruct (validateObject (defaulted settings o) requiredFields) as [|e]
    eqn:Hv; [|done].
  destruct (is_undefined _) eqn:Hg; [done|].
  rewrite (version_cases _ _ Ho Hv Hg).
  destruct (apiVersionSettings settings !! _) as [bundle|]; [|done].
  destruct (truthy (get (defaulted settings o) "gameType")) eqn:Ht; [|done].
  unfold urls_convert.
  destruct (url_converts "gameUrl" (defaulted settings o)) eqn:Hu1; [|done].
  destruct (url_converts "screenshotUrl" (defaulted settings o)) eqn:Hu2;
    [|done].
  cbn [andb].
  destruct (executable_passes base (defaulted settings o)) eqn:He; [|done].
  intros _. exists bundle. split; [done|].
  rewrite finish_cases, versioned_get, !versioned_url_converts, Ht, Hu1, Hu2
    by done.
  cbv zeta.
  destruct (executable_frame (defaulted settings o)
              (set "versionSettings" (VObj bundle)
                 (flagged settings (defaulted settings o)))) as [-> _];
    [by apply versioned_get|].
  by rewrite He.
Qed.

(** A call that throws has printed the parsing error last. *)
Lemma thrown_call_console (pkg : PackageInfo) (e : thrown) :
  outcome_of (parseGameInfo settings filePath pkg) = Threw e
  → last (console_after (parseGameInfo settings filePath pkg))
    = Some ("ERROR: Parsing " +:+ filePath).
Proof.
  destruct (happyFunTimes pkg) as [o|] eqn:Ho;
    [|by rewrite (missing_section_call _ _ _ Ho)].
  rewrite (parseGameInfo_section _ _ _ _ Ho), try_catch_rethrow_run.
  unfold conclude.
  destruct (parse_body settings filePath _) as [h [[]| |e']]; try done.
  intros _. cbn. apply last_snoc.
Qed.

(** The package a call returns still has its section. *)
Lemma accepted_section (pkg : PackageInfo) :
  outcome_of (parseGameInfo settings filePath pkg) = Accepted
  → happyFunTimes (packageInfo_after (parseGameInfo settings filePath pkg))
    = Some (hftInfo_after (parseGameInfo settings filePath pkg))
    ∧ is_Some (happyFunTimes pkg).
Proof.
  unfold hftInfo_after, parseGameInfo.
  by destruct (happyFunTimes pkg).
Qed.

End MoreCalls.

Lemma fixed_url_get_same (name : string) (o : gmap string value) :
  get (fixed_url name o) name
  = if truthy (get o name)
    then VStr ("/games/" +:+ to_string (get o "gameId") +:+ "/"
               +:+ to_string (get o name))
    else get o name.
Proof.
  unfold fixed_url. destruct (truthy (get o name)); [|done].
  apply get_set_eq.
Qed.

(** *** Claims about rejection *)

Lemma known_gameType_cases (settings : Settings) (gt : string) :
  gt ∉ Object_prototype
  → is_undefined (gameTypeDefaults settings (VStr gt))
    = bool_decide (hftGameTypeDefaults settings !! gt = None).
Proof.
  intros Hgt. unfold gameTypeDefaults, hftGameTypeDefaults_at.
  change (to_string (VStr gt)) with gt.
  rewrite (get_bundle _ _ Hgt).
  by destruct (hftGameTypeDefaults settings !! gt).
Qed.

(** The keys of [apiVersionSettings] are versions when each of them
    parses. *)
Lemma keys_are_versions_checked (settings : Settings) :
  forallb (λ key, bool_decide (is_Some (Semver.new_SemVer key)))
    (Object_keys (apiVersionSettings settings)) = true
  → keys_are_versions settings.
Proof.
  intros Hall key Hkey%Object_keys_elem_of.
  rewrite forallb_forall in Hall. apply list_elem_of_In in Hkey.
  specialize (Hall key Hkey). by apply bool_decide_eq_true in Hall.
Qed.

(** No two keys are the same version when, pair by pair, one is
    higher. *)
Lemma keys_differ_checked (settings : Settings) :
  forallb
    (λ v, forallb (λ w, bool_decide (v = w) || Semver.higher v w
                        || Semver.higher w v)
            (Object_keys (apiVersionSettings settings)))
    (Object_keys (apiVersionSettings settings)) = true
  → keys_differ settings.
Proof.
  intros Hall v w Hv%Object_keys_elem_of Hw%Object_keys_elem_of Hne.
  rewrite forallb_forall in Hall. apply list_elem_of_In in Hv, Hw.
  specialize (Hall v Hv). rewrite forallb_forall in Hall.
  specialize (Hall w Hw).
  rewrite (bool_decide_eq_false_2 _ Hne) in Hall. cbn [orb] in Hall.
  apply orb_true_iff in Hall. tauto.
Qed.


(** What line 236 takes for a known game type: a key of the settings, or
    the name of a member every object inherits. *)
Lemma known_gameType_iff (settings : Settings) (gt : string) :
  is_undefined (gameTypeDefaults settings (VStr gt)) = false
  ↔ is_Some (hftGameTypeDefaults settings !! gt) ∨ gt ∈ Object_prototype.
Proof.
  unfold gameTypeDefaults, hftGameTypeDefaults_at, get.
  change (to_string (VStr gt)) with gt. rewrite lookup_fmap.
  destruct (hftGameTypeDefaults settings !! gt) as [b|]; cbn.
  - split; [|done]. intros _. left. by exists b.
  - case_bool_decide as Hin; split; try done.
    + intros _. by right.
    + intros [[? ?]|?]; done.
Qed.

(** C10, as amended.  The manifest that is patched is the one the call
    parsed itself, and it is patched in place before anything is
    decided.  When the call returns nothing because a required field
    fails (the game type being one that line 226 could use as a property
    name) or because the game type is unknown, the object holds the
    manifest with the defaults merged in (every own property kept, every
    missing one taken from the global defaults or, failing that, from the
    defaults of its game type); when it returns nothing because no
    version could be resolved, the object also has [needNewHFT = true]
    (and [versionSettings], assigned [undefined]); and when line 226
    throws, it holds the global defaults.  On the sample, a manifest with
    a bad [gameId] comes out rejected and different from what went
    in. *)
Theorem rejection_leaves_manifest_patched :
  (∀ (settings : Settings) (filePath : string) (pkg : PackageInfo)
     (o : gmap string value),
     happyFunTimes pkg = Some o
     → (∀ key v, o !! key = Some v
                 → defaulted settings o !! key = Some v)
       ∧ (∀ key v, o !! key = None → hftDefaults settings !! key = Some v
                   → defaulted settings o !! key = Some v)
       ∧ (∀ key v gt perType,
            o !! key = None → hftDefaults settings !! key = None
            → get (o ∪ hftDefaults settings) "gameType" = VStr gt
            → hftGameTypeDefaults settings !! gt = Some perType
            → perType !! key = Some v
            → defaulted settings o !! key = Some v)
       ∧ (∀ e, key_converts settings o = true
               → validateObject (defaulted settings o) requiredFields
                 = Throws e
               → outcome_of (parseGameInfo settings filePath pkg) = Rejected
                 ∧ hftInfo_after (parseGameInfo settings filePath pkg)
                   = defaulted settings o)
       ∧ (validateObject (defaulted settings o) requiredFields = Passes
          → is_undefined
              (gameTypeDefaults settings
                 (get (defaulted settings o) "gameType")) = true
          → outcome_of (parseGameInfo settings filePath pkg) = Rejected
            ∧ hftInfo_after (parseGameInfo settings filePath pkg)
              = defaulted settings o)
       ∧ (validateObject (defaulted settings o) requiredFields = Passes
          → is_undefined
              (gameTypeDefaults settings
                 (get (defaulted settings o) "gameType")) = false
          → keys_are_versions settings
          → (∀ v, ¬ satisfying settings (defaulted settings o) v)
          → apiVersionSettings settings !! unsupportedApiVersion = None
          → outcome_of (parseGameInfo settings filePath pkg) = Rejected
            ∧ hftInfo_after (parseGameInfo settings filePath pkg)
              = set "versionSettings" VUndefined
                  (set "needNewHFT" (VBool true) (defaulted settings o))
            ∧ get (hftInfo_after (parseGameInfo settings filePath pkg))
                "needNewHFT" = VBool true)
       ∧ (key_converts settings o = false
          → outcome_of (parseGameInfo settings filePath pkg)
            = Threw (TypeError cannot_convert)
            ∧ hftInfo_after (parseGameInfo settings filePath pkg)
              = applyDefaultProperties o (VObj (hftDefaults settings))))
  ∧ (outcome_of
       (parseGameInfo Sample.settings Sample.filePath
          (Sample.package (<[ "gameId" := VStr "f/oo" ]> (Sample.manifest "1.0.0"))))
     = Rejected
     ∧ hftInfo_after
         (parseGameInfo Sample.settings Sample.filePath
            (Sample.package (<[ "gameId" := VStr "f/oo" ]> (Sample.manifest "1.0.0"))))
       ≠ <[ "gameId" := VStr "f/oo" ]> (Sample.manifest "1.0.0")).
Proof.
  split.
  - intros settings filePath pkg o Ho.
    split; [|split; [|split; [|split; [|split; [|split]]]]].
    + intros key v. apply defaulted_own.
    + intros key v. apply defaulted_global.
    + intros key v gt perType. apply defaulted_perType.
    + intros e Hk He. by rewrite (invalid_call _ _ _ _ _ Ho Hk He).
    + intros Hv Hg. by rewrite (unknown_gameType_call _ _ _ _ Ho Hv Hg).
    + intros Hv Hg _ Hnone%none_satisfying Hfb.
      destruct (unresolved_call _ filePath _ _ Ho Hv Hg Hnone Hfb)
        as (Hout & Hafter & _).
      split; [done|]. split; [done|].
      by rewrite Hafter, get_set_ne, get_set_eq.
    + intros Hk. rewrite (unconvertible_call _ _ _ _ Ho Hk).
      split; [done|]. unfold hftInfo_after, defaulted, key_converts in *.
      cbn. by rewrite Hk.
  - split; [by vm_compute|].
    intros Heq.
    assert (Hl : hftInfo_after
         (parseGameInfo Sample.settings Sample.filePath
            (Sample.package (<[ "gameId" := VStr "f/oo" ]> (Sample.manifest "1.0.0"))))
         !! "gameType" = Some (VStr "html")) by by vm_compute.
    rewrite Heq in Hl. by vm_compute in Hl.
Qed.


(** An accepted call went through [finish] with a bundle attached. *)
Lemma accepted_call (settings : Settings) (filePath : string)
    (pkg : PackageInfo) :
  outcome_of (parseGameInfo settings filePath pkg) = Accepted
  → ∃ bundle,
      get (hftInfo_after (parseGameInfo settings filePath pkg))
        "versionSettings" = VObj bundle.
Proof.
  destruct (happyFunTimes pkg) as [o|] eqn:Ho;
    [|by rewrite (missing_section_call _ _ _ Ho)].
  destruct (key_converts settings o) eqn:Hk;
    [|by rewrite (unconvertible_call _ _ _ _ Ho Hk)].
  destruct (validateObject (defaulted settings o) requiredFields) as [|e]
    eqn:Hv; [|by rewrite (invalid_call _ _ _ _ _ Ho Hk Hv)].
  destruct (is_undefined
              (gameTypeDefaults settings
                 (get (defaulted settings o) "gameType"))) eqn:Hg;
    [by rewrite (unknown_gameType_call _ _ _ _ Ho Hv Hg)|].
  destruct (Semver.maxSatisfying (Object_keys (apiVersionSettings settings))
              (need (defaulted settings o))) as [best|] eqn:Hmax.
  - destruct (maxSatisfying_Some _ _ _ Hmax) as ([b Hb]%Object_keys_elem_of & _).
    rewrite (resolved_call _ filePath _ _ _ _ Ho Hv Hg Hmax Hb).
    intros _. exists b. rewrite finish_call_frame by not_listed.
    apply get_set_eq.
  - destruct (apiVersionSettings settings !! unsupportedApiVersion)
      as [b|] eqn:Hfb.
    + destruct (fallback_call _ filePath _ _ _ Ho Hv Hg Hmax Hfb) as [c ->].
      intros _. exists b. rewrite finish_call_frame by not_listed.
      apply get_set_eq.
    + destruct (unresolved_call _ filePath _ _ Ho Hv Hg Hmax Hfb) as (-> & _).
      done.
Qed.

(** C2, as amended.  When the manifest has passed validation and the
    game type check and, the keys of [apiVersionSettings] being
    versions, none of them satisfies the range, [needNewHFT = true] is
    set and [versionSettings] becomes what the settings hold under the
    fallback key.  The call returns nothing, without a throw, when they
    hold nothing there; when they hold a bundle it goes on, and how it
    ends is for the steps that follow to say: the guard on the game
    type, the two URLs, the executable.  And whenever a call returns the
    package, its manifest has a [versionSettings] bundle. *)
Theorem unsupported_version_flagged :
  (∀ (settings : Settings) (filePath : string) (pkg : PackageInfo)
     (o : gmap string value),
     happyFunTimes pkg = Some o
     → validateObject (defaulted settings o) requiredFields = Passes
     → is_undefined
         (gameTypeDefaults settings (get (defaulted settings o) "gameType"))
       = false
     → keys_are_versions settings
     → (∀ v, ¬ satisfying settings (defaulted settings o) v)
     → get (hftInfo_after (parseGameInfo settings filePath pkg)) "needNewHFT"
       = VBool true
       ∧ get (hftInfo_after (parseGameInfo settings filePath pkg))
           "versionSettings"
         = match apiVersionSettings settings !! unsupportedApiVersion with
           | Some bundle => VObj bundle
           | None => VUndefined
           end
       ∧ (apiVersionSettings settings !! unsupportedApiVersion = None
          → outcome_of (parseGameInfo settings filePath pkg) = Rejected)
       ∧ (is_Some (apiVersionSettings settings !! unsupportedApiVersion)
          → outcome_of (parseGameInfo settings filePath pkg)
            = if truthy (get (defaulted settings o) "gameType") then
                if urls_convert (defaulted settings o) then
                  if executable_passes (Path.dirname filePath)
                       (defaulted settings o)
                  then Accepted
                  else Threw (executable_fault (Path.dirname filePath)
                                (defaulted settings o))
                else Threw (TypeError cannot_convert)
              else Rejected))
  ∧ (∀ (settings : Settings) (filePath : string) (pkg : PackageInfo),
       outcome_of (parseGameInfo settings filePath pkg) = Accepted
       → returned (parseGameInfo settings filePath pkg)
         = Some (packageInfo_after (parseGameInfo settings filePath pkg))
         ∧ ∃ bundle,
             get (hftInfo_after (parseGameInfo settings filePath pkg))
               "versionSettings" = VObj bundle).
Proof.
  split.
  - intros settings filePath pkg o Ho Hv Hg _ Hnone%none_satisfying.
    assert (Hgoes : is_Some (apiVersionSettings settings
                               !! unsupportedApiVersion)
      → outcome_of (parseGameInfo settings filePath pkg)
        = if truthy (get (defaulted settings o) "gameType") then
            if urls_convert (defaulted settings o) then
              if executable_passes (Path.dirname filePath)
                   (defaulted settings o)
              then Accepted
              else Threw (executable_fault (Path.dirname filePath)
                            (defaulted settings o))
            else Threw (TypeError cannot_convert)
          else Rejected).
    { intros [b Hb]. rewrite outcome_cases, Ho. cbv zeta.
      rewrite (valid_key_converts _ _ Hv), Hv, Hg.
      unfold bestVersion. rewrite Hnone. cbn [from_option]. unfold id.
      by rewrite Hb. }
    destruct (apiVersionSettings settings !! unsupportedApiVersion)
      as [b|] eqn:Hfb.
    + destruct (fallback_call _ filePath _ _ _ Ho Hv Hg Hnone Hfb) as [c Hcall].
      split; [|split; [|split; [done|done]]].
      * rewrite Hcall, finish_call_frame by not_listed. cbn [hftInfo].
        by rewrite get_set_ne, get_set_eq.
      * rewrite Hcall, finish_call_frame by not_listed. cbn [hftInfo].
        by rewrite get_set_eq.
    + destruct (unresolved_call _ filePath _ _ Ho Hv Hg Hnone Hfb)
        as (Hout & -> & _).
      rewrite get_set_eq, get_set_ne, get_set_eq by done.
      split; [done|]. split; [done|]. split; [done|].
      by intros [? ?].
  - intros settings filePath pkg Hacc. split.
    + unfold returned. by rewrite Hacc.
    + by apply accepted_call.
Qed.

(** *** Claims about accepted manifests *)

(** C1, as amended.  For a manifest that has passed validation (so its
    [apiVersion] is a valid version) and the game type check, when, the
    keys of [apiVersionSettings] being versions, some key satisfies
    ['^' + apiVersion]: the call attaches as [versionSettings] the bundle
    of a satisfying key that no satisfying key is higher than (and that
    is higher than every other satisfying key, when no two keys are the
    same version), and leaves [needNewHFT] as the manifest with its
    defaults had it (it is not set to [false]).  With the keys 1.0.0,
    1.2.0 and 2.0.0 and the request 1.0.0 the bundle is that of
    1.2.0. *)
Theorem best_version_attached :
  (∀ (settings : Settings) (filePath : string) (pkg : PackageInfo)
     (o : gmap string value),
     happyFunTimes pkg = Some o
     → validateObject (defaulted settings o) requiredFields = Passes
     → is_undefined
         (gameTypeDefaults settings (get (defaulted settings o) "gameType"))
       = false
     → keys_are_versions settings
     → (∃ v, satisfying settings (defaulted settings o) v)
     → ∃ best bundle,
         apiVersionSettings settings !! best = Some bundle
         ∧ satisfying settings (defaulted settings o) best
         ∧ (∀ v, satisfying settings (defaulted settings o) v
                 → Semver.higher v best = false)
         ∧ (keys_differ settings
            → ∀ v, satisfying settings (defaulted settings o) v
                   → v ≠ best
                   → Semver.higher best v = true)
         ∧ get (hftInfo_after (parseGameInfo settings filePath pkg))
             "versionSettings" = VObj bundle
         ∧ get (hftInfo_after (parseGameInfo settings filePath pkg))
             "needNewHFT" = get (defaulted settings o) "needNewHFT")
  ∧ (outcome_of
       (parseGameInfo Sample.settings Sample.filePath
          (Sample.package (Sample.manifest "1.0.0"))) = Accepted
     ∧ get (hftInfo_after
              (parseGameInfo Sample.settings Sample.filePath
                 (Sample.package (Sample.manifest "1.0.0"))))
         "versionSettings" = VObj (Sample.bundle "1.2.0")).
Proof.
  split; [|by vm_compute].
  intros settings filePath pkg o Ho Hv Hg _ [v Hsat].
  destruct (Semver.maxSatisfying (Object_keys (apiVersionSettings settings))
              (need (defaulted settings o))) as [best|] eqn:Hmax.
  - destruct (maxSatisfying_Some _ _ _ Hmax)
      as (Hin%Object_keys_elem_of & Hbest & Hhigh).
    destruct Hin as [bundle Hb].
    exists best, bundle. split; [done|]. split; [by split|].
    assert (Hmost : ∀ w, satisfying settings (defaulted settings o) w
                         → Semver.higher w best = false).
    { intros w [Hw%Object_keys_elem_of Hws]. by apply Hhigh. }
    split; [done|]. split.
    + intros Hdiffer w Hw Hne.
      destruct (Hdiffer w best (proj1 Hw) (ex_intro _ bundle Hb) Hne)
        as [Hhigher|Hhigher]; [|done].
      by rewrite (Hmost w Hw) in Hhigher.
    + rewrite (resolved_call _ filePath _ _ _ _ Ho Hv Hg Hmax Hb).
      rewrite !finish_call_frame by not_listed. cbn [hftInfo].
      by rewrite get_set_eq, get_set_ne.
  - pose proof (proj2 (none_satisfying _ _) Hmax) as Hno. by destruct (Hno v).
Qed.

(** C9, as amended.  A manifest whose required fields validate once the
    defaults are in, whose [gameType] is a non-empty key of
    [hftGameTypeDefaults], whose [apiVersion] is matched by some key of
    [apiVersionSettings] (all of them versions), whose [gameUrl] and
    [screenshotUrl] can be converted to strings, and whose
    [gameExecutable], if it has one, is a string that resolves inside the
    game's directory: the call returns the package, and its [basePath] is
    exactly the directory part of the manifest file's path. *)
Theorem valid_manifest_accepted
    (settings : Settings) (filePath : string) (pkg : PackageInfo)
    (o : gmap string value) (gt : string) :
  happyFunTimes pkg = Some o
  → validateObject (defaulted settings o) requiredFields = Passes
  → get (defaulted settings o) "gameType" = VStr gt
  → gt ≠ ""
  → is_Some (hftGameTypeDefaults settings !! gt)
  → keys_are_versions settings
  → (∃ v, satisfying settings (defaulted settings o) v)
  → converts (get (defaulted settings o) "gameUrl") = true
  → converts (get (defaulted settings o) "screenshotUrl") = true
  → (truthy (get (defaulted settings o) "gameExecutable") = false
     ∨ ∃ exe,
         get (defaulted settings o) "gameExecutable" = VStr exe
         ∧ inside_dir (Path.dirname filePath)
             (Path.normalize (Path.join [Path.dirname filePath; exe]))
           = true)
  → outcome_of (parseGameInfo settings filePath pkg) = Accepted
    ∧ returned (parseGameInfo settings filePath pkg)
      = Some (packageInfo_after (parseGameInfo settings filePath pkg))
    ∧ hftInfo_after (parseGameInfo settings filePath pkg) !! "basePath"
      = Some (VStr (Path.dirname filePath)).
Proof.
  intros Ho Hv Hgt Hne [defaults Hkey] _ [v Hsat] Hurl1 Hurl2 Hexe.
  assert (Hg : is_undefined
                 (gameTypeDefaults settings
                    (get (defaulted settings o) "gameType")) = false).
  { rewrite Hgt. apply known_gameType_iff. left. by exists defaults. }
  assert (Hbest : is_Some (apiVersionSettings settings
                             !! bestVersion settings (defaulted settings o))).
  { unfold bestVersion.
    destruct (Semver.maxSatisfying
                (Object_keys (apiVersionSettings settings))
                (need (defaulted settings o))) as [best|] eqn:Hmax.
    - by destruct (maxSatisfying_Some _ _ _ Hmax)
        as (?%Object_keys_elem_of & _).
    - pose proof (proj2 (none_satisfying _ _) Hmax) as Hno.
      by destruct (Hno v). }
  assert (Hpass : executable_passes (Path.dirname filePath)
                    (defaulted settings o) = true).
  { unfold executable_passes.
    destruct Hexe as [->|(exe & -> & Hin)]; [done|].
    destruct (truthy (VStr exe)); [|done].
    by apply inside_dir_prefix. }
  assert (Hacc : outcome_of (parseGameInfo settings filePath pkg) = Accepted).
  { rewrite outcome_cases, Ho. cbv zeta.
    rewrite (valid_key_converts _ _ Hv), Hv, Hg.
    destruct Hbest as [bundle ->].
    rewrite Hgt. cbn [truthy].
    rewrite (bool_decide_eq_false_2 _ Hne). cbn [negb].
    unfold urls_convert.
    by rewrite !(valid_url_converts _ _ Hv), Hurl1, Hurl2, Hpass. }
  split; [done|]. split; [unfold returned; by rewrite Hacc|].
  destruct (accepted_manifest _ _ _ _ Ho Hacc) as (bundle & _ & _ & ->).
  apply lookup_insert_eq.
Qed.

(** *** Claims about the defaults *)

(** C4.  The global defaults go in first, and the defaults of the game
    type are looked up under the [gameType] the manifest has by then (a
    [gameType] that cannot be made a property name stops the call there,
    with the global defaults in).  So
    a manifest with neither [gameType] nor [minPlayers], under global
    defaults that give [gameType: "html"] (and no [minPlayers]) and
    defaults [minPlayers: 2] for ["html"], ends up with [gameType "html"]
    and [minPlayers 2], on the sample too; and when [hftGameTypeDefaults]
    has no entry for the game type, the second step changes nothing. *)
Theorem gameType_defaults_follow_global :
  (∀ (settings : Settings) (o : gmap string value) (c : list string),
     apply_defaults settings (mkHeap o c)
     = if converts
            (get (applyDefaultProperties o (VObj (hftDefaults settings)))
               "gameType")
       then
         (mkHeap
            (applyDefaultProperties
               (applyDefaultProperties o (VObj (hftDefaults settings)))
               (gameTypeDefaults settings
                  (get (applyDefaultProperties o
                          (VObj (hftDefaults settings)))
                     "gameType")))
            c,
          Normal ())
       else
         (mkHeap (applyDefaultProperties o (VObj (hftDefaults settings))) c,
          Throw (TypeError cannot_convert)))
  ∧ (∀ (settings : Settings) (filePath : string) (pkg : PackageInfo)
       (o perType : gmap string value),
       happyFunTimes pkg = Some o
       → o !! "gameType" = None
       → o !! "minPlayers" = None
       → hftDefaults settings !! "gameType" = Some (VStr "html")
       → hftDefaults settings !! "minPlayers" = None
       → hftGameTypeDefaults settings !! "html" = Some perType
       → perType !! "minPlayers" = Some (VNum 2)
       → get (hftInfo_after (parseGameInfo settings filePath pkg)) "gameType"
         = VStr "html"
         ∧ get (hftInfo_after (parseGameInfo settings filePath pkg))
             "minPlayers" = VNum 2)
  ∧ (∀ (settings : Settings) (o : gmap string value) (gameType : value),
       hftGameTypeDefaults settings !! to_string gameType = None
       → applyDefaultProperties o (gameTypeDefaults settings gameType) = o)
  ∧ (get (hftInfo_after
            (parseGameInfo Sample.settings Sample.filePath
               (Sample.package (Sample.manifest "1.0.0")))) "gameType"
     = VStr "html"
     ∧ get (hftInfo_after
              (parseGameInfo Sample.settings Sample.filePath
                 (Sample.package (Sample.manifest "1.0.0")))) "minPlayers"
       = VNum 2).
Proof.
  split; [|split; [|split; [|by vm_compute]]].
  - intros settings o c. rewrite apply_defaults_run.
    unfold defaulted, key_converts. cbv zeta.
    by destruct (converts _).
  - intros settings filePath pkg o perType Ho Hgt Hmp Hglobal Hnomp Hper Hmin.
    assert (H1 : applyDefaultProperties o (VObj (hftDefaults settings))
                 !! "gameType" = Some (VStr "html")).
    { rewrite applyDefaultProperties_object, lookup_union.
      by rewrite Hgt, Hglobal. }
    assert (H2 : applyDefaultProperties o (VObj (hftDefaults settings))
                 !! "minPlayers" = None).
    { rewrite applyDefaultProperties_object, lookup_union.
      by rewrite Hmp, Hnomp. }
    assert (Hd : defaulted settings o
                 = applyDefaultProperties o (VObj (hftDefaults settings))
                   ∪ perType).
    { unfold defaulted. rewrite (get_own _ _ _ H1). cbn [converts].
      unfold gameTypeDefaults, hftGameTypeDefaults_at.
      change (to_string (VStr "html")) with "html".
      rewrite (get_bundle_own _ _ _ Hper).
      apply applyDefaultProperties_object. }
    unfold get.
    rewrite !(call_frame _ _ _ _ _ Ho) by not_listed.
    rewrite Hd, !lookup_union, H1, H2, Hmin.
    by destruct (perType !! "gameType").
  - intros settings o gameType Hnone.
    apply applyDefaultProperties_none.
    unfold gameTypeDefaults, hftGameTypeDefaults_at, get.
    rewrite lookup_fmap, Hnone. cbn. by destruct (bool_decide _).
Qed.

(** *** Claims about the game's executable *)

(** C6.  The test on the executable is a raw prefix test of the
    normalized path against the directory, with no separator after the
    prefix: [check_gameExecutable] throws exactly when the directory is
    not a prefix of the path.  With the directory [/games/foo] and
    [gameExecutable "../foobar/x.exe"] the path normalizes to
    [/games/foobar/x.exe], outside the directory, and the call returns the
    package without a throw. *)
Theorem executable_test_is_raw_prefix :
  (∀ (base exe : string) (o : gmap string value) (c : list string),
     get o "gameExecutable" = VStr exe
     → exe ≠ ""
     → (check_gameExecutable base (mkHeap o c)).2
       = if String.prefix base (Path.normalize (Path.join [base; exe]))
         then Normal ()
         else Throw (ThrownString
                       ("bad path for game executable: "
                        +:+ Path.normalize (Path.join [base; exe]))))
  ∧ Path.dirname Sample.filePath = "/games/foo"
  ∧ Path.normalize (Path.join ["/games/foo"; "../foobar/x.exe"])
    = "/games/foobar/x.exe"
  ∧ inside_dir "/games/foo" "/games/foobar/x.exe" = false
  ∧ String.prefix "/games/foo" "/games/foobar/x.exe" = true
  ∧ outcome_of
      (parseGameInfo Sample.settings Sample.filePath
         (Sample.package
            (<[ "gameExecutable" := VStr "../foobar/x.exe" ]>
               (Sample.manifest "1.0.0")))) = Accepted
  ∧ get (hftInfo_after
           (parseGameInfo Sample.settings Sample.filePath
              (Sample.package
                 (<[ "gameExecutable" := VStr "../foobar/x.exe" ]>
                    (Sample.manifest "1.0.0"))))) "gameExecutable"
    = VStr "/games/foobar/x.exe".
Proof.
  split; [|by vm_compute].
  intros base exe o c Hexe Hne.
  rewrite check_gameExecutable_run, Hexe. cbn [truthy].
  rewrite (bool_decide_eq_false_2 _ Hne). cbn [negb]. cbv zeta.
  rewrite prefix_test. by destruct (String.prefix _ _).
Qed.

(** ** Further properties *)

(** X1.  [validateObject] stops at the first field, in the order of the
    table, whose validator throws: it throws exactly when the table splits
    into fields that pass, a field whose validator throws some reason and
    a rest that is never looked at, and the message is the field's name,
    [": "] and that reason. *)
Theorem validateObject_first_failure (o : gmap string value)
    (validators : list (string * (value → check))) (msg : string) :
  validateObject o validators = Throws msg
  ↔ ∃ before field type rest reason,
      validators = (before ++ (field, type) :: rest)%list
      ∧ (∀ f t, (f, t) ∈ before → t (get o f) = Passes)
      ∧ type (get o field) = Throws reason
      ∧ msg = field +:+ ": " +:+ reason.
Proof.
  revert msg. induction validators as [|[f t] vs IH]; intros msg.
  - split; [done|]. intros (before & ? & ? & ? & ? & Heq & _).
    by destruct before.
  - change (validateObject o ((f, t) :: vs))
      with (match t (get o f) with
            | Throws e => Throws (f +:+ ": " +:+ e)
            | Passes => validateObject o vs
            end).
    destruct (t (get o f)) as [|e] eqn:Ht.
    + rewrite IH. split.
      * intros (before & field & type & rest & reason & -> & Hb & Hf & ->).
        exists ((f, t) :: before), field, type, rest, reason.
        split; [done|]. split; [|done].
        intros f' t' [[= -> ->]|Hin]%elem_of_cons; auto.
      * intros (before & field & type & rest & reason & Heq & Hb & Hf & ->).
        destruct before as [|[f' t'] before]; cbn in Heq.
        -- injection Heq as -> -> ->. congruence.
        -- injection Heq as -> -> ->.
           exists before, field, type, rest, reason.
           split; [done|]. split; [|done].
           intros f0 t0 Hin. apply Hb. by right.
    + split.
      * intros [= <-]. exists [], f, t, vs, e. split; [done|].
        split; [|done]. intros f' t' Hin. by apply elem_of_nil in Hin.
      * intros (before & field & type & rest & reason & Heq & Hb & Hf & ->).
        destruct before as [|[f' t'] before]; cbn in Heq.
        -- injection Heq as -> -> ->. congruence.
        -- injection Heq as Hf1 Ht1 Hvs.
           specialize (Hb f' t' ltac:(left)). congruence.
Qed.

(** X2.  What [validGameId] does with values that are not strings.  A
    falsy value of any type ([null], [false], [0], the absent id) is "not
    defined"; an object never passes: its string form has characters that
    are not allowed, and when it has a [toString] member of its own the
    test of line 76 cannot convert it and throws a TypeError; and an
    array of one string passes whenever the string is made of the allowed
    characters, however long it is, because the array is tested through
    its string form and measured by its number of elements. *)
Theorem validGameId_coerces :
  (∀ v, truthy v = false → validGameId v = Throws "gameId not defined")
  ∧ (∀ o, validGameId (VObj o)
          = if bool_decide (o !! "toString" = None) then
              Throws
                "invalid characters in gameId only A-Z a-z 0-9 _ - allowed"
            else Throws ("TypeError: " +:+ cannot_convert))
  ∧ (∀ s, s ≠ ""
          → (∀ c, c ∈ String.list_ascii_of_string s → c ∈ spec_id_chars)
          → validGameId (VArr [VStr s]) = Passes).
Proof.
  split; [|split].
  - intros v Hv. unfold validGameId. by rewrite Hv.
  - intros o. unfold validGameId. cbn [truthy negb converts].
    destruct (bool_decide (o !! "toString" = None)); [|done].
    cbn [negb]. by rewrite (proj1 (idRE_rejects_objects o "")).
  - intros s Hne Hcs. unfold validGameId. cbn [truthy negb].
    assert (Hs : to_string (VArr [VStr s]) = s).
    { cbn. unfold Str.join. cbn. done. }
    assert (Hc : converts (VArr [VStr s]) = true) by done.
    rewrite Hc, Hs. cbn [negb].
    assert (idRE_test s = true) as -> by by apply idRE_test_spec.
    done.
Qed.

Section CallProperties.

Variable settings : Settings.
Variable filePath : string.

(** The settings hold a bundle under the best version when some key
    satisfies the range, or when they hold one under the fallback key. *)
Lemma best_bundle_iff (d : gmap string value) :
  is_Some (apiVersionSettings settings !! bestVersion settings d)
  ↔ (∃ v, satisfying settings d v)
    ∨ is_Some (apiVersionSettings settings !! unsupportedApiVersion).
Proof.
  unfold bestVersion.
  destruct (Semver.maxSatisfying (Object_keys (apiVersionSettings settings))
              (need d)) as [best|] eqn:Hmax; cbn [default from_option].
  - destruct (maxSatisfying_Some _ _ _ Hmax)
      as (Hin%Object_keys_elem_of & Hsat & _).
    split; [|done]. intros _. left. by exists best.
  - pose proof (proj2 (none_satisfying _ _) Hmax) as Hno.
    split; [by right|]. intros [[v Hv]|?]; [by destruct (Hno v)|done].
Qed.

(** A valid manifest whose game type got through lines 236 and 269. *)
Lemma checked_gameType_iff (d : gmap string value) :
  validateObject d requiredFields = Passes
  → is_undefined (gameTypeDefaults settings (get d "gameType")) = false
    ∧ truthy (get d "gameType") = true
    ↔ ∃ gt,
        get d "gameType" = VStr gt
        ∧ gt ≠ ""
        ∧ (is_Some (hftGameTypeDefaults settings !! gt)
           ∨ gt ∈ Object_prototype).
Proof.
  intros Hv. destruct (valid_gameType_string _ Hv) as [gt Hgt].
  rewrite Hgt, known_gameType_iff. cbn [truthy]. split.
  - intros [Hk Ht]. exists gt. split; [done|]. split; [|done].
    intros ->. done.
  - intros (gt' & [= <-] & Hne & Hk). split; [done|].
    by rewrite (bool_decide_eq_false_2 _ Hne).
Qed.

(** What an accepted call went through. *)
Lemma accepted_walk (pkg : PackageInfo) (o : gmap string value) :
  happyFunTimes pkg = Some o
  → outcome_of (parseGameInfo settings filePath pkg) = Accepted
    ↔ validateObject (defaulted settings o) requiredFields = Passes
      ∧ (is_undefined
           (gameTypeDefaults settings (get (defaulted settings o) "gameType"))
         = false
         ∧ truthy (get (defaulted settings o) "gameType") = true)
      ∧ is_Some (apiVersionSettings settings
                   !! bestVersion settings (defaulted settings o))
      ∧ converts (get (defaulted settings o) "gameUrl") = true
      ∧ converts (get (defaulted settings o) "screenshotUrl") = true
      ∧ executable_passes (Path.dirname filePath) (defaulted settings o)
        = true.
Proof.
  intros Ho. rewrite outcome_cases, Ho. cbv zeta. split.
  - destruct (key_converts settings o); [|done].
    destruct (validateObject _ _) eqn:Hv; [|done].
    destruct (is_undefined _) eqn:Hg; [done|].
    destruct (apiVersionSettings settings !! _) eqn:Hb; [|done].
    destruct (truthy _) eqn:Ht; [|done].
    unfold urls_convert. rewrite !(valid_url_converts _ _ Hv).
    destruct (converts (get _ "gameUrl")); [|done].
    destruct (converts (get _ "screenshotUrl")); [|done].
    destruct (executable_passes _ _) eqn:He; [|done].
    by repeat split.
  - intros (Hv & [Hg Ht] & [b Hb] & Hu1 & Hu2 & He).
    rewrite (valid_key_converts _ _ Hv), Hv, Hg, Hb, Ht.
    unfold urls_convert.
    by rewrite !(valid_url_converts _ _ Hv), Hu1, Hu2, He.
Qed.

(** X3.  On a package (an object whose section is absent, falsy or an
    object) and with settings whose [apiVersionSettings] keys are
    versions, a call returns the package exactly when: the section is
    there; the required fields validate with the defaults in; the game
    type is a non-empty string that is a key of [hftGameTypeDefaults] or
    the name of a member every object inherits; some key satisfies the
    requested range or the settings hold a bundle under the fallback
    key; [gameUrl] and [screenshotUrl] can be converted to strings; and
    the executable, if any, passes its test. *)
Theorem accepted_exactly_when (pkg : PackageInfo) :
  keys_are_versions settings
  → outcome_of (parseGameInfo settings filePath pkg) = Accepted
    ↔ ∃ o gt,
        happyFunTimes pkg = Some o
        ∧ validateObject (defaulted settings o) requiredFields = Passes
        ∧ get (defaulted settings o) "gameType" = VStr gt
        ∧ gt ≠ ""
        ∧ (is_Some (hftGameTypeDefaults settings !! gt)
           ∨ gt ∈ Object_prototype)
        ∧ ((∃ v, satisfying settings (defaulted settings o) v)
           ∨ is_Some (apiVersionSettings settings !! unsupportedApiVersion))
        ∧ converts (get (defaulted settings o) "gameUrl") = true
        ∧ converts (get (defaulted settings o) "screenshotUrl") = true
        ∧ executable_passes (Path.dirname filePath) (defaulted settings o)
          = true.
Proof.
  intros _. split.
  - destruct (happyFunTimes pkg) as [o|] eqn:Ho;
      [|by rewrite (missing_section_call _ _ _ Ho)].
    intros (Hv & Hgt & Hb & Hu1 & Hu2 & He)%(accepted_walk _ _ Ho).
    apply (checked_gameType_iff _ Hv) in Hgt as (gt & Hgt & Hne & Hk).
    apply best_bundle_iff in Hb.
    exists o, gt. by repeat split.
  - intros (o & gt & Ho & Hv & Hgt & Hne & Hk & Hb & Hu1 & Hu2 & He).
    apply (accepted_walk _ _ Ho). split; [done|]. split.
    + apply (checked_gameType_iff _ Hv). by exists gt.
    + split; [by apply best_bundle_iff|done].
Qed.

(** X4.  On a package (an object whose section is absent, falsy or an
    object) and with settings whose [apiVersionSettings] keys are
    versions, a call throws from three places and no other.  From line
    226, when the game type the global defaults leave cannot be made a
    property name: a TypeError.  From line 288, when everything before
    went through and [gameUrl] or [screenshotUrl] cannot be converted to
    a string: a TypeError.  From the test on the executable, when the
    URLs went through and the executable is truthy and either no string
    or a string whose normalized join does not start with the directory:
    the TypeError of [path.join] or the "bad path" string.  The console
    then ends with ["ERROR: Parsing " + filePath]. *)
Theorem throws_from_three_places (pkg : PackageInfo) (e : thrown) :
  keys_are_versions settings
  → (outcome_of (parseGameInfo settings filePath pkg) = Threw e
     ↔ ∃ o,
         happyFunTimes pkg = Some o
         ∧ (converts
              (get (applyDefaultProperties o (VObj (hftDefaults settings)))
                 "gameType") = false
            ∧ e = TypeError cannot_convert
            ∨ ∃ gt,
                validateObject (defaulted settings o) requiredFields = Passes
                ∧ get (defaulted settings o) "gameType" = VStr gt
                ∧ gt ≠ ""
                ∧ (is_Some (hftGameTypeDefaults settings !! gt)
                   ∨ gt ∈ Object_prototype)
                ∧ ((∃ v, satisfying settings (defaulted settings o) v)
                   ∨ is_Some (apiVersionSettings settings
                                !! unsupportedApiVersion))
                ∧ (converts (get (defaulted settings o) "gameUrl")
                   && converts (get (defaulted settings o) "screenshotUrl")
                   = false
                   ∧ e = TypeError cannot_convert
                   ∨ converts (get (defaulted settings o) "gameUrl")
                     && converts (get (defaulted settings o) "screenshotUrl")
                     = true
                     ∧ executable_passes (Path.dirname filePath)
                         (defaulted settings o) = false
                     ∧ e = executable_fault (Path.dirname filePath)
                             (defaulted settings o))))
    ∧ (outcome_of (parseGameInfo settings filePath pkg) = Threw e
       → last (console_after (parseGameInfo settings filePath pkg))
         = Some ("ERROR: Parsing " +:+ filePath)).
Proof.
  intros _. split; [|apply thrown_call_console].
  rewrite outcome_cases. split.
  - destruct (happyFunTimes pkg) as [o|]; [|done]. cbv zeta.
    unfold key_converts.
    destruct (converts _) eqn:Hk;
      [|intros [= <-]; exists o; split; [done|by left]].
    destruct (validateObject _ _) eqn:Hv; [|done].
    destruct (is_undefined _) eqn:Hg; [done|].
    destruct (apiVersionSettings settings !! _) eqn:Hb; [|done].
    destruct (truthy _) eqn:Ht; [|done].
    destruct (proj1 (checked_gameType_iff _ Hv) (conj Hg Ht))
      as (gt & Hgt & Hne & Hknown).
    assert (Hbest : (∃ v, satisfying settings (defaulted settings o) v)
                    ∨ is_Some (apiVersionSettings settings
                                 !! unsupportedApiVersion)).
    { apply best_bundle_iff. by rewrite Hb. }
    unfold urls_convert. rewrite !(valid_url_converts _ _ Hv).
    destruct (converts (get _ "gameUrl") && converts (get _ "screenshotUrl"))
      eqn:Hu.
    + destruct (executable_passes _ _) eqn:He; [done|].
      intros [= <-]. exists o. split; [done|]. right. exists gt.
      repeat (split; [done|]). by right.
    + intros [= <-]. exists o. split; [done|]. right. exists gt.
      repeat (split; [done|]). by left.
  - intros (o & -> & [[Hk ->]|(gt & Hv & Hgt & Hne & Hknown & Hbest & Hend)]);
      cbv zeta.
    + unfold key_converts. by rewrite Hk.
    + rewrite (valid_key_converts _ _ Hv), Hv.
      destruct (proj2 (checked_gameType_iff _ Hv)
                  (ex_intro _ gt (conj Hgt (conj Hne Hknown)))) as [-> ->].
      apply best_bundle_iff in Hbest as [b ->].
      unfold urls_convert. rewrite !(valid_url_converts _ _ Hv).
      destruct Hend as [[-> ->]|(-> & -> & ->)]; done.
Qed.

(** X5.  In the package a call returns, [gameUrl] and [screenshotUrl]
    are rooted under the game's public path: a truthy value becomes
    ["/games/" + gameId + "/" + value], with the [gameId] and the value
    of the manifest with its defaults; a falsy or absent one is left as
    it was. *)
Theorem urls_rooted_under_games (pkg : PackageInfo) (o : gmap string value)
    (name : string) :
  happyFunTimes pkg = Some o
  → outcome_of (parseGameInfo settings filePath pkg) = Accepted
  → name = "gameUrl" ∨ name = "screenshotUrl"
  → get (hftInfo_after (parseGameInfo settings filePath pkg)) name
    = if truthy (get (defaulted settings o) name)
      then VStr ("/games/" +:+ to_string (get (defaulted settings o) "gameId")
                 +:+ "/" +:+ to_string (get (defaulted settings o) name))
      else get (defaulted settings o) name.
Proof.
  intros Ho Hacc Hname.
  destruct (accepted_manifest _ filePath _ _ Ho Hacc)
    as (bundle & _ & _ & ->).
  cbv zeta.
  set (o1 := set "versionSettings" (VObj bundle)
               (flagged settings (defaulted settings o))).
  assert (H1 : ∀ key, key ≠ "needNewHFT" → key ≠ "versionSettings"
                      → get o1 key = get (defaulted settings o) key).
  { intros key ? ?. by apply versioned_get. }
  assert (Hout : ∀ o2,
    get (set "basePath" (VStr (Path.dirname filePath))
           (if truthy (get o1 "gameExecutable")
            then set "gameExecutable"
                   (VStr (Path.join [Path.dirname filePath;
                                     to_string (get o1 "gameExecutable")]))
                   o2
            else o2)) name = get o2 name).
  { intros o2. rewrite get_set_ne by (destruct Hname as [->| ->]; done).
    destruct (truthy _); [|done].
    apply get_set_ne. destruct Hname as [->| ->]; done. }
  rewrite Hout.
  destruct Hname as [->| ->].
  - rewrite fixed_url_get, fixed_url_get_same, !H1 by done. done.
  - rewrite fixed_url_get_same, !fixed_url_get, !H1 by done. done.
Qed.

(** X6.  In the package a call returns, [basePath] is the directory part
    of the manifest's path, whatever the manifest or the defaults said;
    and a truthy [gameExecutable] was a string and has become
    [path.join(basePath, gameExecutable)], a path whose normalized form
    starts with [basePath]; a falsy one is left as it was. *)
Theorem paths_of_accepted (pkg : PackageInfo) (o : gmap string value) :
  happyFunTimes pkg = Some o
  → outcome_of (parseGameInfo settings filePath pkg) = Accepted
  → hftInfo_after (parseGameInfo settings filePath pkg) !! "basePath"
    = Some (VStr (Path.dirname filePath))
    ∧ if truthy (get (defaulted settings o) "gameExecutable")
      then ∃ exe,
             get (defaulted settings o) "gameExecutable" = VStr exe
             ∧ get (hftInfo_after (parseGameInfo settings filePath pkg))
                 "gameExecutable"
               = VStr (Path.join [Path.dirname filePath; exe])
             ∧ String.prefix (Path.dirname filePath)
                 (Path.normalize (Path.join [Path.dirname filePath; exe]))
               = true
      else get (hftInfo_after (parseGameInfo settings filePath pkg))
             "gameExecutable"
           = get (defaulted settings o) "gameExecutable".
Proof.
  intros Ho Hacc.
  assert (He : executable_passes (Path.dirname filePath) (defaulted settings o)
               = true).
  { by apply (accepted_walk _ _ Ho) in Hacc as (_ & _ & _ & _ & _ & ?). }
  destruct (accepted_manifest _ filePath _ _ Ho Hacc)
    as (bundle & _ & _ & ->).
  cbv zeta. split; [apply lookup_insert_eq|].
  rewrite get_set_ne, versioned_get by done.
  unfold executable_passes in He.
  destruct (truthy (get (defaulted settings o) "gameExecutable")).
  - destruct (get (defaulted settings o) "gameExecutable") as [| | | |exe| | |];
      try done.
    exists exe. split; [done|]. split; [apply get_set_eq|done].
  - by rewrite !fixed_url_get, versioned_get.
Qed.

(** X7.  What a call leaves alone.  The other members of the package are
    never touched; a package without the section comes back as it went
    in; and past the two rounds of defaults the manifest changes in no
    property but [needNewHFT], [versionSettings], [gameUrl],
    [screenshotUrl], [gameExecutable] and [basePath], however the call
    ends. *)
Theorem only_assigned_properties_change (pkg : PackageInfo) :
  otherMembers (packageInfo_after (parseGameInfo settings filePath pkg))
  = otherMembers pkg
  ∧ (happyFunTimes pkg = None
     → packageInfo_after (parseGameInfo settings filePath pkg) = pkg)
  ∧ (∀ o key,
       happyFunTimes pkg = Some o
       → key ∉ assigned
       → hftInfo_after (parseGameInfo settings filePath pkg) !! key
         = defaulted settings o !! key).
Proof.
  split; [|split].
  - unfold parseGameInfo. by destruct (happyFunTimes pkg).
  - intros Hnone. by rewrite (missing_section_call _ _ _ Hnone).
  - intros o key. apply call_frame.
Qed.

(** X8.  The one rejection that prints nothing.  With settings whose
    [apiVersionSettings] keys are versions, a call returns nothing and
    leaves the console empty exactly when the manifest is valid, its
    game type is the empty string, the settings have a game type of that
    name, and some key satisfies the requested range: the exit of line
    270.  Every other rejection prints a diagnostic. *)
Theorem silent_rejection (pkg : PackageInfo) :
  keys_are_versions settings
  → outcome_of (parseGameInfo settings filePath pkg) = Rejected
    ∧ console_after (parseGameInfo settings filePath pkg) = []
    ↔ ∃ o,
        happyFunTimes pkg = Some o
        ∧ validateObject (defaulted settings o) requiredFields = Passes
        ∧ get (defaulted settings o) "gameType" = VStr ""
        ∧ is_Some (hftGameTypeDefaults settings !! "")
        ∧ ∃ v, satisfying settings (defaulted settings o) v.
Proof.
  intros _.
  assert (Hplain : "" ∉ Object_prototype) by not_listed.
  split.
  - intros [Hrej Hcon].
    destruct (happyFunTimes pkg) as [o|] eqn:Ho;
      [|by rewrite (missing_section_call _ _ _ Ho) in Hcon].
    destruct (key_converts settings o) eqn:Hk;
      [|by rewrite (unconvertible_call _ _ _ _ Ho Hk) in Hcon].
    destruct (validateObject (defaulted settings o) requiredFields) as [|e]
      eqn:Hv; [|by rewrite (invalid_call _ _ _ _ _ Ho Hk Hv) in Hcon].
    destruct (is_undefined
                (gameTypeDefaults settings
                   (get (defaulted settings o) "gameType"))) eqn:Hg;
      [by rewrite (unknown_gameType_call _ _ _ _ Ho Hv Hg) in Hcon|].
    rewrite outcome_cases, Ho in Hrej. cbv zeta in Hrej.
    rewrite Hk, Hv, Hg in Hrej.
    rewrite (version_cases _ _ _ _ Ho Hv Hg) in Hcon.
    destruct (apiVersionSettings settings !! _) as [bundle|] eqn:Hb.
    2:{ cbn in Hcon. by apply app_eq_nil in Hcon as [_ ?]. }
    destruct (truthy (get (defaulted settings o) "gameType")) eqn:Ht.
    { destruct (urls_convert _); [|done].
      by destruct (executable_passes _ _). }
    rewrite finish_cases, versioned_get, Ht in Hcon by done.
    cbn in Hcon.
    destruct (valid_gameType_string _ Hv) as [gt Hgt].
    assert (gt = "") as ->.
    { rewrite Hgt in Ht. cbn in Ht. apply negb_false_iff in Ht.
      by apply bool_decide_eq_true in Ht. }
    exists o. split; [done|]. split; [done|]. split; [done|]. split.
    + rewrite Hgt, (known_gameType_cases _ _ Hplain) in Hg.
      apply bool_decide_eq_false in Hg.
      by destruct (hftGameTypeDefaults settings !! "").
    + unfold upgrade_warning in Hcon.
      destruct (Semver.maxSatisfying _ _) as [best|] eqn:Hmax; [|done].
      destruct (maxSatisfying_Some _ _ _ Hmax)
        as (Hin%Object_keys_elem_of & Hsat & _).
      by exists best.
  - intros (o & Ho & Hv & Hgt & [defaults Hkey] & v & Hsat).
    assert (Hg : is_undefined
                   (gameTypeDefaults settings
                      (get (defaulted settings o) "gameType")) = false).
    { rewrite Hgt, (known_gameType_cases _ _ Hplain), Hkey. done. }
    destruct (Semver.maxSatisfying (Object_keys (apiVersionSettings settings))
                (need (defaulted settings o))) as [best|] eqn:Hmax.
    2:{ pose proof (proj2 (none_satisfying _ _) Hmax) as Hno.
        by destruct (Hno v). }
    destruct (maxSatisfying_Some _ _ _ Hmax)
      as ([bundle Hb]%Object_keys_elem_of & _).
    rewrite (version_cases _ _ _ _ Ho Hv Hg).
    unfold bestVersion, upgrade_warning, flagged. rewrite Hmax.
    cbn [from_option]. unfold id. rewrite Hb.
    rewrite finish_cases, get_set_ne, Hgt by done. done.
Qed.

(** X9.  With settings whose [apiVersionSettings] keys are versions, a
    call that returns the package has printed nothing when some key
    satisfied the requested range, and exactly the one line that asks
    for an upgrade when the bundle came from the fallback key. *)
Theorem console_of_accepted (pkg : PackageInfo) (o : gmap string value) :
  keys_are_versions settings
  → happyFunTimes pkg = Some o
  → outcome_of (parseGameInfo settings filePath pkg) = Accepted
  → ((∃ v, satisfying settings (defaulted settings o) v)
     → console_after (parseGameInfo settings filePath pkg) = [])
    ∧ ((∀ v, ¬ satisfying settings (defaulted settings o) v)
       → console_after (parseGameInfo settings filePath pkg)
         = ["error: " +:+ filePath +:+
              " requires unsupported api version: you probably need to upgrade happyFunTimes"]
         ∧ get (hftInfo_after (parseGameInfo settings filePath pkg))
             "needNewHFT" = VBool true).
Proof.
  intros _ Ho Hacc.
  destruct (accepted_manifest _ filePath _ _ Ho Hacc)
    as (bundle & _ & -> & ->).
  unfold upgrade_warning, flagged. split.
  - intros [v Hsat].
    destruct (Semver.maxSatisfying _ _) eqn:Hmax; [done|].
    pose proof (proj2 (none_satisfying _ _) Hmax) as Hno. by destruct (Hno v).
  - intros Hno%none_satisfying. rewrite Hno. split; [done|].
    cbv zeta. rewrite get_set_ne by done.
    assert (Hframe : ∀ o2,
      get (if truthy
                (get (set "versionSettings" (VObj bundle)
                        (set "needNewHFT" (VBool true) (defaulted settings o)))
                   "gameExecutable")
           then set "gameExecutable"
                  (VStr (Path.join
                           [Path.dirname filePath;
                            to_string
                              (get (set "versionSettings" (VObj bundle)
                                      (set "needNewHFT" (VBool true)
                                         (defaulted settings o)))
                                 "gameExecutable")])) o2
           else o2) "needNewHFT" = get o2 "needNewHFT").
    { intros o2. destruct (truthy _); [|done]. by apply get_set_ne. }
    rewrite Hframe, !fixed_url_get, get_set_ne, get_set_eq by done. done.
Qed.

End CallProperties.

(** *** The asset checks *)

Lemma forEach_test_entries (fileName : string) (checks : list file_check)
    (ndx : nat) (st : scan_state) :
  ∃ st',
    forEach_test fileName (Entry <$> checks) ndx st = Some st'
    ∧ (∀ j, j ∈ found st'
            ↔ j ∈ found st
              ∨ (ndx ≤ j)%nat
                ∧ ∃ check, checks !! (j - ndx)%nat = Some check
                           ∧ RegExp.test (re check) fileName = true)
    ∧ (foundCount st = size (found st) → foundCount st' = size (found st')).
Proof.
  revert ndx st. induction checks as [|check checks IH]; intros ndx st.
  - exists st. split; [done|]. split; [|done].
    intros j. split; [by left|]. intros [?|(_ & c & Hc & _)]; done.
  - cbn [fmap list_fmap forEach_test].
    destruct (bool_decide (ndx ∈ found st)) eqn:Hin.
    + apply bool_decide_eq_true in Hin.
      destruct (IH (S ndx) st) as (st' & -> & Hmem & Hsize).
      exists st'. split; [done|]. split; [|done].
      intros j. rewrite Hmem. split.
      * intros [?|(Hle & c & Hc & Ht)]; [by left|].
        right. split; [lia|]. exists c. split; [|done].
        by replace (j - ndx)%nat with (S (j - S ndx)) by lia.
      * intros [?|(Hle & c & Hc & Ht)]; [by left|].
        destruct (decide (j = ndx)) as [->|Hne]; [by left|].
        right. split; [lia|]. exists c. split; [|done].
        by replace (j - ndx)%nat with (S (j - S ndx)) in Hc by lia.
    + apply bool_decide_eq_false in Hin.
      destruct (IH (S ndx)
                  (if RegExp.test (re check) fileName
                   then mkScan ({[ndx]} ∪ found st) (S (foundCount st))
                   else st)) as (st' & -> & Hmem & Hsize).
      exists st'. split; [done|]. split.
      * intros j. rewrite Hmem. split.
        -- intros [Hj|(Hle & c & Hc & Ht)].
           ++ destruct (RegExp.test (re check) fileName) eqn:Ht; [|by left].
              cbn in Hj. apply elem_of_union in Hj as [->%elem_of_singleton|?];
                [|by left].
              right. split; [lia|]. exists check.
              by replace (ndx - ndx)%nat with 0%nat by lia.
           ++ right. split; [lia|]. exists c. split; [|done].
              by replace (j - ndx)%nat with (S (j - S ndx)) by lia.
        -- intros [Hj|(Hle & c & Hc & Ht)].
           ++ left. destruct (RegExp.test (re check) fileName); [|done].
              cbn. apply elem_of_union. by right.
           ++ destruct (decide (j = ndx)) as [->|Hne].
              ** replace (ndx - ndx)%nat with 0%nat in Hc by lia.
                 injection Hc as <-. rewrite Ht. left. cbn.
                 apply elem_of_union. left. by apply elem_of_singleton.
              ** right. split; [lia|]. exists c. split; [|done].
                 by replace (j - ndx)%nat with (S (j - S ndx)) in Hc by lia.
      * intros Hcount. apply Hsize.
        destruct (RegExp.test (re check) fileName); [|done].
        cbn. rewrite size_union
          by (intros j ->%elem_of_singleton ?; done).
        rewrite size_singleton. lia.
Qed.

(** The loop finds a check exactly when some name passes it: stopping
    early, once every check is found, loses nothing. *)
Lemma scan_entries (checks : list file_check) (fileNames seen : list string)
    (st : scan_state) :
  (∀ j, j ∈ found st ↔ ∃ check, checks !! j = Some check
                                 ∧ hit seen check = true)
  → foundCount st = size (found st)
  → ∃ st',
      scan (Entry <$> checks) fileNames st = Some st'
      ∧ ∀ j, j ∈ found st'
             ↔ ∃ check, checks !! j = Some check
                        ∧ hit (seen ++ fileNames)%list check = true.
Proof.
  revert seen st. induction fileNames as [|name fileNames IH];
    intros seen st Hfound Hcount.
  - exists st. split; [done|]. by rewrite app_nil_r.
  - cbn [scan]. rewrite length_fmap.
    destruct (bool_decide (foundCount st < length checks)%nat) eqn:Hlt.
    + destruct (forEach_test_entries (forward_slashes name) checks 0 st)
        as (st1 & -> & Hmem & Hsize).
      destruct (IH (seen ++ [name])%list st1) as (st' & -> & Hst').
      * intros j. rewrite Hmem, Hfound. unfold hit.
        replace (j - 0)%nat with j by lia.
        split.
        -- intros [(c & Hc & Hh)|(_ & c & Hc & Ht)]; exists c;
             (split; [done|]); rewrite existsb_app.
           ++ by rewrite Hh.
           ++ cbn. rewrite Ht. by rewrite orb_true_r.
        -- intros (c & Hc & Hh). rewrite existsb_app in Hh.
           apply orb_true_iff in Hh as [Hh|Hh].
           ++ left. by exists c.
           ++ right. split; [lia|]. exists c. split; [done|].
              cbn in Hh. by rewrite orb_false_r in Hh.
      * by apply Hsize.
      * exists st'. split; [done|]. by rewrite <- app_assoc in Hst'.
    + apply bool_decide_eq_false in Hlt.
      exists st. split; [done|].
      assert (Hall : found st = set_seq 0 (length checks)).
      { apply set_subseteq_size_eq.
        - intros j (c & Hc & _)%Hfound. apply elem_of_set_seq.
          apply lookup_lt_Some in Hc. lia.
        - rewrite size_set_seq. lia. }
      intros j. split.
      * intros (c & Hc & Hh)%Hfound. exists c. split; [done|].
        unfold hit in *. rewrite existsb_app. by rewrite Hh.
      * intros (c & Hc & _). rewrite Hall. apply elem_of_set_seq.
        apply lookup_lt_Some in Hc. lia.
Qed.

Lemma unfound_entries (checks : list file_check) (ndx : nat)
    (fnd : gset nat) (P : file_check → bool) :
  (∀ j check, checks !! j = Some check → (ndx + j)%nat ∈ fnd ↔ P check = true)
  → unfound (Entry <$> checks) ndx fnd
    = (λ check, Some (msg check)) <$> filter (λ check, P check = false) checks.
Proof.
  revert ndx. induction checks as [|check checks IH]; intros ndx Hfnd; [done|].
  cbn [fmap list_fmap unfound]. rewrite filter_cons.
  assert (Hhere : ndx ∈ fnd ↔ P check = true).
  { rewrite <- (Hfnd 0%nat check eq_refl). by rewrite Nat.add_0_r. }
  assert (Hrest : unfound (Entry <$> checks) (S ndx) fnd
                  = (λ check, Some (msg check))
                      <$> filter (λ check, P check = false) checks).
  { apply IH. intros j c Hc. rewrite <- (Hfnd (S j) c Hc).
    by replace (S ndx + j)%nat with (ndx + S j)%nat by lia. }
  destruct (P check) eqn:HP.
  - rewrite bool_decide_eq_true_2 by by apply Hhere.
    rewrite decide_False by done. apply Hrest.
  - rewrite bool_decide_eq_false_2 by (by intros ?%Hhere).
    rewrite decide_True by done. cbn. by rewrite <- Hrest.
Qed.

Lemma join_errors_msgs (sep : string) (checks : list file_check) :
  join_errors sep ((λ check, Some (msg check)) <$> checks)
  = Str.join sep (msg <$> checks).
Proof.
  unfold join_errors. f_equal. rewrite <- list_fmap_compose.
  by apply list_fmap_ext.
Qed.

(** The loop and the report, on checks that all are checks. *)
Lemma check_files_entries (checks : list file_check)
    (fileNames : list string) :
  check_files (Entry <$> checks) fileNames
  = match filter (λ check, hit fileNames check = false) checks with
    | [] => FilesFound
    | missing => FilesMissing (Str.join newline (msg <$> missing))
    end.
Proof.
  unfold check_files.
  destruct (scan_entries checks fileNames [] (mkScan ∅ 0))
    as (st & -> & Hfound).
  - intros j. split; [by intros ?%elem_of_empty|]. intros (c & _ & Hh). done.
  - done.
  - rewrite (unfound_entries checks 0 (found st) (hit fileNames)).
    2:{ intros j c Hc. rewrite Hfound.
        change (0 + j)%nat with j.
        change ([] ++ fileNames)%list with fileNames. split.
        - intros (c' & Hc' & Hh). congruence.
        - intros Hh. by exists c. }
    destruct (filter _ checks) as [|c l]; [done|].
    cbn [fmap list_fmap]. f_equal.
    apply (join_errors_msgs newline (c :: l)).
Qed.

Lemma toLowerCase_no_capital (s : string) :
  Str.forallb (λ c, negb (Str.in_range "A" "Z" c)) (toLowerCase s) = true.
Proof.
  induction s as [|c s IH]; [done|].
  cbn [toLowerCase Str.forallb]. rewrite IH, andb_true_r.
  unfold toLowerCase_char, Str.in_range. cbv zeta.
  destruct c as [[] [] [] [] [] [] [] []]; by vm_compute.
Qed.

(** Of the names every object inherits, only two are spelled without a
    capital. *)
Lemma inherited_lower_case (gameType : string) :
  toLowerCase gameType ∈ Object_prototype
  ↔ toLowerCase gameType = "constructor" ∨ toLowerCase gameType = "__proto__".
Proof.
  split.
  - intros Hin. pose proof (toLowerCase_no_capital gameType) as Hlow.
    unfold Object_prototype in Hin.
    repeat (apply elem_of_cons in Hin as [Heq|Hin];
            [first [by left | by right | by rewrite Heq in Hlow]|]).
    by apply elem_of_nil in Hin.
  - intros [-> | ->]; apply list_elem_of_In; cbn; auto 20.
Qed.

Lemma checks_of_plain (gameType : string) :
  toLowerCase gameType ∉ Object_prototype
  → checks_of gameType = Entry <$> required_of gameType.
Proof.
  intros Hplain. unfold checks_of, gameTypeChecks, required_of.
  destruct (bool_decide (toLowerCase gameType = "html")).
  - by rewrite fmap_app.
  - by rewrite bool_decide_eq_false_2.
Qed.

Lemma checks_of_inherited (gameType : string) :
  toLowerCase gameType ∈ Object_prototype
  → checks_of gameType
    = ((Entry <$> baseChecks) ++ [NotACheck (toLowerCase gameType)])%list.
Proof.
  intros Hin. unfold checks_of, gameTypeChecks.
  rewrite bool_decide_eq_false_2.
  - by rewrite bool_decide_eq_true_2.
  - intros Heq. rewrite Heq in Hin. revert Hin.
    change ("html" ∉ Object_prototype). not_listed.
Qed.

(** The callback fails on an entry that is no check, as long as nothing
    was found beyond the checks before it. *)
Lemma forEach_test_not_a_check (fileName : string) (checks : list file_check)
    (name : string) (ndx : nat) (st : scan_state) :
  (∀ j, j ∈ found st → (j < ndx)%nat)
  → forEach_test fileName ((Entry <$> checks) ++ [NotACheck name])%list ndx st
    = None.
Proof.
  revert ndx st. induction checks as [|check checks IH]; intros ndx st Hlt.
  - cbn. rewrite bool_decide_eq_false_2; [done|].
    intros ?%Hlt. lia.
  - cbn [fmap list_fmap app forEach_test].
    rewrite bool_decide_eq_false_2 by (intros ?%Hlt; lia).
    apply IH. intros j Hj.
    destruct (RegExp.test (re check) fileName).
    + cbn in Hj. apply elem_of_union in Hj as [->%elem_of_singleton|?%Hlt];
        lia.
    + apply Hlt in Hj. lia.
Qed.

Section RequiredFilesProperties.

Variable readdirtree_sync : string → list string.

#[local] Abbreviation checkRequiredFiles_in :=
  (checkRequiredFiles readdirtree_sync).

(** X10.  For a game type that is not the name of an inherited member,
    the call returns exactly when every check that applies (the five
    base checks, and the four of [html] when the game type is [html] in
    any case of letters) is passed by some listed name; otherwise it
    throws the messages of the checks no name passes, in the order of
    the checks, one per line.  The early end of the loop changes
    nothing. *)
Theorem required_files_verdict (info : PackageInfo)
    (hftInfo : gmap string value) (gameType basePath : string) :
  happyFunTimes info = Some hftInfo
  → get hftInfo "gameType" = VStr gameType
  → toLowerCase gameType ≠ "constructor"
  → toLowerCase gameType ≠ "__proto__"
  → checkRequiredFiles_in info basePath
    = match filter (λ check, matched readdirtree_sync basePath check = false)
              (required_of gameType) with
      | [] => FilesFound
      | missing => FilesMissing (Str.join newline (msg <$> missing))
      end.
Proof.
  intros Hsection HgameType Hc Hp.
  unfold checkRequiredFiles. rewrite Hsection, HgameType.
  rewrite checks_of_plain.
  - apply check_files_entries.
  - intros [?|?]%inherited_lower_case; done.
Qed.

(** X11.  A game type that, in lower case, is [constructor] or
    [__proto__] never passes: with any name listed the call ends in a
    TypeError, and with none it throws the five base messages followed
    by an empty line. *)
Theorem inherited_gameType_never_passes (info : PackageInfo)
    (hftInfo : gmap string value) (gameType basePath : string) :
  happyFunTimes info = Some hftInfo
  → get hftInfo "gameType" = VStr gameType
  → toLowerCase gameType = "constructor" ∨ toLowerCase gameType = "__proto__"
  → checkRequiredFiles_in info basePath
    = match readdirtree_sync basePath with
      | [] => FilesMissing (Str.join newline (msg <$> baseChecks) +:+ newline)
      | _ => FilesTypeError
      end.
Proof.
  intros Hsection HgameType Hin%inherited_lower_case.
  unfold checkRequiredFiles. rewrite Hsection, HgameType.
  rewrite (checks_of_inherited _ Hin).
  destruct (readdirtree_sync basePath) as [|name fileNames]; [done|].
  unfold check_files. cbn [scan].
  rewrite bool_decide_eq_true_2 by (rewrite length_app, length_fmap; cbn; lia).
  rewrite forEach_test_not_a_check; [done|].
  by intros j ?%elem_of_empty.
Qed.

(** X12.  The verdict depends on the listing only through the set of its
    names with the backslashes turned: neither the order of the names,
    nor their repetition, nor the direction of their slashes matters. *)
Theorem verdict_depends_on_names_only (other_sync : string → list string)
    (info : PackageInfo) (basePath otherPath : string) :
  (∀ name, name ∈ forward_slashes <$> readdirtree_sync basePath
           ↔ name ∈ forward_slashes <$> other_sync otherPath)
  → checkRequiredFiles_in info basePath
    = checkRequiredFiles other_sync info otherPath.
Proof.
  intros Hsame. unfold checkRequiredFiles.
  destruct (happyFunTimes info) as [hftInfo|]; [|done].
  destruct (get hftInfo "gameType") as [| | | |gameType| | |]; try done.
  destruct (decide (toLowerCase gameType ∈ Object_prototype)) as [Hin|Hplain].
  - rewrite (checks_of_inherited _ Hin). unfold check_files.
    destruct (readdirtree_sync basePath) as [|n1 l1],
             (other_sync otherPath) as [|n2 l2]; [done| | |].
    + assert (Hno : forward_slashes n2 ∈ forward_slashes <$> @nil string).
      { apply Hsame. cbn. left. }
      by apply elem_of_nil in Hno.
    + assert (Hno : forward_slashes n1 ∈ forward_slashes <$> @nil string).
      { apply Hsame. cbn. left. }
      by apply elem_of_nil in Hno.
    + cbn [scan].
      rewrite bool_decide_eq_true_2
        by (rewrite length_app, length_fmap; cbn; lia).
      by rewrite !forEach_test_not_a_check by (by intros j ?%elem_of_empty).
  - rewrite (checks_of_plain _ Hplain), !check_files_entries.
    assert (Hhit : ∀ check,
      hit (readdirtree_sync basePath) check = false
      ↔ hit (other_sync otherPath) check = false).
    { assert (Hone : ∀ l1 l2 check,
        (∀ name, name ∈ forward_slashes <$> l1 → name ∈ forward_slashes <$> l2)
        → hit l1 check = true → hit l2 check = true).
      { intros l1 l2 check Hsub (n & Hn & Ht)%existsb_exists.
        apply list_elem_of_In in Hn.
        destruct (proj1 (list_elem_of_fmap _ _ _)
                    (Hsub _ (list_elem_of_fmap_2 forward_slashes _ _ Hn)))
          as (n' & Heq & Hn').
        apply existsb_exists. exists n'. split.
        - by apply list_elem_of_In.
        - by rewrite <- Heq. }
      intros check. rewrite <- !not_true_iff_false. split; intros Hno Hyes;
        apply Hno; revert Hyes; apply Hone; intros name; apply Hsame. }
    by rewrite (list_filter_iff _ _ _ Hhit).
Qed.

End RequiredFilesProperties.

(** *** What the patterns take *)

Lemma append_cons (c : ascii) (s t : string) :
  String c s +:+ t = String c (s +:+ t).
Proof. reflexivity. Qed.

Lemma append_empty_l (t : string) : "" +:+ t = t.
Proof. reflexivity. Qed.

Lemma append_empty_r (s : string) : s +:+ "" = s.
Proof.
  induction s as [|c s IH]; [done|]. by rewrite append_cons, IH.
Qed.

Lemma equal_ignoring_case_cons (a b : ascii) (s t : string) :
  equal_ignoring_case (String a s) (String b t)
  ↔ RegExp.upper a = RegExp.upper b ∧ equal_ignoring_case s t.
Proof.
  unfold equal_ignoring_case. cbn. split.
  - by intros [= -> ->].
  - by intros [-> ->].
Qed.

Lemma equal_ignoring_case_empty (s : string) :
  equal_ignoring_case s "" ↔ s = "".
Proof.
  unfold equal_ignoring_case. destruct s; cbn; split; done.
Qed.

Lemma equal_ignoring_case_append (s1 s2 t1 t2 : string) :
  equal_ignoring_case s1 t1 → equal_ignoring_case s2 t2
  → equal_ignoring_case (s1 +:+ s2) (t1 +:+ t2).
Proof.
  revert t1. induction s1 as [|a s1 IH]; intros [|b t1] H1 H2; try done.
  rewrite !append_cons. apply equal_ignoring_case_cons in H1 as [Hab H1].
  apply equal_ignoring_case_cons. split; [done|]. by apply IH.
Qed.

Lemma equal_ignoring_case_split (s t1 t2 : string) :
  equal_ignoring_case s (t1 +:+ t2)
  → ∃ s1 s2, s = s1 +:+ s2 ∧ equal_ignoring_case s1 t1
             ∧ equal_ignoring_case s2 t2.
Proof.
  revert s. induction t1 as [|b t1 IH]; intros s Heq.
  - exists "", s. by repeat split.
  - destruct s as [|a s]; [done|]. rewrite append_cons in Heq.
    apply equal_ignoring_case_cons in Heq as [Hab Heq].
    destruct (IH s Heq) as (s1 & s2 & -> & H1 & H2).
    exists (String a s1), s2. split; [done|]. split; [|done].
    by apply equal_ignoring_case_cons.
Qed.

(** A run of pattern characters takes exactly itself ... *)
Lemma matches_text_exact (t s : string) (k : string → bool) :
  RegExp.matches false (RegExp.text t) s k = true
  ↔ ∃ rest, s = t +:+ rest ∧ k rest = true.
Proof.
  revert s. induction t as [|c t IH]; intros s.
  - cbn. split; [by exists s|]. by intros (rest & -> & ?).
  - cbn [RegExp.text RegExp.matches]. destruct s as [|a s].
    + split; [done|]. by intros (rest & ? & _).
    + unfold RegExp.same_char. rewrite andb_true_iff, bool_decide_eq_true, IH.
      split.
      * intros (-> & rest & -> & Hk). by exists rest.
      * intros (rest & [= -> ->] & Hk). split; [done|]. by exists rest.
Qed.

(** ... and, under the [i] flag, itself in any case of letters. *)
Lemma matches_text_ignoring_case (t s : string) (k : string → bool) :
  RegExp.matches true (RegExp.text t) s k = true
  ↔ ∃ taken rest, s = taken +:+ rest ∧ equal_ignoring_case taken t
                  ∧ k rest = true.
Proof.
  revert s. induction t as [|c t IH]; intros s.
  - cbn. split.
    + intros Hk. by exists "", s.
    + by intros (taken & rest & -> & ->%equal_ignoring_case_empty & ?).
  - cbn [RegExp.text RegExp.matches]. destruct s as [|a s].
    + split; [done|]. intros ([|] & rest & Heq & Hic & _); done.
    + unfold RegExp.same_char. rewrite andb_true_iff, bool_decide_eq_true, IH.
      split.
      * intros (Hca & taken & rest & -> & Hic & Hk).
        exists (String a taken), rest. split; [done|]. split; [|done].
        by apply equal_ignoring_case_cons.
      * intros ([|a' taken] & rest & Heq & Hic & Hk); [done|].
        injection Heq as -> ->.
        apply equal_ignoring_case_cons in Hic as [Hac Hic].
        split; [done|]. by exists taken, rest.
Qed.

Lemma test_dotted (stem extension name : string) :
  RegExp.test (dotted stem extension) name = true
  ↔ ∃ c, RegExp.line_terminator c = false
         ∧ name = stem +:+ String c extension.
Proof.
  unfold RegExp.test, dotted. cbn [RegExp.source RegExp.ignoreCase].
  cbn [RegExp.matches]. rewrite matches_text_exact. split.
  - intros ([|c rest] & -> & Hm); [done|].
    apply andb_true_iff in Hm as [Hc Hm].
    apply matches_text_exact in Hm as (rest' & -> & ->%bool_decide_eq_true).
    exists c. rewrite append_empty_r. split; [|done].
    by apply negb_true_iff.
  - intros (c & Hc & ->). exists (String c extension). split; [done|].
    rewrite Hc. cbn [negb andb]. apply matches_text_exact.
    exists "". by rewrite append_empty_r.
Qed.

(** The four image extensions. *)
Lemma matches_image_extension (s : string) (k : string → bool) :
  RegExp.matches true image_extension s k = true
  ↔ ∃ extension taken rest,
      extension ∈ ["jpg"; "png"; "gif"; "svg"]
      ∧ s = taken +:+ rest ∧ equal_ignoring_case taken extension
      ∧ k rest = true.
Proof.
  unfold image_extension. cbn [RegExp.matches].
  rewrite !orb_true_iff, !matches_text_ignoring_case. split.
  - intros [H|[H|[H|H]]]; destruct H as (taken & rest & -> & Hic & Hk);
      [exists "jpg" | exists "png" | exists "gif" | exists "svg"];
      exists taken, rest; (split; [|done]);
      apply list_elem_of_In; cbn; auto.
  - intros (extension & taken & rest & Hin & -> & Hic & Hk).
    repeat (apply elem_of_cons in Hin as [->|Hin];
            [eauto 10|]).
    by apply elem_of_nil in Hin.
Qed.

Lemma upper_digit (a d : ascii) :
  Str.is_digit d = true → RegExp.upper a = RegExp.upper d → a = d.
Proof.
  intros Hd.
  assert (RegExp.upper d = d) as ->.
  { revert Hd. destruct d as [[] [] [] [] [] [] [] []]; by vm_compute. }
  intros <-. revert Hd.
  destruct a as [[] [] [] [] [] [] [] []]; by vm_compute.
Qed.

Lemma matches_Seq (i : bool) (p q : RegExp.pattern) (s : string)
    (k : string → bool) :
  RegExp.matches i (RegExp.Seq p q) s k
  = RegExp.matches i p s (λ s', RegExp.matches i q s' k).
Proof. reflexivity. Qed.

Lemma matches_Char (c : ascii) (s : string) (k : string → bool) :
  RegExp.matches true (RegExp.Char c) s k = true
  ↔ ∃ a rest, s = String a rest ∧ RegExp.upper c = RegExp.upper a
              ∧ k rest = true.
Proof.
  cbn. destruct s as [|a s].
  - split; [done|]. by intros (? & ? & ? & _).
  - unfold RegExp.same_char. rewrite andb_true_iff, bool_decide_eq_true.
    split.
    + intros [? ?]. by exists a, s.
    + by intros (? & ? & [= <- <-] & ? & ?).
Qed.

Lemma matches_Digit (i : bool) (s : string) (k : string → bool) :
  RegExp.matches i RegExp.Digit s k = true
  ↔ ∃ a rest, s = String a rest ∧ Str.is_digit a = true ∧ k rest = true.
Proof.
  cbn. destruct s as [|a s].
  - split; [done|]. by intros (? & ? & ? & _).
  - rewrite andb_true_iff. split.
    + intros [? ?]. by exists a, s.
    + by intros (? & ? & [= <- <-] & ? & ?).
Qed.

(** A dot and an image extension, to the end of the name. *)
Lemma matches_dot_extension (s : string) :
  RegExp.matches true (RegExp.Seq (RegExp.Char ".") image_extension) s
    (λ rest, bool_decide (rest = "")) = true
  ↔ ∃ extension, extension ∈ ["jpg"; "png"; "gif"; "svg"]
                 ∧ equal_ignoring_case s ("." +:+ extension).
Proof.
  rewrite matches_Seq, matches_Char. split.
  - intros (a & rest & -> & Hdot & Hm).
    apply matches_image_extension in Hm
      as (extension & taken & rest' & Hin & -> & Hic & ->%bool_decide_eq_true).
    exists extension. split; [done|]. rewrite append_empty_r.
    rewrite append_cons, append_empty_l.
    by apply equal_ignoring_case_cons.
  - intros (extension & Hin & Hic).
    rewrite append_cons, append_empty_l in Hic.
    destruct s as [|a s]; [done|].
    apply equal_ignoring_case_cons in Hic as [Hdot Hic].
    exists a, s. split; [done|]. split; [done|].
    apply matches_image_extension. exists extension, s, "".
    rewrite append_empty_r. by repeat split.
Qed.

(** X13.  Every check but those for the icon and the screenshot has an
    unescaped dot in its pattern: it takes the name its message gives,
    and just as well that name with any other character (no line
    terminator) where the dot stands, and nothing else; the case of
    letters counts. *)
Theorem unescaped_dot_takes_any_character (check : file_check) :
  check ∈ (drop 2 baseChecks ++ html_checks)%list
  → ∃ stem extension,
      msg check = "no " +:+ stem +:+ "." +:+ extension
      ∧ ∀ name, RegExp.test (re check) name = true
                ↔ ∃ c, RegExp.line_terminator c = false
                       ∧ name = stem +:+ String c extension.
Proof.
  intros Hin. cbn in Hin. unfold html_checks in Hin.
  apply elem_of_cons in Hin as [->|Hin].
  { exists "controller", "html". split; [done|]. intros. apply test_dotted. }
  apply elem_of_cons in Hin as [->|Hin].
  { exists "css/controller", "css". split; [done|]. intros.
    apply test_dotted. }
  apply elem_of_cons in Hin as [->|Hin].
  { exists "scripts/controller", "js". split; [done|]. intros.
    apply test_dotted. }
  apply elem_of_cons in Hin as [->|Hin].
  { exists "game", "html". split; [done|]. intros. apply test_dotted. }
  apply elem_of_cons in Hin as [->|Hin].
  { exists "game", "html". split; [done|]. intros. apply test_dotted. }
  apply elem_of_cons in Hin as [->|Hin].
  { exists "css/game", "css". split; [done|]. intros. apply test_dotted. }
  apply elem_of_cons in Hin as [->|Hin].
  { exists "scripts/game", "js". split; [done|]. intros. apply test_dotted. }
  by apply elem_of_nil in Hin.
Qed.

(** X14.  What the first two checks take, in any case of letters: the
    icon check [icon.] and one of the four extensions; the screenshot
    check [screenshot.] and an extension, or [screenshot-], any two
    digits, a dot and an extension.  All of 00 to 99 pass, not only the
    00 to 05 of the message. *)
Theorem image_checks_take (icon screenshot : file_check) (name : string) :
  baseChecks !! 0%nat = Some icon
  → baseChecks !! 1%nat = Some screenshot
  → (RegExp.test (re icon) name = true
     ↔ ∃ extension,
         extension ∈ ["jpg"; "png"; "gif"; "svg"]
         ∧ equal_ignoring_case name ("icon." +:+ extension))
    ∧ (RegExp.test (re screenshot) name = true
       ↔ ∃ extension,
           extension ∈ ["jpg"; "png"; "gif"; "svg"]
           ∧ (equal_ignoring_case name ("screenshot." +:+ extension)
              ∨ ∃ d1 d2,
                  Str.is_digit d1 = true ∧ Str.is_digit d2 = true
                  ∧ equal_ignoring_case name
                      ("screenshot-"
                       +:+ String d1 (String d2 ("." +:+ extension))))).
Proof.
  intros Hicon Hscreenshot.
  assert (re icon
          = RegExp.mkRegExp
              (RegExp.Seq (RegExp.text "icon")
                 (RegExp.Seq (RegExp.Char ".") image_extension))
              true) as -> by (by injection Hicon as <-).
  assert (re screenshot
          = RegExp.mkRegExp
              (RegExp.Seq (RegExp.text "screenshot")
                 (RegExp.Seq
                    (RegExp.Opt
                       (RegExp.Seq (RegExp.Char "-")
                          (RegExp.Seq RegExp.Digit RegExp.Digit)))
                    (RegExp.Seq (RegExp.Char ".") image_extension)))
              true) as -> by (by injection Hscreenshot as <-).
  unfold RegExp.test. cbn [RegExp.source RegExp.ignoreCase]. split.
  - rewrite matches_Seq, matches_text_ignoring_case. split.
    + intros (taken & rest & -> & Hic & Hm).
      apply matches_dot_extension in Hm as (extension & Hin & Hrest).
      exists extension. split; [done|].
      change ("icon." +:+ extension) with ("icon" +:+ ("." +:+ extension)).
      by apply equal_ignoring_case_append.
    + intros (extension & Hin & Hic).
      change ("icon." +:+ extension) with ("icon" +:+ ("." +:+ extension))
        in Hic.
      apply equal_ignoring_case_split in Hic as (s1 & s2 & -> & H1 & H2).
      exists s1, s2. split; [done|]. split; [done|].
      apply matches_dot_extension. by exists extension.
  - rewrite matches_Seq, matches_text_ignoring_case. split.
    + intros (taken & rest & -> & Hic & Hm).
      rewrite matches_Seq in Hm. cbn [RegExp.matches] in Hm.
      apply orb_true_iff in Hm as [Hm|Hm].
      * destruct rest as [|dash rest]; [done|].
        apply andb_true_iff in Hm as [Hdash Hm].
        apply (matches_Digit true) in Hm as (d1 & rest1 & -> & Hd1 & Hm).
        apply (matches_Digit true) in Hm as (d2 & rest2 & -> & Hd2 & Hm).
        apply matches_dot_extension in Hm as (extension & Hin & Hrest).
        exists extension. split; [done|]. right. exists d1, d2.
        split; [done|]. split; [done|].
        change ("screenshot-" +:+ String d1 (String d2 ("." +:+ extension)))
          with ("screenshot"
                +:+ String "-" (String d1 (String d2 ("." +:+ extension)))).
        apply equal_ignoring_case_append; [done|].
        apply equal_ignoring_case_cons. split.
        { unfold RegExp.same_char in Hdash.
          by apply bool_decide_eq_true in Hdash. }
        apply equal_ignoring_case_cons. split; [done|].
        apply equal_ignoring_case_cons. by split.
      * apply matches_dot_extension in Hm as (extension & Hin & Hrest).
        exists extension. split; [done|]. left.
        change ("screenshot." +:+ extension)
          with ("screenshot" +:+ ("." +:+ extension)).
        by apply equal_ignoring_case_append.
    + intros (extension & Hin & [Hic|(d1 & d2 & Hd1 & Hd2 & Hic)]).
      * change ("screenshot." +:+ extension)
          with ("screenshot" +:+ ("." +:+ extension)) in Hic.
        apply equal_ignoring_case_split in Hic as (s1 & s2 & -> & H1 & H2).
        exists s1, s2. split; [done|]. split; [done|].
        rewrite matches_Seq. cbn [RegExp.matches].
        apply orb_true_iff. right.
        apply matches_dot_extension. by exists extension.
      * change ("screenshot-" +:+ String d1 (String d2 ("." +:+ extension)))
          with ("screenshot"
                +:+ String "-" (String d1 (String d2 ("." +:+ extension))))
          in Hic.
        apply equal_ignoring_case_split in Hic as (s1 & s2 & -> & H1 & H2).
        destruct s2 as [|dash [|a1 [|a2 s2]]]; try done.
        apply equal_ignoring_case_cons in H2 as [Hdash H2].
        apply equal_ignoring_case_cons in H2 as [Ha1 H2].
        apply equal_ignoring_case_cons in H2 as [Ha2 H2].
        apply (upper_digit _ _ Hd1) in Ha1 as ->.
        apply (upper_digit _ _ Hd2) in Ha2 as ->.
        exists s1, (String dash (String d1 (String d2 s2))).
        split; [done|]. split; [done|].
        rewrite matches_Seq. cbn [RegExp.matches].
        apply orb_true_iff. left.
        unfold RegExp.same_char. rewrite bool_decide_eq_true_2 by done.
        rewrite Hd1, Hd2. cbn [andb].
        apply matches_dot_extension. by exists extension.
Qed.

Lemma join_cons (sep x y : string) (l : list string) :
  Str.join sep (x :: y :: l) = x +:+ sep +:+ Str.join sep (y :: l).
Proof. reflexivity. Qed.

Lemma append_assoc (s t u : string) : (s +:+ t) +:+ u = s +:+ (t +:+ u).
Proof.
  induction s as [|c s IH]; [done|]. by rewrite !append_cons, IH.
Qed.

(** Two neighbours of a list stay neighbours in its joined form. *)
Lemma join_neighbours (sep x y : string) (before after : list string) :
  ∃ front back,
    Str.join sep (before ++ x :: y :: after)%list
    = front +:+ x +:+ sep +:+ y +:+ back.
Proof.
  induction before as [|a before (front & back & IH)].
  - exists "". destruct after as [|z after].
    + exists "". by rewrite append_empty_r.
    + exists (sep +:+ Str.join sep (z :: after)).
      by rewrite app_nil_l, !join_cons.
  - exists (a +:+ sep +:+ front), back.
    destruct before as [|b before];
      cbn [app] in *; rewrite join_cons, IH, !append_assoc; done.
Qed.

(** X15.  The checks of [html] hold the one for [game.html] twice: for a
    game of type [html] (in any case of letters) with no name that
    passes it, the message that is thrown names [game.html] on two
    lines running. *)
Theorem missing_game_html_named_twice
    (readdirtree_sync : string → list string) (info : PackageInfo)
    (hftInfo : gmap string value) (gameType basePath : string) :
  happyFunTimes info = Some hftInfo
  → get hftInfo "gameType" = VStr gameType
  → toLowerCase gameType = "html"
  → (∀ name c, name ∈ readdirtree_sync basePath
               → forward_slashes name ≠ "game" +:+ String c "html")
  → ∃ front back,
      checkRequiredFiles readdirtree_sync info basePath
      = FilesMissing
          (front +:+ "no game.html" +:+ newline +:+ "no game.html" +:+ back).
Proof.
  intros Hsection HgameType Hhtml Hnone.
  unfold checkRequiredFiles. rewrite Hsection, HgameType.
  rewrite checks_of_plain, check_files_entries.
  2:{ rewrite Hhtml. not_listed. }
  unfold required_of. rewrite bool_decide_eq_true_2 by done.
  rewrite filter_app.
  assert (Hno : hit (readdirtree_sync basePath)
                  (mkCheck (dotted "game" "html") "no game.html") = false).
  { apply not_true_iff_false. intros (name & Hin & Ht)%existsb_exists.
    apply test_dotted in Ht as (c & _ & Heq).
    apply (Hnone name c); [by apply list_elem_of_In|done]. }
  set (unmatched := λ check, hit (readdirtree_sync basePath) check = false).
  assert (filter unmatched html_checks
          = mkCheck (dotted "game" "html") "no game.html"
            :: mkCheck (dotted "game" "html") "no game.html"
            :: filter unmatched
                 [mkCheck (dotted "css/game" "css") "no css/game.css";
                  mkCheck (dotted "scripts/game" "js") "no scripts/game.js"])
    as ->.
  { unfold html_checks.
    rewrite filter_cons, decide_True by done.
    by rewrite filter_cons, decide_True by done. }
  destruct (join_neighbours newline "no game.html" "no game.html"
              (msg <$> filter unmatched baseChecks)
              (msg <$> filter unmatched
                         [mkCheck (dotted "css/game" "css") "no css/game.css";
                          mkCheck (dotted "scripts/game" "js")
                            "no scripts/game.js"]))
    as (front & back & Hjoin).
  exists front, back. rewrite <- Hjoin.
  assert (Hsome : ∀ missing : list file_check,
    missing ≠ []
    → match missing with
      | [] => FilesFound
      | c :: l => FilesMissing (Str.join newline (msg <$> c :: l))
      end = FilesMissing (Str.join newline (msg <$> missing)))
    by (by intros []).
  rewrite Hsome by (by destruct (filter unmatched baseChecks)).
  by rewrite fmap_app.
Qed.

(** *** Reading from disk *)

Section ReadProperties.

Variable settings : Settings.
Variable statSync : string → option bool.
Variable readFileSync : string → option string.
Variable JSON_parse : string → option PackageInfo.

#[local] Abbreviation readGameInfo_in :=
  (readGameInfo settings statSync readFileSync JSON_parse).
#[local] Abbreviation path_read_in := (path_read statSync).

Lemma readGameInfo_cases (filePath : string) :
  readGameInfo_in filePath
  = match statSync filePath with
    | None => reading_failed filePath (StatError filePath) []
    | Some _ =>
        match readFileSync (path_read_in filePath) with
        | None =>
            reading_failed (path_read_in filePath)
              (ReadError (path_read_in filePath)) []
        | Some contents =>
            match JSON_parse contents with
            | None =>
                reading_failed (path_read_in filePath) SyntaxError
                  ["ERROR: Parsing " +:+ path_read_in filePath]
            | Some packageInfo =>
                let r := parseGameInfo settings (path_read_in filePath)
                           packageInfo in
                match outcome_of r with
                | Rejected => mkRead NothingRead (console_after r)
                | Accepted =>
                    mkRead (GameRead (packageInfo_after r)) (console_after r)
                | Threw e =>
                    reading_failed (path_read_in filePath) (Parsing e)
                      (console_after r)
                end
            end
        end
    end.
Proof.
  unfold readGameInfo, path_read, parseGameInfo_contents.
  destruct (statSync filePath) as [[|]|]; [| |done]; cbv zeta;
    (destruct (readFileSync _) as [contents|]; [|done]);
    (destruct (JSON_parse contents) as [packageInfo|]; [|done]);
    cbn [read_outcome_of read_console];
    by destruct (outcome_of _).
Qed.

(** X16.  Whatever a call throws, the last line it prints is
    ["ERROR: Reading "] with the path that was read: the manifest inside
    the directory when [filePath] is a directory, [filePath] itself
    otherwise (also when [statSync] is what failed).  A fault of the
    file system prints only that line; a fault of [JSON.parse] or of
    [parseGameInfo] prints ["ERROR: Parsing "] with the same path just
    before it. *)
Theorem read_faults_name_the_path_read (filePath : string) (e : read_fault) :
  read_outcome_of (readGameInfo_in filePath) = ReadThrew e
  → last (read_console (readGameInfo_in filePath))
    = Some ("ERROR: Reading " +:+ path_read_in filePath)
    ∧ match e with
      | StatError path =>
          path = filePath ∧ statSync filePath = None
          ∧ read_console (readGameInfo_in filePath)
            = ["ERROR: Reading " +:+ filePath]
      | ReadError path =>
          path = path_read_in filePath ∧ readFileSync path = None
          ∧ read_console (readGameInfo_in filePath)
            = ["ERROR: Reading " +:+ path]
      | SyntaxError | Parsing _ =>
          ∃ front,
            read_console (readGameInfo_in filePath)
            = (front ++ ["ERROR: Parsing " +:+ path_read_in filePath;
                         "ERROR: Reading " +:+ path_read_in filePath])%list
      end.
Proof.
  rewrite readGameInfo_cases.
  destruct (statSync filePath) as [isDirectory|] eqn:Hstat.
  2:{ intros [= <-]. unfold path_read. rewrite Hstat. by cbn. }
  destruct (readFileSync (path_read_in filePath)) as [contents|] eqn:Hread.
  2:{ intros [= <-]. by cbn. }
  destruct (JSON_parse contents) as [packageInfo|].
  2:{ intros [= <-]. split; [done|]. by exists []. }
  cbv zeta.
  destruct (outcome_of (parseGameInfo settings (path_read_in filePath)
                          packageInfo)) as [| |t] eqn:Hout; [done|done|].
  intros [= <-]. unfold reading_failed. cbn [read_console].
  split; [apply last_snoc|].
  pose proof (thrown_call_console _ _ _ _ Hout) as Hlast.
  apply last_Some in Hlast as [front ->].
  exists front. by rewrite <- app_assoc.
Qed.

(** X17.  A directory is read through its manifest: when [statSync]
    takes [dir] for a directory and [dir/package.json] for a file, the
    call on the directory and the call on the manifest's path end the
    same and print the same. *)
Theorem directory_read_through_manifest (dir : string) :
  statSync dir = Some true
  → statSync (Path.join [dir; "package.json"]) = Some false
  → readGameInfo_in dir = readGameInfo_in (Path.join [dir; "package.json"]).
Proof.
  intros Hdir Hfile. rewrite !readGameInfo_cases. unfold path_read.
  by rewrite Hdir, Hfile.
Qed.

(** X18.  A call that returns a package has read and parsed the file at
    the path read, returns what [parseGameInfo] made of it and prints
    what that call printed and no more; the package's section has the
    directory of the path read as its [basePath]: for a directory
    [dir], the directory part of [path.join(dir, "package.json")]. *)
Theorem game_read_is_parsed_manifest (filePath : string)
    (packageInfo : PackageInfo) :
  read_outcome_of (readGameInfo_in filePath) = GameRead packageInfo
  → ∃ contents parsed hftInfo,
      readFileSync (path_read_in filePath) = Some contents
      ∧ JSON_parse contents = Some parsed
      ∧ returned (parseGameInfo settings (path_read_in filePath) parsed)
        = Some packageInfo
      ∧ read_console (readGameInfo_in filePath)
        = console_after (parseGameInfo settings (path_read_in filePath) parsed)
      ∧ happyFunTimes packageInfo = Some hftInfo
      ∧ hftInfo !! "basePath"
        = Some (VStr (Path.dirname (path_read_in filePath))).
Proof.
  rewrite readGameInfo_cases.
  destruct (statSync filePath) as [isDirectory|]; [|done].
  destruct (readFileSync (path_read_in filePath)) as [contents|] eqn:Hread;
    [|done].
  destruct (JSON_parse contents) as [parsed|] eqn:Hparse; [|done].
  cbv zeta.
  destruct (outcome_of (parseGameInfo settings (path_read_in filePath) parsed))
    eqn:Hout; [done| |done].
  intros [= <-].
  destruct (accepted_section _ _ _ Hout) as [Hsection [o Ho]].
  exists contents, parsed,
    (hftInfo_after (parseGameInfo settings (path_read_in filePath) parsed)).
  split; [done|]. split; [done|].
  split; [unfold returned; by rewrite Hout|].
  split; [done|]. split; [done|].
  destruct (accepted_manifest _ _ _ _ Ho Hout) as (bundle & _ & _ & ->).
  apply lookup_insert_eq.
Qed.

End ReadProperties.

(** *** What a returned manifest satisfies *)

Lemma validateObject_ext (o o' : gmap string value)
    (validators : list (string * (value → check))) :
  (∀ field type, (field, type) ∈ validators → get o field = get o' field)
  → validateObject o validators = validateObject o' validators.
Proof.
  induction validators as [|[f t] vs IH]; intros Hsame; [done|].
  change (validateObject o ((f, t) :: vs))
    with (match t (get o f) with
          | Throws e => Throws (f +:+ ": " +:+ e)
          | Passes => validateObject o vs
          end).
  change (validateObject o' ((f, t) :: vs))
    with (match t (get o' f) with
          | Throws e => Throws (f +:+ ": " +:+ e)
          | Passes => validateObject o' vs
          end).
  rewrite (Hsame f t) by left.
  rewrite IH; [done|]. intros field type Hin. apply (Hsame field type).
  by right.
Qed.

Lemma get_same_lookup (o o' : gmap string value) (key : string) :
  o !! key = o' !! key → get o key = get o' key.
Proof. unfold get. by intros ->. Qed.

Section ReturnedManifest.

Variable settings : Settings.
Variable filePath : string.

(** X19.  Every manifest a call returns is a valid one: its five
    required fields validate as they stand in the result, its game type
    is a non-empty string that is a key of [hftGameTypeDefaults] or the
    name of a member every object inherits, and its [versionSettings] is
    an object. *)
Theorem returned_manifest_is_valid (pkg : PackageInfo) :
  outcome_of (parseGameInfo settings filePath pkg) = Accepted
  → validateObject (hftInfo_after (parseGameInfo settings filePath pkg))
      requiredFields = Passes
    ∧ (∃ gameType,
         get (hftInfo_after (parseGameInfo settings filePath pkg)) "gameType"
         = VStr gameType
         ∧ gameType ≠ ""
         ∧ (is_Some (hftGameTypeDefaults settings !! gameType)
            ∨ gameType ∈ Object_prototype))
    ∧ ∃ bundle,
        get (hftInfo_after (parseGameInfo settings filePath pkg))
          "versionSettings" = VObj bundle.
Proof.
  intros Hacc.
  destruct (happyFunTimes pkg) as [o|] eqn:Ho;
    [|by rewrite (missing_section_call _ _ _ Ho) in Hacc].
  destruct (proj1 (accepted_walk _ _ _ _ Ho) Hacc) as (Hv & Hgt & _).
  assert (Hframe : ∀ key, key ∉ assigned
    → get (hftInfo_after (parseGameInfo settings filePath pkg)) key
      = get (defaulted settings o) key).
  { intros key Hkey. apply get_same_lookup. by apply call_frame. }
  split; [|split].
  - rewrite <- Hv. apply validateObject_ext. intros field type Hin.
    apply Hframe. unfold requiredFields in Hin.
    repeat (apply elem_of_cons in Hin as [[= -> _]|Hin]; [not_listed|]).
    by apply elem_of_nil in Hin.
  - destruct (proj1 (checked_gameType_iff _ _ Hv) Hgt)
      as (gameType & HgameType & Hne & Hknown).
    exists gameType. by rewrite Hframe by not_listed.
  - destruct (accepted_manifest _ filePath _ _ Ho Hacc)
      as (bundle & _ & _ & ->).
    exists bundle. cbv zeta. rewrite get_set_ne by done.
    assert (Hexe : ∀ o1 o2,
      get (if truthy (get o1 "gameExecutable")
           then set "gameExecutable"
                  (VStr (Path.join [Path.dirname filePath;
                                    to_string (get o1 "gameExecutable")])) o2
           else o2) "versionSettings" = get o2 "versionSettings").
    { intros o1 o2. destruct (truthy (get o1 "gameExecutable")); [|done].
      by apply get_set_ne. }
    by rewrite Hexe, !fixed_url_get, get_set_eq.
Qed.

End ReturnedManifest.

(** X20.  What a valid manifest is.  The required fields validate
    exactly when [gameId] passes [validGameId], [apiVersion] is a string
    that is a semantic version, [gameType] and [category] are strings and
    [minPlayers] is a number: a number written as a string, or a
    version written as a number, is turned down. *)
Theorem required_fields_exactly (o : gmap string value) :
  validateObject o requiredFields = Passes
  ↔ validGameId (get o "gameId") = Passes
    ∧ (∃ version, get o "apiVersion" = VStr version
                  ∧ Semver.valid version = true)
    ∧ (∃ gameType, get o "gameType" = VStr gameType)
    ∧ (∃ category, get o "category" = VStr category)
    ∧ (∃ minPlayers, get o "minPlayers" = VNum minPlayers).
Proof.
  assert (Hstring : ∀ v, validString v = Passes ↔ ∃ s, v = VStr s).
  { intros v. unfold validString. split.
    - destruct v as [| | | |s| | |name]; cbn; try done; [by exists s|].
      by destruct (bool_decide (name = "__proto__")).
    - by intros [s ->]. }
  assert (Hnumber : ∀ v, validNumber v = Passes ↔ ∃ n, v = VNum n).
  { intros v. unfold validNumber. split.
    - destruct v as [| | |n| | | |name]; cbn; try done; [by exists n|].
      by destruct (bool_decide (name = "__proto__")).
    - by intros [n ->]. }
  assert (Hsemver : ∀ v, validSemver v = Passes
                         ↔ ∃ s, v = VStr s ∧ Semver.valid s = true).
  { intros v. unfold validSemver. split.
    - destruct v as [| | | |s| | |]; try done.
      destruct (Semver.valid s) eqn:Hs; [|done]. by exists s.
    - by intros (s & -> & ->). }
  rewrite validateObject_passes, <- Hsemver, <- !Hstring, <- Hnumber. split.
  - intros Hall. repeat split; apply Hall; apply list_elem_of_In; cbn; auto 10.
  - intros (Hid & Hversion & HgameType & Hcategory & HminPlayers) field type
      Hin. unfold requiredFields in Hin.
    repeat (apply elem_of_cons in Hin as [[= -> ->]|Hin]; [done|]).
    by apply elem_of_nil in Hin.
Qed.

End Runtime.

(** ** The claims on the sample *)

Module OnSample.

#[local] Abbreviation call := (parseGameInfo Sample.Number_toString).
#[local] Abbreviation defaults_in :=
  (defaulted Sample.Number_toString Sample.settings).

(** The keys of the sample settings are versions. *)
Lemma sample_keys : keys_are_versions Sample.settings.
Proof. apply keys_are_versions_checked. by vm_compute. Qed.

Lemma sample_keys_differ : keys_differ Sample.settings.
Proof. apply keys_differ_checked. by vm_compute. Qed.

Lemma sample_keys_with_fallback :
  keys_are_versions Sample.settings_with_fallback.
Proof. apply keys_are_versions_checked. by vm_compute. Qed.

Lemma sample_keys_with_empty_gameType :
  keys_are_versions Sample.settings_with_empty_gameType.
Proof. apply keys_are_versions_checked. by vm_compute. Qed.

(** C1, a counterexample.  The request 1.0.0 is a valid version and the
    key 1.2.0 satisfies its range; the bundle of 1.2.0 is attached, but
    [needNewHFT] is whatever the manifest had: [true] when it came with
    [needNewHFT: true], [undefined] (not [false]) when it came with none.
    And nothing is attached to a manifest that lacks its [category]. *)
Lemma needNewHFT_is_not_cleared :
  Semver.valid "1.0.0" = true
  ∧ Semver.satisfies "1.2.0" "^1.0.0" = true
  ∧ outcome_of
      (call Sample.settings Sample.filePath
         (Sample.package
            (<[ "needNewHFT" := VBool true ]> (Sample.manifest "1.0.0"))))
    = Accepted
  ∧ get (hftInfo_after
           (call Sample.settings Sample.filePath
              (Sample.package
                 (<[ "needNewHFT" := VBool true ]> (Sample.manifest "1.0.0")))))
      "versionSettings" = VObj (Sample.bundle "1.2.0")
  ∧ get (hftInfo_after
           (call Sample.settings Sample.filePath
              (Sample.package
                 (<[ "needNewHFT" := VBool true ]> (Sample.manifest "1.0.0")))))
      "needNewHFT" = VBool true
  ∧ get (hftInfo_after
           (call Sample.settings Sample.filePath
              (Sample.package (Sample.manifest "1.0.0"))))
      "needNewHFT" = VUndefined
  ∧ outcome_of
      (call Sample.settings Sample.filePath
         (Sample.package (delete "category" (Sample.manifest "1.0.0"))))
    = Rejected
  ∧ get (hftInfo_after
           (call Sample.settings Sample.filePath
              (Sample.package (delete "category" (Sample.manifest "1.0.0")))))
      "versionSettings" = VUndefined.
Proof. by vm_compute. Qed.

(** C1, on the sample: the request 1.0.0 against the keys 1.0.0, 1.2.0 and
    2.0.0, no two of them the same version. *)
Lemma best_version_attached_on_sample :
  ∃ best bundle,
    apiVersionSettings Sample.settings !! best = Some bundle
    ∧ satisfying Sample.Number_toString Sample.settings
        (defaults_in (Sample.manifest "1.0.0")) best
    ∧ (∀ v, satisfying Sample.Number_toString Sample.settings
              (defaults_in (Sample.manifest "1.0.0")) v
            → Semver.higher v best = false)
    ∧ (∀ v, satisfying Sample.Number_toString Sample.settings
              (defaults_in (Sample.manifest "1.0.0")) v
            → v ≠ best
            → Semver.higher best v = true)
    ∧ get (hftInfo_after
             (call Sample.settings Sample.filePath
                (Sample.package (Sample.manifest "1.0.0"))))
        "versionSettings" = VObj bundle
    ∧ get (hftInfo_after
             (call Sample.settings Sample.filePath
                (Sample.package (Sample.manifest "1.0.0"))))
        "needNewHFT"
      = get (defaults_in (Sample.manifest "1.0.0")) "needNewHFT".
Proof.
  destruct (proj1 (best_version_attached Sample.Number_toString)
              Sample.settings Sample.filePath
              (Sample.package (Sample.manifest "1.0.0"))
              (Sample.manifest "1.0.0"))
    as (best & bundle & Hbundle & Hsat & Hmost & Honly & Hset & Hflag).
  - reflexivity.
  - by vm_compute.
  - by vm_compute.
  - exact sample_keys.
  - exists "1.0.0". split; [|by vm_compute].
    exists (Sample.bundle "1.0.0"). reflexivity.
  - exists best, bundle.
    split; [exact Hbundle|]. split; [exact Hsat|]. split; [exact Hmost|].
    split; [exact (Honly sample_keys_differ)|]. split; [exact Hset|].
    exact Hflag.
Defined.

(** C2, a counterexample.  No key satisfies [^9.0.0], yet with a bundle
    under the fallback key the manifest is accepted, flagged
    [needNewHFT = true]; and a manifest that lacks its [category] is
    rejected before the flag is ever set. *)
Lemma fallback_bundle_accepts :
  Semver.maxSatisfying
    (Object_keys (apiVersionSettings Sample.settings_with_fallback))
    "^9.0.0" = None
  ∧ outcome_of
      (call Sample.settings_with_fallback Sample.filePath
         (Sample.package (Sample.manifest "9.0.0"))) = Accepted
  ∧ get (hftInfo_after
           (call Sample.settings_with_fallback Sample.filePath
              (Sample.package (Sample.manifest "9.0.0"))))
      "needNewHFT" = VBool true
  ∧ get (hftInfo_after
           (call Sample.settings_with_fallback Sample.filePath
              (Sample.package (Sample.manifest "9.0.0"))))
      "versionSettings" = VObj (Sample.bundle "unsupported")
  ∧ outcome_of
      (call Sample.settings Sample.filePath
         (Sample.package (delete "category" (Sample.manifest "9.0.0"))))
    = Rejected
  ∧ get (hftInfo_after
           (call Sample.settings Sample.filePath
              (Sample.package (delete "category" (Sample.manifest "9.0.0")))))
      "needNewHFT" = VUndefined.
Proof. by vm_compute. Qed.

(** C2, on the sample: the request 9.0.0, which no key satisfies, and no
    bundle under the fallback key. *)
Lemma unsupported_version_flagged_on_sample :
  get (hftInfo_after
         (call Sample.settings Sample.filePath
            (Sample.package (Sample.manifest "9.0.0")))) "needNewHFT"
  = VBool true
  ∧ get (hftInfo_after
           (call Sample.settings Sample.filePath
              (Sample.package (Sample.manifest "9.0.0")))) "versionSettings"
    = match apiVersionSettings Sample.settings !! unsupportedApiVersion with
      | Some bundle => VObj bundle
      | None => VUndefined
      end
  ∧ (apiVersionSettings Sample.settings !! unsupportedApiVersion = None
     → outcome_of
         (call Sample.settings Sample.filePath
            (Sample.package (Sample.manifest "9.0.0"))) = Rejected)
  ∧ (is_Some (apiVersionSettings Sample.settings !! unsupportedApiVersion)
     → outcome_of
         (call Sample.settings Sample.filePath
            (Sample.package (Sample.manifest "9.0.0")))
       = if truthy (get (defaults_in (Sample.manifest "9.0.0")) "gameType")
         then
           if urls_convert (defaults_in (Sample.manifest "9.0.0")) then
             if executable_passes (Path.dirname Sample.filePath)
                  (defaults_in (Sample.manifest "9.0.0"))
             then Accepted
             else Threw (executable_fault (Path.dirname Sample.filePath)
                           (defaults_in (Sample.manifest "9.0.0")))
           else Threw (TypeError cannot_convert)
         else Rejected).
Proof.
  apply (proj1 (unsupported_version_flagged Sample.Number_toString)
           Sample.settings Sample.filePath
           (Sample.package (Sample.manifest "9.0.0"))
           (Sample.manifest "9.0.0")).
  - reflexivity.
  - by vm_compute.
  - by vm_compute.
  - exact sample_keys.
  - apply none_satisfying. by vm_compute.
Defined.



(** C9, two counterexamples.  The settings know a game type whose name
    is empty.  A manifest of that type has five valid required fields, a
    known game type, a matching version and no executable, and is
    rejected by line 269.  And a manifest of the game type [html] with
    all of that and the [gameUrl] [{"toString": 1}] is not accepted
    either: line 288 throws a TypeError. *)
Lemma empty_gameType_rejected :
  validateObject
    (defaulted Sample.Number_toString Sample.settings_with_empty_gameType
       (<[ "gameType" := VStr "" ]>
          (<[ "minPlayers" := VNum 1 ]> (Sample.manifest "1.0.0"))))
    (requiredFields Sample.Number_toString) = Passes
  ∧ is_Some (hftGameTypeDefaults Sample.settings_with_empty_gameType !! "")
  ∧ Semver.satisfies "1.2.0" "^1.0.0" = true
  ∧ outcome_of
      (call Sample.settings_with_empty_gameType Sample.filePath
         (Sample.package
            (<[ "gameType" := VStr "" ]>
               (<[ "minPlayers" := VNum 1 ]> (Sample.manifest "1.0.0")))))
    = Rejected
  ∧ validateObject
      (defaults_in (<[ "gameUrl" := Sample.unconvertible ]> (Sample.manifest "1.0.0")))
      (requiredFields Sample.Number_toString) = Passes
  ∧ outcome_of
      (call Sample.settings Sample.filePath
         (Sample.package
            (<[ "gameUrl" := Sample.unconvertible ]> (Sample.manifest "1.0.0"))))
    = Threw (TypeError cannot_convert).
Proof.
  split; [by vm_compute|]. split; [exists ∅; by vm_compute|by vm_compute].
Qed.

(** C9, on the sample: a valid manifest with an executable below its
    directory. *)
Lemma valid_manifest_accepted_on_sample :
  outcome_of
    (call Sample.settings Sample.filePath
       (Sample.package
          (<[ "gameExecutable" := VStr "bin/game.exe" ]>
             (Sample.manifest "1.0.0")))) = Accepted
  ∧ returned
      (call Sample.settings Sample.filePath
         (Sample.package
            (<[ "gameExecutable" := VStr "bin/game.exe" ]>
               (Sample.manifest "1.0.0"))))
    = Some (packageInfo_after
              (call Sample.settings Sample.filePath
                 (Sample.package
                    (<[ "gameExecutable" := VStr "bin/game.exe" ]>
                       (Sample.manifest "1.0.0")))))
  ∧ hftInfo_after
      (call Sample.settings Sample.filePath
         (Sample.package
            (<[ "gameExecutable" := VStr "bin/game.exe" ]>
               (Sample.manifest "1.0.0")))) !! "basePath"
    = Some (VStr (Path.dirname Sample.filePath)).
Proof.
  apply (valid_manifest_accepted Sample.Number_toString Sample.settings
           Sample.filePath _
           (<[ "gameExecutable" := VStr "bin/game.exe" ]>
              (Sample.manifest "1.0.0")) "html").
  - reflexivity.
  - by vm_compute.
  - by vm_compute.
  - done.
  - exists {[ "minPlayers" := VNum 2 ]}. reflexivity.
  - exact sample_keys.
  - exists "1.2.0". split; [exists (Sample.bundle "1.2.0"); reflexivity|].
    by vm_compute.
  - by vm_compute.
  - by vm_compute.
  - right. exists "bin/game.exe". split; by vm_compute.
Defined.

(** C10, a counterexample.  What the call is given is the text of the
    manifest; the object it patches is the one it parses from that
    text.  Here the text parses to the manifest that asks for 9.0.0: the
    call returns [undefined] and three lines on the console, and the
    object it parsed, patched with the defaults and [needNewHFT], is in
    nothing it hands back. *)
Lemma rejection_hands_nothing_back :
  parseGameInfo_contents Sample.Number_toString Sample.settings
    (λ contents, Some (Sample.package (Sample.manifest "9.0.0")))
    "the manifest of foo" Sample.filePath
  = mkRead NothingRead
      (console_after
         (call Sample.settings Sample.filePath
            (Sample.package (Sample.manifest "9.0.0"))))
  ∧ hftInfo_after
      (call Sample.settings Sample.filePath
         (Sample.package (Sample.manifest "9.0.0")))
    ≠ Sample.manifest "9.0.0"
  ∧ get (hftInfo_after
           (call Sample.settings Sample.filePath
              (Sample.package (Sample.manifest "9.0.0")))) "needNewHFT"
    = VBool true.
Proof.
  split; [by vm_compute|]. split; [|by vm_compute].
  intros Heq.
  assert (Hl : hftInfo_after
                 (call Sample.settings Sample.filePath
                    (Sample.package (Sample.manifest "9.0.0")))
               !! "gameType" = Some (VStr "html")) by by vm_compute.
  rewrite Heq in Hl. by vm_compute in Hl.
Qed.

(** C10, on the sample: the manifest that asks for 9.0.0, as the call
    leaves the object it parsed. *)
Lemma rejection_leaves_manifest_patched_on_sample :
  outcome_of
    (call Sample.settings Sample.filePath
       (Sample.package (Sample.manifest "9.0.0"))) = Rejected
  ∧ hftInfo_after
      (call Sample.settings Sample.filePath
         (Sample.package (Sample.manifest "9.0.0")))
    = set "versionSettings" VUndefined
        (set "needNewHFT" (VBool true)
           (defaults_in (Sample.manifest "9.0.0")))
  ∧ get (hftInfo_after
           (call Sample.settings Sample.filePath
              (Sample.package (Sample.manifest "9.0.0")))) "needNewHFT"
    = VBool true.
Proof.
  apply (proj1 (rejection_leaves_manifest_patched Sample.Number_toString)
           Sample.settings Sample.filePath
           (Sample.package (Sample.manifest "9.0.0"))
           (Sample.manifest "9.0.0") eq_refl).
  - by vm_compute.
  - by vm_compute.
  - exact sample_keys.
  - apply none_satisfying. by vm_compute.
  - by vm_compute.
Defined.

(** C4, on the sample. *)
Lemma gameType_defaults_follow_global_on_sample :
  get (hftInfo_after
         (call Sample.settings Sample.filePath
            (Sample.package (Sample.manifest "2.0.0")))) "gameType"
  = VStr "html"
  ∧ get (hftInfo_after
           (call Sample.settings Sample.filePath
              (Sample.package (Sample.manifest "2.0.0")))) "minPlayers"
    = VNum 2.
Proof.
  apply (proj1 (proj2 (gameType_defaults_follow_global
                         Sample.Number_toString))
           Sample.settings Sample.filePath
           (Sample.package (Sample.manifest "2.0.0")) (Sample.manifest "2.0.0")
           {[ "minPlayers" := VNum 2 ]} eq_refl);
    vm_compute; reflexivity.
Defined.

(** C6, on a heap that holds the executable ["../foobar/x.exe"]. *)
Lemma executable_test_is_raw_prefix_on_sample :
  (check_gameExecutable "/games/foo"
     (mkHeap {[ "gameExecutable" := VStr "../foobar/x.exe" ]} [])).2
  = if String.prefix "/games/foo"
         (Path.normalize (Path.join ["/games/foo"; "../foobar/x.exe"]))
    then Normal ()
    else Throw (ThrownString
                  ("bad path for game executable: "
                   +:+ Path.normalize
                         (Path.join ["/games/foo"; "../foobar/x.exe"]))).
Proof.
  apply (proj1 (executable_test_is_raw_prefix Sample.Number_toString)
           "/games/foo" "../foobar/x.exe"); by vm_compute.
Defined.

(** C5, at a failing input.  From [/games/foo] the executable
    ["../foo2/run.sh"] resolves to [/games/foo2/run.sh], which does not lie
    within the directory; the call does not throw, it returns the package
    with that path.  (The claim's own example, ["../bar.exe"], does
    throw.) *)
Theorem executable_in_sibling_directory_accepted :
  Path.dirname Sample.filePath = "/games/foo"
  ∧ Path.normalize (Path.join ["/games/foo"; "../foo2/run.sh"])
    = "/games/foo2/run.sh"
  ∧ inside_dir "/games/foo" "/games/foo2/run.sh" = false
  ∧ outcome_of
      (call Sample.settings Sample.filePath
         (Sample.package
            (<[ "gameExecutable" := VStr "../foo2/run.sh" ]>
               (Sample.manifest "1.0.0")))) = Accepted
  ∧ get (hftInfo_after
           (call Sample.settings Sample.filePath
              (Sample.package
                 (<[ "gameExecutable" := VStr "../foo2/run.sh" ]>
                    (Sample.manifest "1.0.0"))))) "gameExecutable"
    = VStr "/games/foo2/run.sh"
  ∧ outcome_of
      (call Sample.settings Sample.filePath
         (Sample.package
            (<[ "gameExecutable" := VStr "../bar.exe" ]>
               (Sample.manifest "1.0.0"))))
    = Threw (ThrownString "bad path for game executable: /games/bar.exe").
Proof. by vm_compute. Qed.

(** A game type named after a member every object inherits passes the
    test of line 236, though the settings have no such game type: the
    lookup finds the inherited member. *)
Example inherited_gameType_accepted :
  hftGameTypeDefaults Sample.settings !! "constructor" = None
  ∧ outcome_of
      (call Sample.settings Sample.filePath
         (Sample.package
            (<[ "gameType" := VStr "constructor" ]>
               (<[ "minPlayers" := VNum 1 ]> (Sample.manifest "1.0.0")))))
    = Accepted.
Proof. by vm_compute. Qed.

(** The directory is compared as [path.dirname] gives it, the executable
    as [path.normalize] gives it: beside a manifest named by a relative
    path every executable fails the test. *)
Example relative_manifest_path_throws :
  Path.dirname "package.json" = "."
  ∧ Path.normalize (Path.join ["."; "game.exe"]) = "game.exe"
  ∧ outcome_of
      (call Sample.settings "package.json"
         (Sample.package
            (<[ "gameExecutable" := VStr "game.exe" ]>
               (Sample.manifest "1.0.0"))))
    = Threw (ThrownString "bad path for game executable: game.exe").
Proof. by vm_compute. Qed.

(** A key is trimmed before it is compared, a version under validation
    is not; a component above 2^53 - 1 is no version. *)
Example versions_are_trimmed_in_ranges_only :
  Semver.satisfies " 1.5.0" "^1.0.0" = true
  ∧ Semver.maxSatisfying ["1.0.0"; " 1.5.0"; "2.0.0"] "^1.0.0"
    = Some " 1.5.0"
  ∧ Semver.valid " 1.5.0" = false
  ∧ Semver.valid "9007199254740991.0.0" = true
  ∧ Semver.valid "9007199254740992.0.0" = false.
Proof. by vm_compute. Qed.

End OnSample.

(** ** The further properties, on the sample settings *)

Module MoreOnSample.

Import MoreSample.

#[local] Abbreviation call := (parseGameInfo Sample.Number_toString).
#[local] Abbreviation defaults_in :=
  (defaulted Sample.Number_toString Sample.settings).

Lemma full_manifest_accepted :
  outcome_of (call Sample.settings Sample.filePath
                (Sample.package full_manifest)) = Accepted.
Proof. reflexivity. Qed.

(** X5 on the sample: [gameUrl: "game.html"] of the game [foo] comes
    back as ["/games/foo/game.html"]. *)
Lemma urls_rooted_under_games_on_sample :
  get (hftInfo_after
         (call Sample.settings Sample.filePath (Sample.package full_manifest)))
    "gameUrl"
  = VStr "/games/foo/game.html".
Proof.
  rewrite (urls_rooted_under_games Sample.Number_toString Sample.settings
             Sample.filePath (Sample.package full_manifest) full_manifest
             "gameUrl" eq_refl full_manifest_accepted (or_introl eq_refl)).
  reflexivity.
Defined.

(** X6 on the sample: the base path is [/games/foo] and the executable
    comes back joined to it. *)
Lemma paths_of_accepted_on_sample :
  hftInfo_after
    (call Sample.settings Sample.filePath (Sample.package full_manifest))
    !! "basePath" = Some (VStr "/games/foo").
Proof.
  exact (proj1 (paths_of_accepted Sample.Number_toString Sample.settings
                  Sample.filePath (Sample.package full_manifest)
                  full_manifest eq_refl full_manifest_accepted)).
Defined.

(** X9 on the sample: the key 1.2.0 satisfies the request, and nothing
    is printed. *)
Lemma console_of_accepted_on_sample :
  console_after
    (call Sample.settings Sample.filePath (Sample.package full_manifest))
  = [].
Proof.
  apply (proj1 (console_of_accepted Sample.Number_toString Sample.settings
                  Sample.filePath (Sample.package full_manifest)
                  full_manifest OnSample.sample_keys eq_refl
                  full_manifest_accepted)).
  exists "1.2.0". split; [by exists (Sample.bundle "1.2.0")|by vm_compute].
Defined.

(** X3 on the sample: the full manifest is accepted, and so it has all
    that the right-hand side lists. *)
Lemma accepted_exactly_when_on_sample :
  ∃ o gt,
    happyFunTimes (Sample.package full_manifest) = Some o
    ∧ validateObject (defaults_in o) (requiredFields Sample.Number_toString)
      = Passes
    ∧ get (defaults_in o) "gameType" = VStr gt
    ∧ gt ≠ ""
    ∧ (is_Some (hftGameTypeDefaults Sample.settings !! gt)
       ∨ gt ∈ Object_prototype)
    ∧ ((∃ v, satisfying Sample.Number_toString Sample.settings
               (defaults_in o) v)
       ∨ is_Some (apiVersionSettings Sample.settings
                    !! unsupportedApiVersion))
    ∧ converts (get (defaults_in o) "gameUrl") = true
    ∧ converts (get (defaults_in o) "screenshotUrl") = true
    ∧ executable_passes (Path.dirname Sample.filePath) (defaults_in o)
      = true.
Proof.
  apply (proj1 (accepted_exactly_when Sample.Number_toString Sample.settings
                  Sample.filePath (Sample.package full_manifest)
                  OnSample.sample_keys)).
  exact full_manifest_accepted.
Defined.

(** X4 on the sample: the executable ["../bar.exe"] of the game [foo]
    is thrown out, and the console ends with the line of the [catch]. *)
Lemma throws_from_three_places_on_sample :
  outcome_of
    (call Sample.settings Sample.filePath
       (Sample.package
          (<[ "gameExecutable" := VStr "../bar.exe" ]>
             (Sample.manifest "1.0.0"))))
  = Threw (ThrownString "bad path for game executable: /games/bar.exe")
  ∧ last
      (console_after
         (call Sample.settings Sample.filePath
            (Sample.package
               (<[ "gameExecutable" := VStr "../bar.exe" ]>
                  (Sample.manifest "1.0.0")))))
    = Some ("ERROR: Parsing " +:+ Sample.filePath).
Proof.
  pose proof (throws_from_three_places Sample.Number_toString Sample.settings
                Sample.filePath
                (Sample.package
                   (<[ "gameExecutable" := VStr "../bar.exe" ]>
                      (Sample.manifest "1.0.0")))
                (ThrownString "bad path for game executable: /games/bar.exe")
                OnSample.sample_keys) as [Hiff Hlast].
  assert (Hthrew : outcome_of
            (call Sample.settings Sample.filePath
               (Sample.package
                  (<[ "gameExecutable" := VStr "../bar.exe" ]>
                     (Sample.manifest "1.0.0"))))
          = Threw (ThrownString
                     "bad path for game executable: /games/bar.exe")).
  { apply Hiff.
    exists (<[ "gameExecutable" := VStr "../bar.exe" ]>
              (Sample.manifest "1.0.0")).
    split; [reflexivity|]. right. exists "html".
    split; [by vm_compute|]. split; [by vm_compute|]. split; [done|].
    split; [left; exists {[ "minPlayers" := VNum 2 ]}; reflexivity|].
    split.
    - left. exists "1.2.0".
      split; [by exists (Sample.bundle "1.2.0")|by vm_compute].
    - right. split; [by vm_compute|]. split; by vm_compute. }
  split; [exact Hthrew|exact (Hlast Hthrew)].
Defined.

(** X8 on the sample: a manifest whose game type is the empty string,
    under settings that have a game type of that name. *)
Lemma silent_rejection_on_sample :
  outcome_of
    (call Sample.settings_with_empty_gameType Sample.filePath
       (Sample.package
          (<[ "gameType" := VStr "" ]>
             (<[ "minPlayers" := VNum 1 ]> (Sample.manifest "1.0.0")))))
  = Rejected
  ∧ console_after
      (call Sample.settings_with_empty_gameType Sample.filePath
         (Sample.package
            (<[ "gameType" := VStr "" ]>
               (<[ "minPlayers" := VNum 1 ]> (Sample.manifest "1.0.0")))))
    = [].
Proof.
  apply (proj2 (silent_rejection Sample.Number_toString
                  Sample.settings_with_empty_gameType Sample.filePath
                  (Sample.package
                     (<[ "gameType" := VStr "" ]>
                        (<[ "minPlayers" := VNum 1 ]>
                           (Sample.manifest "1.0.0"))))
                  OnSample.sample_keys_with_empty_gameType)).
  exists (<[ "gameType" := VStr "" ]>
            (<[ "minPlayers" := VNum 1 ]> (Sample.manifest "1.0.0"))).
  split; [reflexivity|]. split; [by vm_compute|]. split; [by vm_compute|].
  split; [exists ∅; by vm_compute|].
  exists "1.2.0". split; [by exists (Sample.bundle "1.2.0")|by vm_compute].
Defined.

(** *** The asset checks *)

(** X10 on the sample: the one missing file is named. *)
Lemma required_files_verdict_on_sample :
  checkRequiredFiles listing (Sample.package html_manifest) "/games/foo"
  = FilesMissing "no scripts/game.js".
Proof.
  rewrite (required_files_verdict listing (Sample.package html_manifest)
             html_manifest "HTML" "/games/foo" eq_refl eq_refl);
    [reflexivity|by vm_compute|by vm_compute].
Defined.

(** X11 on the sample: a game of type [Constructor]. *)
Lemma inherited_gameType_never_passes_on_sample :
  checkRequiredFiles listing
    (Sample.package
       (<[ "gameType" := VStr "Constructor" ]> (Sample.manifest "1.0.0")))
    "/games/foo"
  = FilesTypeError.
Proof.
  exact (inherited_gameType_never_passes listing
           (Sample.package
              (<[ "gameType" := VStr "Constructor" ]>
                 (Sample.manifest "1.0.0")))
           (<[ "gameType" := VStr "Constructor" ]> (Sample.manifest "1.0.0"))
           "Constructor" "/games/foo" eq_refl eq_refl (or_introl eq_refl)).
Defined.

(** X12 on the sample: the same names in another order, one of them
    twice and one with a backslash. *)
Lemma verdict_depends_on_names_only_on_sample :
  checkRequiredFiles listing_unix (Sample.package html_manifest) "/games/foo"
  = checkRequiredFiles listing_windows (Sample.package html_manifest)
      "/games/foo".
Proof.
  apply (verdict_depends_on_names_only listing_unix listing_windows
           (Sample.package html_manifest) "/games/foo" "/games/foo").
  intros name.
  change (forward_slashes <$> listing_unix "/games/foo")
    with ["css/game.css"; "game.html"].
  change (forward_slashes <$> listing_windows "/games/foo")
    with ["game.html"; "css/game.css"; "game.html"].
  rewrite !elem_of_cons, !elem_of_nil. tauto.
Defined.

(** X13 on the sample: the check for [controller.html]. *)
Lemma unescaped_dot_takes_any_character_on_sample :
  ∃ stem extension,
    "no controller.html" = "no " +:+ stem +:+ "." +:+ extension
    ∧ ∀ name, RegExp.test (dotted "controller" "html") name = true
              ↔ ∃ c, RegExp.line_terminator c = false
                     ∧ name = stem +:+ String c extension.
Proof.
  apply (unescaped_dot_takes_any_character
           (mkCheck (dotted "controller" "html") "no controller.html")).
  apply list_elem_of_In. cbn. auto.
Defined.

(** X14 on the sample: the name [Icon.PNG]. *)
Lemma image_checks_take_on_sample :
  (RegExp.test (re (base_check 0)) "Icon.PNG" = true
   ↔ ∃ extension,
       extension ∈ ["jpg"; "png"; "gif"; "svg"]
       ∧ equal_ignoring_case "Icon.PNG" ("icon." +:+ extension))
  ∧ (RegExp.test (re (base_check 1)) "Icon.PNG" = true
     ↔ ∃ extension,
         extension ∈ ["jpg"; "png"; "gif"; "svg"]
         ∧ (equal_ignoring_case "Icon.PNG" ("screenshot." +:+ extension)
            ∨ ∃ d1 d2,
                Str.is_digit d1 = true ∧ Str.is_digit d2 = true
                ∧ equal_ignoring_case "Icon.PNG"
                    ("screenshot-"
                     +:+ String d1 (String d2 ("." +:+ extension))))).
Proof.
  exact (image_checks_take (base_check 0) (base_check 1) "Icon.PNG"
           eq_refl eq_refl).
Defined.

(** X15 on the sample: a folder with an icon and nothing else. *)
Lemma missing_game_html_named_twice_on_sample :
  ∃ front back,
    checkRequiredFiles listing_icon_only (Sample.package html_manifest)
      "/games/foo"
    = FilesMissing
        (front +:+ "no game.html" +:+ newline +:+ "no game.html" +:+ back).
Proof.
  apply (missing_game_html_named_twice listing_icon_only
           (Sample.package html_manifest) html_manifest "HTML" "/games/foo"
           eq_refl eq_refl eq_refl).
  intros name c Hin.
  apply list_elem_of_In in Hin. destruct Hin as [<-|[]]. discriminate.
Defined.

(** *** Reading from disk *)

#[local] Abbreviation read :=
  (readGameInfo Sample.Number_toString Sample.settings statSync readFileSync
     JSON_parse).

Lemma bad_game_throws :
  read_outcome_of (read "/games/bad") = ReadThrew SyntaxError.
Proof. reflexivity. Qed.

(** X16 on the sample: both lines name [/games/bad/package.json]. *)
Lemma read_faults_name_the_path_read_on_sample :
  last (read_console (read "/games/bad"))
  = Some ("ERROR: Reading " +:+ path_read statSync "/games/bad")
  ∧ ∃ front,
      read_console (read "/games/bad")
      = (front ++ ["ERROR: Parsing " +:+ path_read statSync "/games/bad";
                   "ERROR: Reading " +:+ path_read statSync "/games/bad"])%list.
Proof.
  exact (read_faults_name_the_path_read Sample.Number_toString
           Sample.settings statSync readFileSync JSON_parse "/games/bad"
           SyntaxError bad_game_throws).
Defined.

(** X17 on the sample: the game [foo], by its folder and by its
    manifest. *)
Lemma directory_read_through_manifest_on_sample :
  read "/games/foo" = read (Path.join ["/games/foo"; "package.json"]).
Proof.
  exact (directory_read_through_manifest Sample.Number_toString
           Sample.settings statSync readFileSync JSON_parse "/games/foo"
           eq_refl eq_refl).
Defined.

Lemma foo_is_read :
  read_outcome_of (read "/games/foo")
  = GameRead
      (packageInfo_after
         (call Sample.settings "/games/foo/package.json"
            (Sample.package full_manifest))).
Proof. reflexivity. Qed.

(** X18 on the sample: the game [foo], read by its folder. *)
Lemma game_read_is_parsed_manifest_on_sample :
  ∃ contents parsed hftInfo,
    readFileSync (path_read statSync "/games/foo") = Some contents
    ∧ JSON_parse contents = Some parsed
    ∧ returned (call Sample.settings (path_read statSync "/games/foo") parsed)
      = Some (packageInfo_after
                (call Sample.settings "/games/foo/package.json"
                   (Sample.package full_manifest)))
    ∧ read_console (read "/games/foo")
      = console_after
          (call Sample.settings (path_read statSync "/games/foo") parsed)
    ∧ happyFunTimes
        (packageInfo_after
           (call Sample.settings "/games/foo/package.json"
              (Sample.package full_manifest)))
      = Some hftInfo
    ∧ hftInfo !! "basePath"
      = Some (VStr (Path.dirname (path_read statSync "/games/foo"))).
Proof.
  exact (game_read_is_parsed_manifest Sample.Number_toString Sample.settings
           statSync readFileSync JSON_parse "/games/foo" _ foo_is_read).
Defined.

(** X19 on the sample: the full manifest comes back valid. *)
Lemma returned_manifest_is_valid_on_sample :
  validateObject
    (hftInfo_after
       (call Sample.settings Sample.filePath
          (Sample.package full_manifest)))
    (requiredFields Sample.Number_toString) = Passes
  ∧ (∃ gameType,
       get (hftInfo_after
              (call Sample.settings Sample.filePath
                 (Sample.package full_manifest))) "gameType"
       = VStr gameType
       ∧ gameType ≠ ""
       ∧ (is_Some (hftGameTypeDefaults Sample.settings !! gameType)
          ∨ gameType ∈ Object_prototype))
  ∧ ∃ bundle,
      get (hftInfo_after
             (call Sample.settings Sample.filePath
                (Sample.package full_manifest)))
        "versionSettings" = VObj bundle.
Proof.
  exact (returned_manifest_is_valid Sample.Number_toString Sample.settings
           Sample.filePath (Sample.package full_manifest)
           full_manifest_accepted).
Defined.

End MoreOnSample.
